(** * bsc-pulse: a shallow embedding of the price monitor and the mempool tracker

    The development follows [src/services/PriceMonitor.js] and
    [src/services/MempoolMonitor.js].  JavaScript numbers are IEEE 754
    binary64 values, embedded as Rocq's primitive floats; [BigInt]s are
    integers in [Z]; [Map]s keyed by address strings are [gmap string _],
    except the listener registry, which the code iterates and which is
    therefore kept as an insertion-ordered association list.  Mutation of
    [this] is explicit state passing over the record [PriceMonitor]; a
    JavaScript exception is the [Throw] completion. *)

From Stdlib Require Import ZArith List String Ascii Bool Lia Floats DecimalString.
From stdpp Require Import gmap strings.
Import ListNotations.

#[local] Set Warnings "-inexact-float,-register-all,-clear-no-such-hyp".
#[local] Open Scope string_scope.
#[local] Open Scope list_scope.
#[local] Open Scope Z_scope.

(** ** JavaScript values used by the services *)

Module Js.

(** [String.prototype.toLowerCase] on the ASCII range; addresses, symbols and
    transaction hashes are ASCII, bytes above 127 are left alone. *)
Definition lower_ascii (c : ascii) : ascii :=
  let n := nat_of_ascii c in
  if ((65 <=? n) && (n <=? 90))%nat then ascii_of_nat (n + 32) else c.

Definition upper_ascii (c : ascii) : ascii :=
  let n := nat_of_ascii c in
  if ((97 <=? n) && (n <=? 122))%nat then ascii_of_nat (n - 32) else c.

Fixpoint toLowerCase (s : string) : string :=
  match s with
  | EmptyString => EmptyString
  | String c r => String (lower_ascii c) (toLowerCase r)
  end.

Fixpoint toUpperCase (s : string) : string :=
  match s with
  | EmptyString => EmptyString
  | String c r => String (upper_ascii c) (toUpperCase r)
  end.

(** [s.startsWith(p)] *)
Definition startsWith (s p : string) : bool := String.prefix p s.

(** [s.slice(0, n)] for [0 <= n] *)
Definition slice0 (n : nat) (s : string) : string := String.substring 0 n s.

(** [arr.includes(x)] on an array of strings: strict equality. *)
Definition includes (l : list string) (x : string) : bool :=
  existsb (String.eqb x) l.

(** Numbers.  [x > y], [x >= y] and [x === y] are the IEEE comparisons, all
    false on NaN. *)
Definition number := float.
Bind Scope float_scope with number.

Definition gt (x y : number) : bool := PrimFloat.ltb y x.
Definition ge (x y : number) : bool := PrimFloat.leb y x.
Definition lt (x y : number) : bool := PrimFloat.ltb x y.
Definition le (x y : number) : bool := PrimFloat.leb x y.
Definition strict_eq (x y : number) : bool := PrimFloat.eqb x y.

(** Truthiness of a number: [0], [-0] and [NaN] are falsy. *)
Definition truthy (x : number) : bool :=
  negb (PrimFloat.eqb x 0%float) && PrimFloat.eqb x x.

(** [x || d] on numbers *)
Definition or_default (x d : number) : number := if truthy x then x else d.

(** An array length as a number (exact below 2^53). *)
Definition of_length (n : nat) : number :=
  PrimFloat.of_uint63 (Uint63.of_Z (Z.of_nat n)).

(** [arr.reduce((sum, p) => sum + p, 0)] *)
Definition sum (l : list number) : number :=
  fold_left PrimFloat.add l 0%float.

(** [Math.pow(x, 2)]: the fdlibm routine behind [Math.pow] returns [x * x]
    when the exponent is 2. *)
Definition Math_pow_2 (x : number) : number := PrimFloat.mul x x.

(** The completion of a call: a value, or a thrown exception. *)
Inductive completion (A : Type) : Type :=
| Normal (a : A)
| Throw (message : string).
Arguments Normal {A} a.
Arguments Throw {A} message.

End Js.

(** ** [ethers.getAddress]: EIP-55 checksum addresses

    [addToken], [addDynamicTokens] and [getTokenPrice] pass addresses through
    [ethers.getAddress], which returns the mixed-case checksum form computed
    from the Keccak-256 digest of the lowercase hex digits. *)

Module Keccak.

Definition mask64 : Z := Z.ones 64.

Definition rotl64 (x : Z) (n : Z) : Z :=
  Z.land (Z.lor (Z.shiftl x n) (Z.shiftr x (64 - n))) mask64.

Definition lane (st : list Z) (x y : nat) : Z :=
  nth ((x mod 5) + 5 * (y mod 5))%nat st 0.

Definition rotation_offsets : list Z :=
  [ 0;  1; 62; 28; 27;
   36; 44;  6; 55; 20;
    3; 10; 43; 25; 39;
   41; 45; 15; 21;  8;
   18;  2; 61; 56; 14].

Definition round_constants : list Z :=
  [0x0000000000000001; 0x0000000000008082; 0x800000000000808A;
   0x8000000080008000; 0x000000000000808B; 0x0000000080000001;
   0x8000000080008081; 0x8000000000008009; 0x000000000000008A;
   0x0000000000000088; 0x0000000080008009; 0x000000008000000A;
   0x000000008000808B; 0x800000000000008B; 0x8000000000008089;
   0x8000000000008003; 0x8000000000008002; 0x8000000000000080;
   0x000000000000800A; 0x800000008000000A; 0x8000000080008081;
   0x8000000000008080; 0x0000000080000001; 0x8000000080008008].

Definition coords : list (nat * nat) :=
  flat_map (fun y => map (fun x => (x, y)) (seq 0 5)) (seq 0 5).

Definition theta (st : list Z) : list Z :=
  let C x := fold_left Z.lxor (map (lane st x) (seq 0 5)) 0 in
  let D x := Z.lxor (C (x + 4)%nat) (rotl64 (C (x + 1)%nat) 1) in
  map (fun '(x, y) => Z.lxor (lane st x y) (D x)) coords.

Definition rho_pi (st : list Z) : list Z :=
  map (fun '(x, y) =>
         let sx := ((x + 3 * y) mod 5)%nat in
         rotl64 (lane st sx x) (nth (sx + 5 * x)%nat rotation_offsets 0))
      coords.

Definition chi (st : list Z) : list Z :=
  map (fun '(x, y) =>
         Z.lxor (lane st x y)
                (Z.land (Z.lxor (lane st (x + 1) y) mask64) (lane st (x + 2) y)))
      coords.

Definition iota (rc : Z) (st : list Z) : list Z :=
  match st with
  | [] => []
  | a :: r => Z.lxor a rc :: r
  end.

Definition keccak_round (st : list Z) (rc : Z) : list Z :=
  iota rc (chi (rho_pi (theta st))).

Definition keccak_f (st : list Z) : list Z :=
  fold_left keccak_round round_constants st.

(** Little-endian lanes of a block of bytes. *)
Fixpoint le_word (bytes : list Z) : Z :=
  match bytes with
  | [] => 0
  | b :: r => Z.lor b (Z.shiftl (le_word r) 8)
  end.

Fixpoint chunks (fuel n : nat) (l : list Z) : list (list Z) :=
  match fuel with
  | O => []
  | S f => match l with
           | [] => []
           | _ => firstn n l :: chunks f n (skipn n l)
           end
  end.

Definition rate_bytes : nat := 136.

(** The original Keccak padding (domain byte 0x01), as used by Ethereum. *)
Definition pad (msg : list Z) : list Z :=
  let q := (rate_bytes - (List.length msg mod rate_bytes))%nat in
  if (q =? 1)%nat then msg ++ [0x81]
  else msg ++ [0x01] ++ repeat 0 (q - 2) ++ [0x80].

Definition absorb (st : list Z) (block : list Z) : list Z :=
  let lanes := map le_word (chunks 17 8 block) in
  keccak_f (map (fun '(a, b) => Z.lxor a b)
                (combine st (lanes ++ repeat 0 8))).

Definition bytes_of_lane (w : Z) : list Z :=
  map (fun i => Z.land (Z.shiftr w (8 * Z.of_nat i)) 255) (seq 0 8).

Definition keccak256 (msg : list Z) : list Z :=
  let padded := pad msg in
  let blocks := chunks (List.length padded) rate_bytes padded in
  let st := fold_left absorb blocks (repeat 0 25) in
  flat_map bytes_of_lane (firstn 4 st).

End Keccak.

Module Ethers.

Definition is_hex_digit (c : ascii) : bool :=
  let n := nat_of_ascii c in
  ((48 <=? n) && (n <=? 57) || (65 <=? n) && (n <=? 70)
   || (97 <=? n) && (n <=? 102))%nat.

Definition is_upper_hex_letter (c : ascii) : bool :=
  let n := nat_of_ascii c in ((65 <=? n) && (n <=? 70))%nat.

Definition is_lower_hex_letter (c : ascii) : bool :=
  let n := nat_of_ascii c in ((97 <=? n) && (n <=? 102))%nat.

Definition chars (s : string) : list ascii := list_ascii_of_string s.

(** [/^(0x)?[0-9a-fA-F]{40}$/]: the 40 hex digits, if the string has that
    shape. *)
Definition hex40 (s : string) : option string :=
  let body := if String.prefix "0x" s then String.substring 2 (String.length s - 2) s else s in
  if ((String.length body =? 40)%nat && forallb is_hex_digit (chars body))
  then Some body else None.

(** [/([A-F].*[a-f])|([a-f].*[A-F])/] *)
Definition mixed_case (s : string) : bool :=
  existsb is_upper_hex_letter (chars s) && existsb is_lower_hex_letter (chars s).

Fixpoint checksum_chars (cs : list ascii) (hash : list Z) : list ascii :=
  match cs, hash with
  | c1 :: c2 :: r, h :: hr =>
      (if 8 <=? Z.shiftr h 4 then Js.upper_ascii c1 else c1)
      :: (if 8 <=? Z.land h 15 then Js.upper_ascii c2 else c2)
      :: checksum_chars r hr
  | _, _ => cs
  end.

(** [getChecksumAddress] on the 40 hex digits *)
Definition getChecksumAddress (body : string) : string :=
  let low := chars (Js.toLowerCase body) in
  let hashed := Keccak.keccak256 (map (fun c => Z.of_nat (nat_of_ascii c)) low) in
  "0x" +:+ string_of_list_ascii (checksum_chars low hashed).

(** [ethers.getAddress]; [None] stands for the thrown "invalid address"
    (this includes a mixed-case input whose checksum is wrong).  The ICAP
    (IBAN) notation that the library also accepts is outside the model. *)
Definition getAddress (address : string) : option string :=
  match hex40 address with
  | None => None
  | Some body =>
      let result := getChecksumAddress body in
      if mixed_case body && negb (String.eqb result ("0x" +:+ body))
      then None else Some result
  end.

End Ethers.

(** ** [src/config/tokens.config.js] *)

Module Config.

Definition addresses : list (string * string) :=
  [("WBNB", "0xbb4CdB9CBd36B01bD1cBaEBF2De08d9173bc095c");
   ("USDC", "0x8AC76a51cc950d9822D68b83fE1Ad97B32Cd580d");
   ("USDT", "0x55d398326f99059fF775485246999027B3197955");
   ("BUSD", "0xe9e7CEA3DedcA5984780Bafc599bD69ADd087D56");
   ("DAI", "0x1AF3F329e8BE154074D8769D1FFa4eE058B1DBc3");
   ("CAKE", "0x0E09FaBB73Bd3Ade0a17ECC321fD13a19e81cE82")].

(** [config.addresses[symbol]] *)
Definition address_of (symbol : string) : option string :=
  option_map snd (find (fun e => String.eqb (fst e) symbol) addresses).

Record Settings := {
  defaultBnbPrice : Js.number;
  updateBnbPriceInterval : Z;
  updateAgentPriceInterval : Z;
  agentPriceCacheTTL : Z;
  enableDebugLogs : bool;
  decimalPlaces : nat;
  maxReconnectAttempts : Z;
  reconnectDelay : Z;
  priceUpdateThreshold : Js.number
}.

Definition settings : Settings := {|
  defaultBnbPrice := 600%float;
  updateBnbPriceInterval := 60000;
  updateAgentPriceInterval := 30000;
  agentPriceCacheTTL := 10000;
  enableDebugLogs := false;
  decimalPlaces := 8;
  maxReconnectAttempts := 10;
  reconnectDelay := 5000;
  priceUpdateThreshold := 0.001%float
|}.

(** A price source of an agent token or of the BNB reference. *)
Record PriceSource := {
  src_address : string;
  src_type : string;
  src_pair : string;
  src_pairAddress : option string;
  src_token0 : string;
  src_token1 : string;
  src_decimals0 : Z;
  src_decimals1 : Z
}.

Record AgentConfig := {
  agent_symbol : string;
  priceSources : list PriceSource
}.

Definition bnbPriceSources : list PriceSource :=
  [{| src_address := "0x36696169C63e42cd08ce11f5deeBbCeBae652050";
      src_type := "V3"; src_pair := ""; src_pairAddress := None;
      src_token0 := "WBNB"; src_token1 := "USDT";
      src_decimals0 := 18; src_decimals1 := 18 |}].

(** [config.agentTokens] is an object keyed by address; the repository ships
    it empty and a deployment fills it in, so the services take it as data.
    [Object.entries] lists it in insertion order. *)
Definition AgentTokens := list (string * AgentConfig).

Definition agent_lookup (agents : AgentTokens) (key : string) : option AgentConfig :=
  option_map snd (find (fun e => String.eqb (fst e) key) agents).

End Config.

(** ** Data model of the price monitor *)

(** One entry of [tokenConfig.pools]. *)
Record PoolConfig := {
  pc_address : string;
  pc_type : string;
  pc_version : Z;
  pc_dex : string;
  pc_pair : string;
  pc_pairAddress : option string;
  pc_pairIsAgent : bool;
  pc_description : string;
  pc_priority : Js.number;
  pc_fee : option Z;
  pc_userAddress : option string
}.

Record TokenConfig := {
  tc_name : string;
  tc_symbol : string;
  tc_decimals : Z;
  tc_address : string;
  tc_pools : list PoolConfig
}.

(** A loaded pool: on-chain identity plus the mutable reserves or
    square-root price. *)
Record Pool := {
  pool_address : string;
  pool_type : string;
  pool_token0 : string;
  pool_token1 : string;
  pool_decimals0 : Z;
  pool_decimals1 : Z;
  pool_reserve0 : Z;
  pool_reserve1 : Z;
  pool_sqrtPriceX96 : option Z;
  pool_hasLiquidity : bool;
  pool_config : PoolConfig
}.

(** One element of [TokenPrice.pools]. *)
Record PriceSample := {
  ps_priceUSD : Js.number;
  ps_priceBNB : Js.number;
  ps_priority : Js.number;
  ps_pool : string;
  ps_description : string;
  ps_pair : string
}.

(** The aggregate fields that [calculateWeightedAverage] adds; the bare
    [{ priceUSD: 0, priceBNB: 0 }] of [calculatePrice] has none of them. *)
Record PriceDetails := {
  pd_tokenAddress : string;
  pd_symbol : string;
  pd_name : string;
  pd_poolCount : nat;
  pd_pools : list PriceSample;
  pd_timestamp : Z
}.

Record PriceData := {
  priceUSD : Js.number;
  priceBNB : Js.number;
  details : option PriceDetails
}.

(** What [LastPriceCache.set] stores: [{ ...priceData, cachedAt }]. *)
Record CacheEntry := {
  ce_price : PriceData;
  cachedAt : Z
}.

Record TokenData := {
  td_config : TokenConfig;
  td_pools : list Pool;
  lastPrice : option PriceData;
  lastUpdate : Z;
  lastUpdateCall : option Z;
  isDynamic : bool
}.

(** An [ethers.Contract] object, by identity. *)
Definition Contract := nat.

(** The value stored in [activeListeners].  The four [setup*Listener]
    functions store [contract], [tokenAddress] and [poolType]; none of them
    stores a [listener] field, so reading it yields [undefined] ([None]). *)
Record ListenerEntry := {
  le_contract : Contract;
  le_tokenAddress : string;
  le_poolType : string;
  le_listener : option nat
}.

Record AgentPrice := {
  ap_price : Js.number;
  ap_symbol : string;
  ap_timestamp : Z
}.

Record SwapListener := {
  sl_tokenAddress : string;
  sl_poolAddress : string;
  sl_protocol : string;
  sl_userAddress : option string;
  sl_startedAt : Z;
  sl_eventsDetected : Z
}.

(** Socket emissions: [io.to(room).emit(...)] and [io.emit(...)]. *)
Inductive Target := ToRoom (room : string) | ToAll.

Record Formatted := {
  f_priceUSD : string;
  f_priceBNB : string
}.

(** The payload of a price event: [{ ...priceData, formatted }]. *)
Record PriceUpdate := {
  pu_price : PriceData;
  pu_formatted : Formatted
}.

Record Emission := {
  em_target : Target;
  em_event : string;
  em_payload : PriceUpdate
}.

Record Metrics := {
  m_priceUpdates : Z;
  m_cacheHits : Z;
  m_cacheMisses : Z;
  m_eventsReceived : Z;
  m_errors : list string
}.

(** ** [src/services/MempoolMonitor.js] *)

Module MempoolMonitor.

(** What arrives as [message.params.result] after [JSON.parse]. *)
Inductive JsValue :=
| JString (s : string)
| JNumber (x : Js.number)
| JBool (b : bool)
| JNull
| JArray (items : list JsValue)
| JObject (fields : list (string * JsValue)).

(** [typeof v] *)
Definition typeof (v : JsValue) : string :=
  match v with
  | JString _ => "string"
  | JNumber _ => "number"
  | JBool _ => "boolean"
  | JNull | JArray _ | JObject _ => "object"
  end.

Section StringForm.

(** [Number.prototype.toString], from the runtime. *)
Variable Number_toString : Js.number -> string.

(** [String(v)]: the string form of a parsed JSON value. *)
Fixpoint string_form (v : JsValue) : string :=
  match v with
  | JString s => s
  | JNumber x => Number_toString x
  | JBool true => "true"
  | JBool false => "false"
  | JNull => "null"
  | JArray items =>
      String.concat ","
        (map (fun e => match e with JNull => "" | _ => string_form e end) items)
  | JObject _ => "[object Object]"
  end.

End StringForm.

(** The shape of a transaction hash: ['0x'] followed by 64 characters. *)
Definition is_tx_hash (s : string) : bool :=
  Js.startsWith s "0x" && (String.length s =? 66)%nat.

(** The value of [monitoredPools]: the config given to [addMonitoredPool]. *)
Record PoolWatch := {
  pw_tokenAddress : string;
  pw_poolAddress : string;
  pw_protocol : string;
  pw_userAddress : option string;
  pw_isToken0 : option bool;
  pw_addedAt : Z
}.

Record Tx := {
  tx_to : option string;
  tx_from : string;
  tx_data : string
}.

Inductive Operation := Buy | Sell | Unknown.

Record PendingSwap := {
  s_txHash : string;
  s_tokenAddress : string;
  s_poolAddress : string;
  s_protocol : string;
  s_userAddress : string;
  s_operation : Operation;
  s_methodId : string;
  s_detectedAt : Z;
  s_status : string
}.

Record Counters := {
  pendingDetected : Z;
  confirmed : Z;
  failed : Z;
  replaced : Z;
  timedOut : Z
}.

Record State := {
  pendingSwaps : gmap string PendingSwap;
  monitoredPools : gmap string PoolWatch;
  metrics : Counters;
  isMonitoring : bool;
  (** ['swap:pending'] envelopes sent to the swap microservice, oldest first *)
  emitted : list PendingSwap;
  (** hashes handed to a background [waitForConfirmation] *)
  awaiting : list string
}.

Definition SWAP_SIGNATURES : list (string * string) :=
  [("swapExactTokensForTokens", "0x38ed1739");
   ("swapTokensForExactTokens", "0x8803dbee");
   ("swapExactETHForTokens", "0x7ff36ab5");
   ("swapTokensForExactETH", "0x4a25d94a");
   ("swapExactTokensForETH", "0x18cbafe5");
   ("swapETHForExactTokens", "0xfb3bdb41");
   ("exactInputSingle", "0x414bf389");
   ("exactOutputSingle", "0xdb3e2198");
   ("exactInput", "0xc04b8d59");
   ("exactOutput", "0xf28c0498");
   ("execute", "0x3593564c");
   ("swap", "0x022c0d9f");
   ("swapV3", "0x128acb08")].

Definition removeMonitoredPool (st : State) (poolAddress : string) : State :=
  let key := Js.toLowerCase poolAddress in
  let pools := delete key (monitoredPools st) in
  {| pendingSwaps := pendingSwaps st;
     monitoredPools := pools;
     metrics := metrics st;
     isMonitoring := if (size pools =? 0)%nat then false else isMonitoring st;
     emitted := emitted st;
     awaiting := awaiting st |}.

Section Handler.

(** The node and the swap client, as seen during one handler run. *)
Variable getTransaction : string -> Js.completion (option Tx).
Variable swapClientConnected : bool.
(** [iface.parseTransaction({ data })] for the V2 [swap] ABI: the two output
    amounts, [null], or a thrown decoding error. *)
Variable parseSwap : string -> Js.completion (option (Z * Z)).
Variable now : Z.

Definition getPoolConfigForTx (st : State) (tx : Tx) : option PoolWatch :=
  match tx_to tx with
  | None => None
  | Some to => monitoredPools st !! Js.toLowerCase to
  end.

Definition decodeV2DirectSwap (data : string) (poolConfig : PoolWatch) : Operation :=
  match parseSwap data with
  | Js.Throw _ => Unknown
  | Js.Normal None => Unknown
  | Js.Normal (Some (amount0Out, amount1Out)) =>
      let isToken0 := match pw_isToken0 poolConfig with Some false => false | _ => true end in
      if isToken0 then (if 0 <? amount0Out then Buy else Sell)
      else (if 0 <? amount1Out then Buy else Sell)
  end.

Definition decodeSwapTransaction (tx : Tx) (poolConfig : PoolWatch)
  : option PendingSwap :=
  let data := tx_data tx in
  if (String.length data <? 10)%nat then None else
  let methodId := Js.toLowerCase (Js.slice0 10 data) in
  let operation :=
    if String.eqb methodId "0x022c0d9f" then Some (decodeV2DirectSwap data poolConfig)
    else if String.eqb methodId "0x128acb08" then Some Unknown
    else if Js.includes (map snd SWAP_SIGNATURES) methodId then Some Unknown
    else None in
  match operation with
  | None => None
  | Some op =>
      Some {| s_txHash := ""; s_tokenAddress := pw_tokenAddress poolConfig;
              s_poolAddress := pw_poolAddress poolConfig;
              s_protocol := pw_protocol poolConfig;
              s_userAddress := tx_from tx; s_operation := op;
              s_methodId := methodId; s_detectedAt := 0; s_status := "" |}
  end.

Definition emitPendingSwap (st : State) (swap : PendingSwap) : State :=
  if negb swapClientConnected then st else
  {| pendingSwaps := pendingSwaps st; monitoredPools := monitoredPools st;
     metrics := metrics st; isMonitoring := isMonitoring st;
     emitted := emitted st ++ [swap]; awaiting := awaiting st |}.

Definition track (st : State) (txHash : string) (swap : PendingSwap) : State :=
  let c := metrics st in
  {| pendingSwaps := <[txHash := swap]> (pendingSwaps st);
     monitoredPools := monitoredPools st;
     metrics := {| pendingDetected := pendingDetected c + 1;
                   confirmed := confirmed c; failed := failed c;
                   replaced := replaced c; timedOut := timedOut c |};
     isMonitoring := isMonitoring st;
     emitted := emitted st; awaiting := awaiting st |}.

Definition spawn_waitForConfirmation (st : State) (txHash : string) : State :=
  {| pendingSwaps := pendingSwaps st; monitoredPools := monitoredPools st;
     metrics := metrics st; isMonitoring := isMonitoring st;
     emitted := emitted st; awaiting := awaiting st ++ [txHash] |}.

(** The body of the [try] block of [handlePendingTransaction]. *)
Definition handlePendingTransaction_try (st : State) (txHash : JsValue)
  : State * Js.completion unit :=
  match txHash with
  | JString h =>
      if negb (Js.startsWith h "0x") || negb (String.length h =? 66)%nat
      then (st, Js.Normal tt)
      else if bool_decide (is_Some (pendingSwaps st !! h)) then (st, Js.Normal tt)
      else
        match getTransaction h with
        | Js.Throw e => (st, Js.Throw e)
        | Js.Normal None => (st, Js.Normal tt)
        | Js.Normal (Some tx) =>
            match getPoolConfigForTx st tx with
            | None => (st, Js.Normal tt)
            | Some poolConfig =>
                match decodeSwapTransaction tx poolConfig with
                | None => (st, Js.Normal tt)
                | Some swapData =>
                    let other_user :=
                      match pw_userAddress poolConfig with
                      | Some "" => false
                      | Some u => negb (String.eqb (Js.toLowerCase (tx_from tx))
                                                   (Js.toLowerCase u))
                      | None => false
                      end in
                    if other_user then (st, Js.Normal tt) else
                    let pendingSwap :=
                      {| s_txHash := h;
                         s_tokenAddress := s_tokenAddress swapData;
                         s_poolAddress := s_poolAddress swapData;
                         s_protocol := s_protocol swapData;
                         s_userAddress := s_userAddress swapData;
                         s_operation := s_operation swapData;
                         s_methodId := s_methodId swapData;
                         s_detectedAt := now; s_status := "pending" |} in
                    let st1 := track st h pendingSwap in
                    let st2 := emitPendingSwap st1 pendingSwap in
                    (spawn_waitForConfirmation st2 h, Js.Normal tt)
                end
            end
        end
  | _ => (st, Js.Normal tt)
  end.

(** [handlePendingTransaction]: the [catch] clause swallows every error. *)
Definition handlePendingTransaction (st : State) (txHash : JsValue)
  : State * Js.completion unit :=
  match handlePendingTransaction_try st txHash with
  | (st', Js.Throw _) => (st', Js.Normal tt)
  | r => r
  end.

End Handler.

End MempoolMonitor.

(** ** [src/services/PriceMonitor.js] *)

Module PriceMonitor.

(** The fields of [this], with the observable effects made explicit. *)
Record State := {
  monitoredTokens : gmap string TokenData;
  poolContracts : gmap string Contract;
  (** insertion-ordered, as a JavaScript [Map] iterates *)
  activeListeners : list (string * ListenerEntry);
  bnbPrice : Js.number;
  (** [undefined] until the first [updateBNBPrice] *)
  lastEthPriceUpdate : option Z;
  agentTokenPrices : gmap string AgentPrice;
  (** [this.priceCache.prices] *)
  priceCache : gmap string CacheEntry;
  metrics : Metrics;
  swapListeners : gmap string SwapListener;
  mempoolMonitor : option MempoolMonitor.State;
  (** effects, oldest first: socket emissions, [console.warn] lines, the
      contracts with a live [Swap] handler, and the contracts on which a
      listener removal was invoked *)
  io : list Emission;
  warnings : list string;
  subscriptions : list Contract;
  teardowns : list Contract;
  nextContract : Contract
}.

Definition set_monitoredTokens (v : gmap string TokenData) (st : State) : State :=
  {| monitoredTokens := v; poolContracts := poolContracts st;
     activeListeners := activeListeners st; bnbPrice := bnbPrice st;
     lastEthPriceUpdate := lastEthPriceUpdate st; agentTokenPrices :=
     agentTokenPrices st; priceCache := priceCache st; metrics := metrics
     st; swapListeners := swapListeners st; mempoolMonitor := mempoolMonitor
     st; io := io st; warnings := warnings st; subscriptions :=
     subscriptions st; teardowns := teardowns st; nextContract :=
     nextContract st |}.

Definition set_poolContracts (v : gmap string Contract) (st : State) : State :=
  {| monitoredTokens := monitoredTokens st; poolContracts := v;
     activeListeners := activeListeners st; bnbPrice := bnbPrice st;
     lastEthPriceUpdate := lastEthPriceUpdate st; agentTokenPrices :=
     agentTokenPrices st; priceCache := priceCache st; metrics := metrics
     st; swapListeners := swapListeners st; mempoolMonitor := mempoolMonitor
     st; io := io st; warnings := warnings st; subscriptions :=
     subscriptions st; teardowns := teardowns st; nextContract :=
     nextContract st |}.

Definition set_activeListeners (v : list (string * ListenerEntry)) (st : State) : State :=
  {| monitoredTokens := monitoredTokens st; poolContracts := poolContracts
     st; activeListeners := v; bnbPrice := bnbPrice st; lastEthPriceUpdate
     := lastEthPriceUpdate st; agentTokenPrices := agentTokenPrices st;
     priceCache := priceCache st; metrics := metrics st; swapListeners :=
     swapListeners st; mempoolMonitor := mempoolMonitor st; io := io st;
     warnings := warnings st; subscriptions := subscriptions st; teardowns
     := teardowns st; nextContract := nextContract st |}.

Definition set_bnbPrice (v : Js.number) (st : State) : State :=
  {| monitoredTokens := monitoredTokens st; poolContracts := poolContracts
     st; activeListeners := activeListeners st; bnbPrice := v;
     lastEthPriceUpdate := lastEthPriceUpdate st; agentTokenPrices :=
     agentTokenPrices st; priceCache := priceCache st; metrics := metrics
     st; swapListeners := swapListeners st; mempoolMonitor := mempoolMonitor
     st; io := io st; warnings := warnings st; subscriptions :=
     subscriptions st; teardowns := teardowns st; nextContract :=
     nextContract st |}.

Definition set_lastEthPriceUpdate (v : option Z) (st : State) : State :=
  {| monitoredTokens := monitoredTokens st; poolContracts := poolContracts
     st; activeListeners := activeListeners st; bnbPrice := bnbPrice st;
     lastEthPriceUpdate := v; agentTokenPrices := agentTokenPrices st;
     priceCache := priceCache st; metrics := metrics st; swapListeners :=
     swapListeners st; mempoolMonitor := mempoolMonitor st; io := io st;
     warnings := warnings st; subscriptions := subscriptions st; teardowns
     := teardowns st; nextContract := nextContract st |}.

Definition set_agentTokenPrices (v : gmap string AgentPrice) (st : State) : State :=
  {| monitoredTokens := monitoredTokens st; poolContracts := poolContracts
     st; activeListeners := activeListeners st; bnbPrice := bnbPrice st;
     lastEthPriceUpdate := lastEthPriceUpdate st; agentTokenPrices := v;
     priceCache := priceCache st; metrics := metrics st; swapListeners :=
     swapListeners st; mempoolMonitor := mempoolMonitor st; io := io st;
     warnings := warnings st; subscriptions := subscriptions st; teardowns
     := teardowns st; nextContract := nextContract st |}.

Definition set_priceCache (v : gmap string CacheEntry) (st : State) : State :=
  {| monitoredTokens := monitoredTokens st; poolContracts := poolContracts
     st; activeListeners := activeListeners st; bnbPrice := bnbPrice st;
     lastEthPriceUpdate := lastEthPriceUpdate st; agentTokenPrices :=
     agentTokenPrices st; priceCache := v; metrics := metrics st;
     swapListeners := swapListeners st; mempoolMonitor := mempoolMonitor st;
     io := io st; warnings := warnings st; subscriptions := subscriptions
     st; teardowns := teardowns st; nextContract := nextContract st |}.

Definition set_metrics (v : Metrics) (st : State) : State :=
  {| monitoredTokens := monitoredTokens st; poolContracts := poolContracts
     st; activeListeners := activeListeners st; bnbPrice := bnbPrice st;
     lastEthPriceUpdate := lastEthPriceUpdate st; agentTokenPrices :=
     agentTokenPrices st; priceCache := priceCache st; metrics := v;
     swapListeners := swapListeners st; mempoolMonitor := mempoolMonitor st;
     io := io st; warnings := warnings st; subscriptions := subscriptions
     st; teardowns := teardowns st; nextContract := nextContract st |}.

Definition set_swapListeners (v : gmap string SwapListener) (st : State) : State :=
  {| monitoredTokens := monitoredTokens st; poolContracts := poolContracts
     st; activeListeners := activeListeners st; bnbPrice := bnbPrice st;
     lastEthPriceUpdate := lastEthPriceUpdate st; agentTokenPrices :=
     agentTokenPrices st; priceCache := priceCache st; metrics := metrics
     st; swapListeners := v; mempoolMonitor := mempoolMonitor st; io := io
     st; warnings := warnings st; subscriptions := subscriptions st;
     teardowns := teardowns st; nextContract := nextContract st |}.

Definition set_mempoolMonitor (v : option MempoolMonitor.State) (st : State) : State :=
  {| monitoredTokens := monitoredTokens st; poolContracts := poolContracts
     st; activeListeners := activeListeners st; bnbPrice := bnbPrice st;
     lastEthPriceUpdate := lastEthPriceUpdate st; agentTokenPrices :=
     agentTokenPrices st; priceCache := priceCache st; metrics := metrics
     st; swapListeners := swapListeners st; mempoolMonitor := v; io := io
     st; warnings := warnings st; subscriptions := subscriptions st;
     teardowns := teardowns st; nextContract := nextContract st |}.

Definition set_io (v : list Emission) (st : State) : State :=
  {| monitoredTokens := monitoredTokens st; poolContracts := poolContracts
     st; activeListeners := activeListeners st; bnbPrice := bnbPrice st;
     lastEthPriceUpdate := lastEthPriceUpdate st; agentTokenPrices :=
     agentTokenPrices st; priceCache := priceCache st; metrics := metrics
     st; swapListeners := swapListeners st; mempoolMonitor := mempoolMonitor
     st; io := v; warnings := warnings st; subscriptions := subscriptions
     st; teardowns := teardowns st; nextContract := nextContract st |}.

Definition set_warnings (v : list string) (st : State) : State :=
  {| monitoredTokens := monitoredTokens st; poolContracts := poolContracts
     st; activeListeners := activeListeners st; bnbPrice := bnbPrice st;
     lastEthPriceUpdate := lastEthPriceUpdate st; agentTokenPrices :=
     agentTokenPrices st; priceCache := priceCache st; metrics := metrics
     st; swapListeners := swapListeners st; mempoolMonitor := mempoolMonitor
     st; io := io st; warnings := v; subscriptions := subscriptions st;
     teardowns := teardowns st; nextContract := nextContract st |}.

Definition set_subscriptions (v : list Contract) (st : State) : State :=
  {| monitoredTokens := monitoredTokens st; poolContracts := poolContracts
     st; activeListeners := activeListeners st; bnbPrice := bnbPrice st;
     lastEthPriceUpdate := lastEthPriceUpdate st; agentTokenPrices :=
     agentTokenPrices st; priceCache := priceCache st; metrics := metrics
     st; swapListeners := swapListeners st; mempoolMonitor := mempoolMonitor
     st; io := io st; warnings := warnings st; subscriptions := v; teardowns
     := teardowns st; nextContract := nextContract st |}.

Definition set_teardowns (v : list Contract) (st : State) : State :=
  {| monitoredTokens := monitoredTokens st; poolContracts := poolContracts
     st; activeListeners := activeListeners st; bnbPrice := bnbPrice st;
     lastEthPriceUpdate := lastEthPriceUpdate st; agentTokenPrices :=
     agentTokenPrices st; priceCache := priceCache st; metrics := metrics
     st; swapListeners := swapListeners st; mempoolMonitor := mempoolMonitor
     st; io := io st; warnings := warnings st; subscriptions :=
     subscriptions st; teardowns := v; nextContract := nextContract st |}.

Definition set_nextContract (v : Contract) (st : State) : State :=
  {| monitoredTokens := monitoredTokens st; poolContracts := poolContracts
     st; activeListeners := activeListeners st; bnbPrice := bnbPrice st;
     lastEthPriceUpdate := lastEthPriceUpdate st; agentTokenPrices :=
     agentTokenPrices st; priceCache := priceCache st; metrics := metrics
     st; swapListeners := swapListeners st; mempoolMonitor := mempoolMonitor
     st; io := io st; warnings := warnings st; subscriptions :=
     subscriptions st; teardowns := teardowns st; nextContract := v |}.
Definition warn (line : string) (st : State) : State :=
  set_warnings (warnings st ++ [line]) st.

(** *** [class LastPriceCache] *)

Module LastPriceCache.

(** The methods the class declares. *)
Definition methods : list string := ["set"; "get"; "getAll"; "clear"].

Definition has_method (name : string) : bool := Js.includes methods name.

Definition set (prices : gmap string CacheEntry) (tokenAddress : string)
  (priceData : PriceData) (now : Z) : gmap string CacheEntry :=
  <[Js.toLowerCase tokenAddress := {| ce_price := priceData; cachedAt := now |}]> prices.

(** [get]: the entry, or [null] ([None]) *)
Definition get (prices : gmap string CacheEntry) (tokenAddress : string)
  : option CacheEntry :=
  prices !! Js.toLowerCase tokenAddress.

Definition getAll (prices : gmap string CacheEntry) : list (string * CacheEntry) :=
  map_to_list prices.

Definition clear (prices : gmap string CacheEntry) : gmap string CacheEntry := ∅.

End LastPriceCache.

(** *** [class MetricsCollector] *)

Definition increment (metric : string) (m : Metrics) : Metrics :=
  if String.eqb metric "priceUpdates" then
    {| m_priceUpdates := m_priceUpdates m + 1; m_cacheHits := m_cacheHits m;
       m_cacheMisses := m_cacheMisses m; m_eventsReceived := m_eventsReceived m;
       m_errors := m_errors m |}
  else if String.eqb metric "cacheHits" then
    {| m_priceUpdates := m_priceUpdates m; m_cacheHits := m_cacheHits m + 1;
       m_cacheMisses := m_cacheMisses m; m_eventsReceived := m_eventsReceived m;
       m_errors := m_errors m |}
  else if String.eqb metric "cacheMisses" then
    {| m_priceUpdates := m_priceUpdates m; m_cacheHits := m_cacheHits m;
       m_cacheMisses := m_cacheMisses m + 1; m_eventsReceived := m_eventsReceived m;
       m_errors := m_errors m |}
  else if String.eqb metric "eventsReceived" then
    {| m_priceUpdates := m_priceUpdates m; m_cacheHits := m_cacheHits m;
       m_cacheMisses := m_cacheMisses m; m_eventsReceived := m_eventsReceived m + 1;
       m_errors := m_errors m |}
  else m.

(** [addError]: the ring keeps the 100 most recent messages. *)
Definition addError (message : string) (m : Metrics) : Metrics :=
  let errors := m_errors m ++ [message] in
  {| m_priceUpdates := m_priceUpdates m; m_cacheHits := m_cacheHits m;
     m_cacheMisses := m_cacheMisses m; m_eventsReceived := m_eventsReceived m;
     m_errors := if (100 <? List.length errors)%nat then tl errors else errors |}.

(** *** Outlier rejection *)

Definition removeOutliers (prices : list Js.number) : list Js.number :=
  if (List.length prices <=? 2)%nat then prices else
  let mean := (Js.sum prices / Js.of_length (List.length prices))%float in
  let squaredDiffs := map (fun p => Js.Math_pow_2 (p - mean)%float) prices in
  let variance := (Js.sum squaredDiffs / Js.of_length (List.length prices))%float in
  let stdDev := PrimFloat.sqrt variance in
  let filtered :=
    List.filter (fun p => Js.le (PrimFloat.abs (p - mean)%float) (2 * stdDev)%float)
                prices in
  if (List.length filtered =? 0)%nat then prices else filtered.

(** The sample mean and deviation that [removeOutliers] computes. *)
Definition mean_of (prices : list Js.number) : Js.number :=
  (Js.sum prices / Js.of_length (List.length prices))%float.

Definition stdDev_of (prices : list Js.number) : Js.number :=
  PrimFloat.sqrt
    (Js.sum (map (fun p => Js.Math_pow_2 (p - mean_of prices)%float) prices)
     / Js.of_length (List.length prices))%float.

Definition within_two_sigma (prices : list Js.number) (p : Js.number) : bool :=
  Js.le (PrimFloat.abs (p - mean_of prices)%float) (2 * stdDev_of prices)%float.

(** *** The runtime and the chain

    Library functions whose results the services only pass along, and the
    answers of the node during one handler run.  The clock does not advance
    within a run. *)

Record Runtime := {
  (** [Number(ethers.formatUnits(value, decimals))] *)
  Number_formatUnits : Z -> Z -> Js.number;
  (** [Number(b)] and [parseFloat(b.toString())] of a [BigInt] *)
  Number_of_BigInt : Z -> Js.number;
  (** [Math.pow(10, k)] *)
  Math_pow10 : Z -> Js.number;
  (** [x.toFixed(digits)] *)
  toFixed : Js.number -> nat -> string;
  toExponential : Js.number -> nat -> string;
  (** [x.toLocaleString('en-US', { maximumFractionDigits: 2 })] *)
  toLocaleString : Js.number -> string
}.

Record Chain := {
  rpc_getReserves : string -> Js.completion (Z * Z);
  rpc_slot0 : string -> Js.completion Z;
  rpc_token0 : string -> Js.completion string;
  rpc_token1 : string -> Js.completion string;
  (** the outcome of [loadV2Pool], [loadV3Pool] and their Aerodrome siblings
      for a pool entry and a token: the loaded pool, or a thrown error *)
  rpc_loadPool : PoolConfig -> string -> Js.completion Pool;
  (** [Date.now()] *)
  now : Z
}.

Definition is_stable (pair : string) : bool :=
  String.eqb pair "USDC" || String.eqb pair "USDT" || String.eqb pair "DAI"
  || String.eqb pair "BUSD".

Section Service.

Variable rt : Runtime.
Variable chain : Chain.
(** [config.agentTokens] and [config.tokens] of the deployment *)
Variable agentTokens : Config.AgentTokens.
Variable tokens : list (string * TokenConfig).

(** [2 ** 96] *)
Definition Q96 : Js.number := Z.ldexp 1%float 96.

Definition getV2PoolPrice (source : Config.PriceSource) (tokenAddress : string)
  : Js.completion Js.number :=
  let a := Config.src_address source in
  match rpc_getReserves chain a, rpc_token0 chain a, rpc_token1 chain a with
  | Js.Normal (reserve0, reserve1), Js.Normal token0, Js.Normal _ =>
      if (reserve0 =? 0) || (reserve1 =? 0) then Js.Normal 0%float else
      let isToken0 := String.eqb (Js.toLowerCase token0) (Js.toLowerCase tokenAddress) in
      let n0 := Number_formatUnits rt reserve0 (Config.src_decimals0 source) in
      let n1 := Number_formatUnits rt reserve1 (Config.src_decimals1 source) in
      Js.Normal (if isToken0 then n1 / n0 else n0 / n1)%float
  | Js.Throw e, _, _ | _, Js.Throw e, _ | _, _, Js.Throw e => Js.Throw e
  end.

Definition getV3PoolPrice (source : Config.PriceSource) (tokenAddress : string)
  : Js.completion Js.number :=
  let a := Config.src_address source in
  match rpc_slot0 chain a, rpc_token0 chain a, rpc_token1 chain a with
  | Js.Normal sqrtPriceX96, Js.Normal token0, Js.Normal _ =>
      let sqrtPrice := (Number_of_BigInt rt sqrtPriceX96 / Q96)%float in
      let rawPrice := (sqrtPrice * sqrtPrice)%float in
      let d0 := Config.src_decimals0 source in
      let d1 := Config.src_decimals1 source in
      let rawPrice :=
        if d0 =? d1 then rawPrice else (rawPrice * Math_pow10 rt (d0 - d1))%float in
      let isToken0 := String.eqb (Js.toLowerCase token0) (Js.toLowerCase tokenAddress) in
      Js.Normal (if isToken0 then rawPrice else (1 / rawPrice)%float)
  | Js.Throw e, _, _ | _, Js.Throw e, _ | _, _, Js.Throw e => Js.Throw e
  end.

(** *** Agent token pricing *)

Definition cycle_warning (callStack : list string) (agentAddress : string) : string :=
  "Circular dependency detected: " +:+ String.concat " -> " callStack
  +:+ " -> " +:+ agentAddress.

Definition cycle_warning_get (callStack : list string) (agentAddress : string) : string :=
  "Circular dependency in getAgentTokenPrice: " +:+ String.concat " -> " callStack
  +:+ " -> " +:+ agentAddress.

Definition cache_agent (agentAddress : string) (price : Js.number)
  (symbol : string) (st : State) : State :=
  set_agentTokenPrices
    (<[Js.toLowerCase agentAddress :=
         {| ap_price := price; ap_symbol := symbol; ap_timestamp := now chain |}]>
       (agentTokenPrices st)) st.

(** The recursive calls of the two functions below are bounded by a fuel
    argument; [None] means the fuel ran out, never a JavaScript result. *)
Definition Getter := State -> option string -> list string -> option (State * Js.number).

(** The [for] loop of [calculateAgentTokenPrice] over the price sources. *)
Fixpoint collect_prices (get : Getter) (st : State) (agentAddress : string)
  (newCallStack : list string) (sources : list Config.PriceSource)
  (prices : list Js.number) : option (State * list Js.number) :=
  match sources with
  | [] => Some (st, prices)
  | source :: rest =>
      let fetched :=
        if String.eqb (Config.src_type source) "V2"
        then getV2PoolPrice source agentAddress
        else getV3PoolPrice source agentAddress in
      match fetched with
      | Js.Throw _ => collect_prices get st agentAddress newCallStack rest prices
      | Js.Normal price =>
          let pair := Config.src_pair source in
          let converted :=
            if String.eqb pair "WBNB" then Some (st, (price * bnbPrice st)%float)
            else if is_stable pair then Some (st, price)
            else
              match get st (Config.src_pairAddress source) newCallStack with
              | None => None
              | Some (st', nestedAgentPrice) =>
                  Some (st', if Js.gt nestedAgentPrice 0%float
                             then (price * nestedAgentPrice)%float else price)
              end in
          match converted with
          | None => None
          | Some (st', price') =>
              collect_prices get st' agentAddress newCallStack rest
                (if Js.gt price' 0%float then prices ++ [price'] else prices)
          end
      end
  end.

Definition calculateAgentTokenPrice_with (get : Getter) (st : State)
  (agentAddress : string) (agentConfig : Config.AgentConfig)
  (callStack : list string) : option (State * Js.number) :=
  if Js.includes callStack agentAddress
  then Some (warn (cycle_warning callStack agentAddress) st, 0%float)
  else
    match collect_prices get st agentAddress (callStack ++ [agentAddress])
                         (Config.priceSources agentConfig) [] with
    | None => None
    | Some (st', prices) =>
        if (List.length prices =? 0)%nat then Some (st', 0%float) else
        let cleanPrices := removeOutliers prices in
        Some (st', (Js.sum cleanPrices / Js.of_length (List.length cleanPrices))%float)
    end.

Fixpoint getAgentTokenPrice_fuel (fuel : nat) (st : State)
  (agentAddress : option string) (callStack : list string)
  : option (State * Js.number) :=
  match fuel with
  | O => None
  | S fuel' =>
      match agentAddress with
      | None | Some "" => Some (st, 0%float)
      | Some a =>
          if Js.includes callStack a
          then Some (warn (cycle_warning_get callStack a) st, 0%float)
          else
            let fresh :=
              match agentTokenPrices st !! Js.toLowerCase a with
              | Some cached =>
                  if now chain - ap_timestamp cached
                     <? Config.agentPriceCacheTTL Config.settings
                  then Some (ap_price cached) else None
              | None => None
              end in
            match fresh with
            | Some price => Some (st, price)
            | None =>
                match Config.agent_lookup agentTokens (Js.toLowerCase a) with
                | None =>
                    Some (warn ("No configuration for agent token " +:+ a) st, 0%float)
                | Some agentConfig =>
                    match calculateAgentTokenPrice_with
                            (getAgentTokenPrice_fuel fuel') st a agentConfig callStack with
                    | None => None
                    | Some (st', price) =>
                        Some (if Js.gt price 0%float
                              then cache_agent a price (Config.agent_symbol agentConfig) st'
                              else st', price)
                    end
                end
            end
      end
  end.

Definition calculateAgentTokenPrice_fuel (fuel : nat) :=
  calculateAgentTokenPrice_with (getAgentTokenPrice_fuel fuel).

(** Every [pairAddress] that occurs in the agent registry. *)
Definition pair_addresses : list string :=
  flat_map (fun e => omap Config.src_pairAddress (Config.priceSources (snd e)))
           agentTokens.

(** Fuel that always suffices (see [agent_price_fuel_suffices]). *)
Definition agent_fuel : nat := S (S (List.length pair_addresses)).

Definition getAgentTokenPrice (st : State) (agentAddress : option string)
  (callStack : list string) : State * Js.number :=
  default (st, 0%float) (getAgentTokenPrice_fuel agent_fuel st agentAddress callStack).

Definition calculateAgentTokenPrice (st : State) (agentAddress : string)
  (agentConfig : Config.AgentConfig) (callStack : list string) : State * Js.number :=
  default (st, 0%float)
    (calculateAgentTokenPrice_fuel agent_fuel st agentAddress agentConfig callStack).

Definition updateAllAgentPrices (st : State) : State :=
  fold_left
    (fun st e =>
       let '(agentAddress, agentConfig) := e in
       let '(st', price) := calculateAgentTokenPrice st agentAddress agentConfig [] in
       if Js.gt price 0%float
       then cache_agent agentAddress price (Config.agent_symbol agentConfig) st'
       else st')
    agentTokens st.

(** *** BNB reference price *)

Definition getBNBPriceFromPool (source : Config.PriceSource) : Js.completion Js.number :=
  match rpc_slot0 chain (Config.src_address source) with
  | Js.Throw e => Js.Throw e
  | Js.Normal sqrtPriceX96 =>
      let sqrtPrice := (Number_of_BigInt rt sqrtPriceX96 / Q96)%float in
      let price := (sqrtPrice * sqrtPrice)%float in
      let d0 := Config.src_decimals0 source in
      let d1 := Config.src_decimals1 source in
      let price := if d0 =? d1 then price else (price * Math_pow10 rt (d0 - d1))%float in
      let t0 := Config.src_token0 source in
      let stable0 := String.eqb t0 "USDC" || String.eqb t0 "USDT" || String.eqb t0 "BUSD" in
      Js.Normal (if stable0 && String.eqb (Config.src_token1 source) "WBNB"
                 then (1 / price)%float else price)
  end.

Definition updateBNBPrice (st : State) : State :=
  let prices :=
    fold_left (fun acc source =>
                 match getBNBPriceFromPool source with
                 | Js.Normal price => if Js.gt price 0%float then acc ++ [price] else acc
                 | Js.Throw _ => acc
                 end) Config.bnbPriceSources [] in
  let st1 :=
    if (0 <? List.length prices)%nat then
      let cleanPrices := removeOutliers prices in
      set_bnbPrice (Js.sum cleanPrices / Js.of_length (List.length cleanPrices))%float st
    else st in
  set_lastEthPriceUpdate (Some (now chain)) st1.

(** [now - this.lastEthPriceUpdate > interval]; false while the field is
    [undefined]. *)
Definition bnb_price_stale (st : State) : bool :=
  match lastEthPriceUpdate st with
  | Some t => Config.updateBnbPriceInterval Config.settings <? now chain - t
  | None => false
  end.

(** *** Per-pool price and conversion to USD *)

Definition calculateV2Price (tokenAddress : string) (pool : Pool) : Js.number * bool :=
  let reserve0 := pool_reserve0 pool in
  let reserve1 := pool_reserve1 pool in
  if (reserve0 =? 0) || (reserve1 =? 0) then (0%float, false) else
  let isToken0 := String.eqb (pool_token0 pool) (Js.toLowerCase tokenAddress) in
  let n0 := Number_formatUnits rt reserve0 (pool_decimals0 pool) in
  let n1 := Number_formatUnits rt reserve1 (pool_decimals1 pool) in
  ((if isToken0 then n1 / n0 else n0 / n1)%float, isToken0).

Definition calculateV3Price (tokenAddress : string) (pool : Pool) : Js.number * bool :=
  match pool_sqrtPriceX96 pool with
  | None => (0%float, false)
  | Some sqrtPriceX96Bi =>
      let isToken0 := String.eqb (pool_token0 pool) (Js.toLowerCase tokenAddress) in
      let Q192 := 2 ^ 192 in
      let PRECISION := 10 ^ 18 in
      let priceWithPrecision := (sqrtPriceX96Bi * sqrtPriceX96Bi * PRECISION) / Q192 in
      let rawPrice := (Number_of_BigInt rt priceWithPrecision / 1e18)%float in
      let d0 := pool_decimals0 pool in
      let d1 := pool_decimals1 pool in
      let rawPrice :=
        if d0 =? d1 then rawPrice else (rawPrice * Math_pow10 rt (d0 - d1))%float in
      ((if isToken0 then rawPrice else 1 / rawPrice)%float, isToken0)
  end.

Definition bare_price (usd bnb : Js.number) : PriceData :=
  {| priceUSD := usd; priceBNB := bnb; details := None |}.

Definition convertToUSD (st : State) (priceInPair : Js.number) (pool : Pool)
  (isToken0 : bool) : State * PriceData :=
  let pairAddress :=
    match pc_pairAddress (pool_config pool) with
    | Some "" | None => if isToken0 then pool_token1 pool else pool_token0 pool
    | Some a => a
    end in
  let pairSymbol := pc_pair (pool_config pool) in
  if String.eqb pairSymbol "WBNB" then
    (st, bare_price (priceInPair * bnbPrice st)%float priceInPair)
  else if String.eqb pairSymbol "USDC" || String.eqb pairSymbol "USDT"
          || String.eqb pairSymbol "DAI" then
    (st, bare_price priceInPair (priceInPair / bnbPrice st)%float)
  else if pc_pairIsAgent (pool_config pool) then
    let '(st', agentPriceUSD) := getAgentTokenPrice st (Some pairAddress) [] in
    if Js.gt agentPriceUSD 0%float then
      let usd := (priceInPair * agentPriceUSD)%float in
      (st', bare_price usd (usd / bnbPrice st')%float)
    else
      (warn ("No price available for agent token " +:+ pairSymbol) st',
       bare_price 0%float 0%float)
  else
    (warn ("Unknown pair type: " +:+ pairSymbol) st, bare_price 0%float 0%float).

(** *** Aggregation over the pools of a token *)

Definition calculateWeightedAverage (prices : list PriceSample)
  (tokenConfig : TokenConfig) : PriceData :=
  let weight p := (1 / ps_priority p)%float in
  let totalWeight := fold_left (fun sum p => (sum + weight p)%float) prices 0%float in
  let weightedUSD :=
    (fold_left (fun sum p => (sum + ps_priceUSD p * weight p)%float) prices 0%float
     / totalWeight)%float in
  let weightedBNB :=
    (fold_left (fun sum p => (sum + ps_priceBNB p * weight p)%float) prices 0%float
     / totalWeight)%float in
  {| priceUSD := weightedUSD; priceBNB := weightedBNB;
     details := Some {| pd_tokenAddress := tc_address tokenConfig;
                        pd_symbol := tc_symbol tokenConfig;
                        pd_name := tc_name tokenConfig;
                        pd_poolCount := List.length prices;
                        pd_pools := prices;
                        pd_timestamp := now chain |} |}.

(** [arr.includes(x)] on numbers compares with SameValueZero. *)
Definition includes_number (l : list Js.number) (x : Js.number) : bool :=
  existsb (fun y => PrimFloat.eqb y x
                    || (negb (PrimFloat.eqb y y) && negb (PrimFloat.eqb x x))) l.

(** One iteration of the [for] loop of [calculatePrice]. *)
Definition sample_pool (tokenAddress : string) (acc : State * list PriceSample)
  (pool : Pool) : State * list PriceSample :=
  let '(st, prices) := acc in
  let v2 := String.eqb (pool_type pool) "V2"
            || String.eqb (pool_type pool) "AERODROME_V2" in
  let '(priceInPair, isToken0) :=
    if v2 then calculateV2Price tokenAddress pool
    else calculateV3Price tokenAddress pool in
  let '(st', price) := convertToUSD st priceInPair pool isToken0 in
  if Js.gt (priceUSD price) 0%float then
    (st', prices ++ [{| ps_priceUSD := priceUSD price;
                        ps_priceBNB := priceBNB price;
                        ps_priority := Js.or_default (pc_priority (pool_config pool)) 1%float;
                        ps_pool := pool_address pool;
                        ps_description := pc_description (pool_config pool);
                        ps_pair := pc_pair (pool_config pool) |}])
  else (st', prices).

Definition pool_samples (st : State) (tokenAddress : string) (pools : list Pool)
  : State * list PriceSample :=
  fold_left (sample_pool tokenAddress) pools (st, []).

Definition calculatePrice (st : State) (tokenAddress : string) (pools : list Pool)
  (providedConfig : option TokenConfig) : State * Js.completion PriceData :=
  let tokenConfig :=
    match providedConfig with
    | Some c => Some c
    | None =>
        match monitoredTokens st !! tokenAddress with
        | Some tokenData => Some (td_config tokenData)
        | None => option_map snd
                    (find (fun e => String.eqb (fst e) (Js.toLowerCase tokenAddress)) tokens)
        end
    end in
  let '(st', prices) := pool_samples st tokenAddress pools in
  if (List.length prices =? 0)%nat then (st', Js.Normal (bare_price 0%float 0%float)) else
  let usdPrices := map ps_priceUSD prices in
  let cleanUsdPrices := removeOutliers usdPrices in
  let cleanPrices :=
    List.filter (fun p => includes_number cleanUsdPrices (ps_priceUSD p)) prices in
  match tokenConfig with
  | None => (st', Js.Throw "TypeError: Cannot read properties of undefined")
  | Some c =>
      (st', Js.Normal (calculateWeightedAverage
                         (if (List.length cleanPrices =? 0)%nat then prices else cleanPrices)
                         c))
  end.

(** *** Broadcasting *)

Definition price_update (priceData : PriceData) : PriceUpdate :=
  let places := Config.decimalPlaces Config.settings in
  {| pu_price := priceData;
     pu_formatted :=
       {| f_priceUSD := "$" +:+ toFixed rt (priceUSD priceData) places;
          f_priceBNB := toFixed rt (priceBNB priceData) places +:+ " BNB" |} |}.

Definition room_of (tokenAddress : string) : string :=
  "token:" +:+ Js.toLowerCase tokenAddress.

Definition broadcastPrice (st : State) (tokenAddress : string) (priceData : PriceData)
  : State :=
  let update := price_update priceData in
  set_io (io st ++ [{| em_target := ToRoom (room_of tokenAddress);
                       em_event := "price-update"; em_payload := update |};
                    {| em_target := ToAll;
                       em_event := "global-price-update"; em_payload := update |}]) st.

(** *** Threshold-gated price updates *)

(** [tokenData.lastPrice?.priceUSD || 0] *)
Definition oldPrice_of (tokenData : TokenData) : Js.number :=
  match lastPrice tokenData with
  | Some p => Js.or_default (priceUSD p) 0%float
  | None => 0%float
  end.

(** [oldPrice > 0 ? ((newPrice.priceUSD - oldPrice) / oldPrice) : 0] *)
Definition priceChange_of (oldPrice newUSD : Js.number) : Js.number :=
  if Js.gt oldPrice 0%float then ((newUSD - oldPrice) / oldPrice)%float else 0%float.

(** The condition of the final [if] of [handlePriceUpdate]. *)
Definition significant (oldPrice newUSD : Js.number) : bool :=
  Js.ge (PrimFloat.abs (priceChange_of oldPrice newUSD))
        (Config.priceUpdateThreshold Config.settings)
  || Js.strict_eq oldPrice 0%float.

(** The 100 ms coalescing window. *)
Definition coalesced (tokenData : TokenData) : bool :=
  match lastUpdateCall tokenData with
  | Some t => negb (t =? 0) && (now chain - t <? 100)
  | None => false
  end.

Definition set_lastUpdateCall (t : Z) (d : TokenData) : TokenData :=
  {| td_config := td_config d; td_pools := td_pools d; lastPrice := lastPrice d;
     lastUpdate := lastUpdate d; lastUpdateCall := Some t; isDynamic := isDynamic d |}.

Definition set_lastPrice (p : PriceData) (t : Z) (d : TokenData) : TokenData :=
  {| td_config := td_config d; td_pools := td_pools d; lastPrice := Some p;
     lastUpdate := t; lastUpdateCall := lastUpdateCall d; isDynamic := isDynamic d |}.

(** The head of [handlePriceUpdate], up to the call of [calculatePrice]:
    the coalescing stamp, the metric, and the two refreshes.  [tokenData] is
    the object held by [monitoredTokens], so its field updates are updates
    of the map entry. *)
Definition refresh (st : State) (tokenAddress : string) (tokenData : TokenData) : State :=
  let tokenData1 := set_lastUpdateCall (now chain) tokenData in
  let st1 := set_monitoredTokens (<[tokenAddress := tokenData1]> (monitoredTokens st)) st in
  let st2 := set_metrics (increment "priceUpdates" (metrics st1)) st1 in
  let st3 := if bnb_price_stale st2 then updateBNBPrice st2 else st2 in
  let hasAgentPools := existsb pc_pairIsAgent (tc_pools (td_config tokenData1)) in
  if hasAgentPools then updateAllAgentPrices st3 else st3.

(** [handlePriceUpdate(tokenAddress, swapInfo)]; [swapInfo] only feeds the
    console output. *)
Definition handlePriceUpdate (st : State) (tokenAddress : string) : State :=
  match monitoredTokens st !! tokenAddress with
  | None => st
  | Some tokenData =>
      if coalesced tokenData then st else
      let tokenData1 := set_lastUpdateCall (now chain) tokenData in
      match calculatePrice (refresh st tokenAddress tokenData) tokenAddress
                           (td_pools tokenData1) None with
      | (st5, Js.Throw e) => set_metrics (addError e (metrics st5)) st5
      | (st5, Js.Normal newPrice) =>
          let st6 :=
            set_priceCache
              (LastPriceCache.set (priceCache st5) tokenAddress newPrice (now chain)) st5 in
          let oldPrice := oldPrice_of tokenData1 in
          if significant oldPrice (priceUSD newPrice) then
            let tokenData2 := set_lastPrice newPrice (now chain) tokenData1 in
            broadcastPrice
              (set_monitoredTokens (<[tokenAddress := tokenData2]> (monitoredTokens st6)) st6)
              tokenAddress newPrice
          else st6
      end
  end.

(** *** Queries *)

Inductive PriceAnswer :=
| FromCache (entry : CacheEntry)
| FromToken (stored : option PriceData)
| Null.

Definition getTokenPrice (st : State) (tokenAddress : string)
  : State * Js.completion PriceAnswer :=
  match LastPriceCache.get (priceCache st) tokenAddress with
  | Some cached =>
      (set_metrics (increment "cacheHits" (metrics st)) st, Js.Normal (FromCache cached))
  | None =>
      let st1 := set_metrics (increment "cacheMisses" (metrics st)) st in
      match Ethers.getAddress tokenAddress with
      | None => (st1, Js.Throw "invalid address")
      | Some checksummed =>
          match monitoredTokens st1 !! checksummed with
          | Some data => (st1, Js.Normal (FromToken (lastPrice data)))
          | None => (st1, Js.Normal Null)
          end
      end
  end.

(** *** Dynamic token configuration *)

(** One element of the request body of [addDynamicTokens]. *)
Record TokenInput := {
  ti_tokenAddress : string;
  ti_poolAddress : string;
  ti_pair : string;
  ti_pairAddress : option string;
  ti_dex : option string;
  ti_version : Z;
  ti_fee : option Z;
  ti_priority : option Js.number;
  ti_name : option string;
  ti_symbol : option string;
  ti_decimals : option Z
}.

Definition nonempty (o : option string) : option string :=
  match o with Some "" => None | _ => o end.

Definition buildTokenConfig (tokenInput : TokenInput) (tokenAddress poolAddress : string)
  : Js.completion TokenConfig :=
  let pair := ti_pair tokenInput in
  let isAgent := negb (Js.includes ["WBNB"; "USDC"; "USDT"; "BUSD"; "DAI"] pair) in
  let pairAddress : Js.completion string :=
    match nonempty (ti_pairAddress tokenInput) with
    | Some a =>
        match Ethers.getAddress a with
        | Some c => Js.Normal c
        | None => Js.Throw "invalid address"
        end
    | None =>
        match Config.address_of pair with
        | Some a => Js.Normal a
        | None => Js.Throw ("Unknown pair token: " +:+ pair)
        end
    end in
  match pairAddress with
  | Js.Throw e => Js.Throw e
  | Js.Normal pairAddress =>
      let dexName := Js.toLowerCase (default "uniswap" (nonempty (ti_dex tokenInput))) in
      let v := if ti_version tokenInput =? 2 then "V2" else "V3" in
      let aerodrome := String.eqb dexName "aerodrome" in
      let poolType := if aerodrome then "AERODROME_" +:+ v else v in
      let description :=
        if aerodrome then pair +:+ " Aerodrome " +:+ v else pair +:+ " " +:+ v in
      let poolConfig :=
        {| pc_address := poolAddress; pc_type := poolType;
           pc_version := ti_version tokenInput; pc_dex := dexName;
           pc_pair := pair; pc_pairAddress := Some pairAddress;
           pc_pairIsAgent := isAgent; pc_description := description;
           pc_priority :=
             match ti_priority tokenInput with
             | Some p => Js.or_default p 1%float
             | None => 1%float
             end;
           pc_fee := if (ti_version tokenInput =? 3) || String.eqb poolType "AERODROME_V3"
                     then ti_fee tokenInput else None;
           pc_userAddress := None |} in
      Js.Normal
        {| tc_name := default ("Token " +:+ Js.slice0 6 tokenAddress)
                              (nonempty (ti_name tokenInput));
           tc_symbol := default "TKN" (nonempty (ti_symbol tokenInput));
           tc_decimals := match ti_decimals tokenInput with
                          | Some d => if d =? 0 then 18 else d
                          | None => 18
                          end;
           tc_address := tokenAddress;
           tc_pools := [poolConfig] |}
  end.

(** *** The listener registry *)

(** [Map.prototype.set], [delete] and [get] on the insertion-ordered
    registry. *)
Fixpoint registry_set (key : string) (v : ListenerEntry)
  (l : list (string * ListenerEntry)) : list (string * ListenerEntry) :=
  match l with
  | [] => [(key, v)]
  | (k, w) :: r => if String.eqb k key then (key, v) :: r else (k, w) :: registry_set key v r
  end.

Definition registry_delete (key : string) (l : list (string * ListenerEntry))
  : list (string * ListenerEntry) :=
  List.filter (fun e => negb (String.eqb (fst e) key)) l.


(** [`${normalizedPoolAddr}-${normalizedTokenAddr}`] *)
Definition listenerKey (poolAddress tokenAddress : string) : string :=
  Js.toLowerCase poolAddress +:+ "-" +:+ Js.toLowerCase tokenAddress.

(** [contract.removeAllListeners()] and [contract.off('Swap', listener)]:
    the contract's handler leaves the provider. *)
Definition detach (c : Contract) (st : State) : State :=
  set_teardowns (teardowns st ++ [c])
    (set_subscriptions (List.filter (fun d => negb (Nat.eqb d c)) (subscriptions st)) st).

(** The two clean-up sweeps at the head of [setupPoolListener]. *)
Definition sweep_stale (key normalizedPoolAddr : string) (st : State) : State :=
  let stale := List.filter (fun e => String.eqb (Js.toLowerCase (fst e)) key)
                           (activeListeners st) in
  let st1 := fold_left (fun st e => detach (le_contract (snd e)) st) stale st in
  let st2 := fold_left (fun st e => set_activeListeners
                                      (registry_delete (fst e) (activeListeners st)) st)
                       stale st1 in
  let same_pool (e : string * Contract) :=
    String.eqb (Js.toLowerCase (fst e)) normalizedPoolAddr in
  let stale_contracts := List.filter same_pool (map_to_list (poolContracts st2)) in
  fold_left (fun st e => set_poolContracts (delete (fst e) (poolContracts st))
                           (detach (snd e) st))
            stale_contracts st2.

(** What [setupV2Listener], [setupV3Listener] and the two Aerodrome variants
    do to the registries: a fresh contract, the handle under the listener
    key, the contract under the pool address, and the [Swap] handler. *)
Definition attach (poolType : string) (pool : Pool) (tokenAddress : string)
  (st : State) : State :=
  let poolContract := nextContract st in
  let normalizedPoolAddr := Js.toLowerCase (pool_address pool) in
  let normalizedTokenAddr := Js.toLowerCase tokenAddress in
  let entry := {| le_contract := poolContract; le_tokenAddress := normalizedTokenAddr;
                  le_poolType := poolType; le_listener := None |} in
  let st1 := set_nextContract (S poolContract) st in
  let st2 := set_activeListeners
               (registry_set (listenerKey (pool_address pool) tokenAddress) entry
                             (activeListeners st1)) st1 in
  let st3 := set_poolContracts (<[normalizedPoolAddr := poolContract]> (poolContracts st2)) st2 in
  set_subscriptions (subscriptions st3 ++ [poolContract]) st3.

Definition setupV2Listener := attach "V2".
Definition setupV3Listener := attach "V3".
Definition setupAerodromeV2Listener := attach "AERODROME_V2".
Definition setupAerodromeV3Listener := attach "AERODROME_V3".

Definition setupPoolListener (st : State) (pool : Pool) (tokenAddress : string) : State :=
  let st1 := sweep_stale (listenerKey (pool_address pool) tokenAddress)
                         (Js.toLowerCase (pool_address pool)) st in
  if String.eqb (pool_type pool) "AERODROME_V2" then setupAerodromeV2Listener pool tokenAddress st1
  else if String.eqb (pool_type pool) "AERODROME_V3" then setupAerodromeV3Listener pool tokenAddress st1
  else if String.eqb (pool_type pool) "V2" then setupV2Listener pool tokenAddress st1
  else setupV3Listener pool tokenAddress st1.

(** *** Adding and removing a dynamic token *)

Definition with_config (c : PoolConfig) (p : Pool) : Pool :=
  {| pool_address := pool_address p; pool_type := pool_type p;
     pool_token0 := pool_token0 p; pool_token1 := pool_token1 p;
     pool_decimals0 := pool_decimals0 p; pool_decimals1 := pool_decimals1 p;
     pool_reserve0 := pool_reserve0 p; pool_reserve1 := pool_reserve1 p;
     pool_sqrtPriceX96 := pool_sqrtPriceX96 p;
     pool_hasLiquidity := pool_hasLiquidity p; pool_config := c |}.

Definition loadPools (st : State) (tokenAddress : string) (tokenConfig : TokenConfig)
  : State * list Pool :=
  fold_left
    (fun (acc : State * list Pool) poolConfig =>
       let '(st, activePools) := acc in
       match rpc_loadPool chain poolConfig tokenAddress with
       | Js.Throw _ => acc
       | Js.Normal poolInfo =>
           if pool_hasLiquidity poolInfo then
             let st' := if pc_pairIsAgent poolConfig
                        then fst (getAgentTokenPrice st (pc_pairAddress poolConfig) [])
                        else st in
             (st', activePools ++ [with_config poolConfig poolInfo])
           else acc
       end)
    (tc_pools tokenConfig) (st, []).

(** [addTokenWithConfig]; the result [None] is the returned [null]. *)
Definition addTokenWithConfig (st : State) (tokenAddress : string)
  (tokenConfig : TokenConfig) : State * option PriceData :=
  let tokenAddress := Js.toLowerCase tokenAddress in
  let st1 := if existsb pc_pairIsAgent (tc_pools tokenConfig)
             then updateAllAgentPrices st else st in
  let st2 := if bnb_price_stale st1 then updateBNBPrice st1 else st1 in
  let '(st3, activePools) := loadPools st2 tokenAddress tokenConfig in
  if (List.length activePools =? 0)%nat then (st3, None) else
  match calculatePrice st3 tokenAddress activePools (Some tokenConfig) with
  | (st4, Js.Throw e) => (set_metrics (addError e (metrics st4)) st4, None)
  | (st4, Js.Normal initialPrice) =>
      let tokenData :=
        {| td_config := tokenConfig; td_pools := activePools;
           lastPrice := Some initialPrice; lastUpdate := now chain;
           lastUpdateCall := None; isDynamic := true |} in
      let st5 := set_monitoredTokens (<[tokenAddress := tokenData]> (monitoredTokens st4)) st4 in
      let st6 := fold_left (fun st pool => setupPoolListener st pool tokenAddress)
                           activePools st5 in
      let st7 :=
        if Js.gt (priceUSD initialPrice) 0%float then
          broadcastPrice
            (set_priceCache
               (LastPriceCache.set (priceCache st6) tokenAddress initialPrice (now chain)) st6)
            tokenAddress initialPrice
        else st6 in
      (st7, Some initialPrice)
  end.

(** The loop of [removeDynamicToken] over the listener registry. *)
Definition drop_listeners (key : string) (st : State) : State :=
  fold_left
    (fun st e =>
       let '(listenerKey, listenerData) := e in
       if Js.startsWith listenerKey (key +:+ ":") then
         let st1 := match le_listener listenerData with
                    | Some _ => detach (le_contract listenerData) st
                    | None => st
                    end in
         set_activeListeners (registry_delete listenerKey (activeListeners st1)) st1
       else st)
    (activeListeners st) st.

(** [removeDynamicToken]: the statements up to and including
    [this.priceCache.delete(key)].  [LastPriceCache] declares no [delete],
    so that call is a call of [undefined]. *)
Definition removeDynamicToken (st : State) (tokenAddress : string)
  : State * Js.completion bool :=
  let key := Js.toLowerCase tokenAddress in
  match monitoredTokens st !! key with
  | None => (st, Js.Normal false)
  | Some tokenData =>
      let st1 := drop_listeners key st in
      let st2 :=
        match mempoolMonitor st1 with
        | Some mm =>
            set_mempoolMonitor
              (Some (fold_left (fun mm pool =>
                                  if String.eqb (pool_address pool) "" then mm
                                  else MempoolMonitor.removeMonitoredPool mm (pool_address pool))
                               (td_pools tokenData) mm)) st1
        | None => st1
        end in
      let st3 :=
        fold_left (fun st pool =>
                     if String.eqb (pool_address pool) "" then st
                     else set_poolContracts (delete (pool_address pool) (poolContracts st)) st)
                  (td_pools tokenData) st2 in
      let st4 := set_monitoredTokens (delete key (monitoredTokens st3)) st3 in
      if LastPriceCache.has_method "delete" then
        let st5 := set_priceCache (delete key (priceCache st4)) st4 in
        (set_swapListeners (delete key (swapListeners st5)) st5, Js.Normal true)
      else (st4, Js.Throw "TypeError: this.priceCache.delete is not a function")
  end.

(** *** Swap classification *)

Record SwapInfo := {
  isBuy : bool;
  tokenAmount : string;
  pairAmount : string;
  eventType : string
}.

Definition formatAmount (amount decimals : Z) : string :=
  let formatted := Number_formatUnits rt amount decimals in
  if Js.lt formatted 0.01%float then toExponential rt formatted 4
  else if Js.lt formatted 1000%float then toFixed rt formatted 4
  else toLocaleString rt formatted.

Definition parseV2SwapInfo (amount0In amount1In amount0Out amount1Out : Z)
  (isToken0 : bool) (decimals0 decimals1 : Z) (poolConfig : PoolConfig) : SwapInfo :=
  let '(tokenAmountRaw, pairAmountRaw, buy) :=
    if isToken0 then
      if 0 <? amount0Out then (amount0Out, amount1In, true)
      else (amount0In, amount1Out, false)
    else
      if 0 <? amount1Out then (amount1Out, amount0In, true)
      else (amount1In, amount0Out, false) in
  let tokenAmount := formatAmount tokenAmountRaw (if isToken0 then decimals0 else decimals1) in
  let pairAmount := formatAmount pairAmountRaw (if isToken0 then decimals1 else decimals0) in
  {| isBuy := buy;
     tokenAmount := tokenAmount +:+ " "
                    +:+ (if String.eqb (pc_pair poolConfig) "WBNB" then "tokens"
                         else pc_pair poolConfig);
     pairAmount := pairAmount +:+ " " +:+ pc_pair poolConfig;
     eventType := "Swap (V2)" |}.

Definition parseV3SwapInfo (amount0 amount1 : Z) (isToken0 : bool)
  (decimals0 decimals1 : Z) (poolConfig : PoolConfig) : SwapInfo :=
  let '(tokenAmountRaw, pairAmountRaw, buy) :=
    if isToken0 then
      (if amount0 <? 0 then - amount0 else amount0,
       if amount1 <? 0 then - amount1 else amount1,
       amount0 <? 0)
    else
      (if amount1 <? 0 then - amount1 else amount1,
       if amount0 <? 0 then - amount0 else amount0,
       amount1 <? 0) in
  let tokenAmount := formatAmount tokenAmountRaw (if isToken0 then decimals0 else decimals1) in
  let pairAmount := formatAmount pairAmountRaw (if isToken0 then decimals1 else decimals0) in
  {| isBuy := buy;
     tokenAmount := tokenAmount +:+ " tokens";
     pairAmount := pairAmount +:+ " " +:+ pc_pair poolConfig;
     eventType := "Swap (V3)" |}.

End Service.

(** The state of a freshly constructed monitor. *)
Definition initial : State :=
  {| monitoredTokens := ∅; poolContracts := ∅; activeListeners := [];
     bnbPrice := Config.defaultBnbPrice Config.settings;
     lastEthPriceUpdate := None; agentTokenPrices := ∅; priceCache := ∅;
     metrics := {| m_priceUpdates := 0; m_cacheHits := 0; m_cacheMisses := 0;
                   m_eventsReceived := 0; m_errors := [] |};
     swapListeners := ∅; mempoolMonitor := None; io := []; warnings := [];
     subscriptions := []; teardowns := []; nextContract := 0%nat |}.

End PriceMonitor.

(** ** A concrete runtime

    The number conversions and formatters of the JavaScript runtime, computed
    exactly on the rational value of a float: conversions round to the
    nearest binary64 (ties to even), the formatters round half away from
    zero as [toFixed], [toExponential] and [Intl.NumberFormat] do.  The
    theorems below hold for every runtime; this one evaluates the
    scenarios. *)

Module Runtime64.

(** The binary64 nearest to [m * 2^e]. *)
Definition nearest (m e : Z) : Js.number :=
  SF2Prim (binary_normalize prec emax m e false).

Definition Number_of_BigInt (z : Z) : Js.number := nearest z 0.

(** The binary64 nearest to [value / 10^decimals]: a quotient with enough
    extra bits, the remainder kept as a sticky bit. *)
Definition Number_formatUnits (value decimals : Z) : Js.number :=
  let k := 60 + 4 * Z.max decimals 0 in
  let scaled := Z.abs value * 2 ^ k in
  let d := 10 ^ Z.max decimals 0 in
  let m := 2 * (scaled / d) + (if scaled mod d =? 0 then 0 else 1) in
  nearest (if value <? 0 then - m else m) (- (k + 1)).

Definition Math_pow10 (k : Z) : Js.number :=
  if k <? 0 then Number_formatUnits 1 (- k) else Number_of_BigInt (10 ^ k).

Definition digits_of (n : Z) : string := NilZero.string_of_uint (N.to_uint (Z.to_N n)).

Definition zeros (n : nat) : string := string_of_list_ascii (repeat "0"%char n).

Definition pad_left (width : nat) (s : string) : string :=
  zeros (width - String.length s) +:+ s.

(** [round(num / den)], ties upward, for [0 <= num] and [0 < den]. *)
Definition round_half_up (num den : Z) : Z := (2 * num + den) / (2 * den).

(** The magnitude of a finite float as a fraction. *)
Definition fraction_of (m : positive) (e : Z) : Z * Z :=
  if e <? 0 then (Z.pos m, 2 ^ (- e)) else (Z.pos m * 2 ^ e, 1).

Definition fixed_digits (n : Z) (digits : nat) : string :=
  let s := pad_left (S digits) (digits_of n) in
  let int_len := (String.length s - digits)%nat in
  if (digits =? 0)%nat then s
  else String.substring 0 int_len s +:+ "." +:+ String.substring int_len digits s.

Definition toFixed (x : Js.number) (digits : nat) : string :=
  match Prim2SF x with
  | S754_nan => "NaN"
  | S754_infinity s => if s then "-Infinity" else "Infinity"
  | S754_zero _ => fixed_digits 0 digits
  | S754_finite s m e =>
      let '(num, den) := fraction_of m e in
      let n := round_half_up (num * 10 ^ Z.of_nat digits) den in
      (if s then "-" else "") +:+ fixed_digits n digits
  end.

(** The decimal exponent [e] with [10^e <= num/den < 10^(e+1)]. *)
Definition decimal_exponent (num den : Z) : Z :=
  let guess := Z.of_nat (String.length (digits_of num))
               - Z.of_nat (String.length (digits_of den)) in
  let below e := if e <? 0 then num * 10 ^ (- e) <? den else num <? den * 10 ^ e in
  if below guess then guess - 1
  else if below (guess + 1) then guess else guess + 1.

Definition toExponential (x : Js.number) (digits : nat) : string :=
  let f := Z.of_nat digits in
  let show (n e : Z) :=
    let s := if n =? 0 then zeros (S digits) else digits_of n in
    String.substring 0 1 s
    +:+ (if (digits =? 0)%nat then "" else "." +:+ String.substring 1 digits s)
    +:+ "e" +:+ (if e <? 0 then "-" else "+") +:+ digits_of (Z.abs e) in
  match Prim2SF x with
  | S754_nan => "NaN"
  | S754_infinity s => if s then "-Infinity" else "Infinity"
  | S754_zero _ => show 0 0
  | S754_finite s m e2 =>
      let '(num, den) := fraction_of m e2 in
      let e := decimal_exponent num den in
      let scale := f - e in
      let n := if scale <? 0 then round_half_up num (den * 10 ^ (- scale))
               else round_half_up (num * 10 ^ scale) den in
      let '(n, e) := if 10 ^ (f + 1) <=? n then (n / 10, e + 1) else (n, e) in
      (if s then "-" else "") +:+ show n e
  end.

Fixpoint group_thousands (fuel : nat) (s : string) : string :=
  match fuel with
  | O => s
  | S fuel' =>
      let len := String.length s in
      if (len <=? 3)%nat then s
      else group_thousands fuel' (String.substring 0 (len - 3) s)
           +:+ "," +:+ String.substring (len - 3) 3 s
  end.

(** [en-US] grouping with at most two fraction digits. *)
Definition toLocaleString (x : Js.number) : string :=
  match Prim2SF x with
  | S754_nan => "NaN"
  | S754_infinity s => if s then "-∞" else "∞"
  | S754_zero s => if s then "-0" else "0"
  | S754_finite s m e =>
      let '(num, den) := fraction_of m e in
      let n := round_half_up (num * 100) den in
      let int_part := digits_of (n / 100) in
      let cents := n mod 100 in
      let frac :=
        if cents =? 0 then ""
        else if cents mod 10 =? 0 then "." +:+ digits_of (cents / 10)
        else "." +:+ pad_left 2 (digits_of cents) in
      (if s then "-" else "")
      +:+ group_thousands (String.length int_part) int_part +:+ frac
  end.

Definition runtime : PriceMonitor.Runtime :=
  {| PriceMonitor.Number_formatUnits := Number_formatUnits;
     PriceMonitor.Number_of_BigInt := Number_of_BigInt;
     PriceMonitor.Math_pow10 := Math_pow10;
     PriceMonitor.toFixed := toFixed;
     PriceMonitor.toExponential := toExponential;
     PriceMonitor.toLocaleString := toLocaleString |}.

End Runtime64.

(** ** Scenarios

    Concrete states and chains on which the services are run. *)

Module Scenario.

Import PriceMonitor.

(** A node that answers nothing: every call is rejected. *)
Definition silent_chain (t : Z) : Chain :=
  {| rpc_getReserves := fun _ => Js.Throw "no answer";
     rpc_slot0 := fun _ => Js.Throw "no answer";
     rpc_token0 := fun _ => Js.Throw "no answer";
     rpc_token1 := fun _ => Js.Throw "no answer";
     rpc_loadPool := fun _ _ => Js.Throw "no answer";
     now := t |}.

(** The monitored token (its checksum form has capitals) and its pool. *)
Definition MON : string := "0x0e09fabb73bd3ade0a17ecc321fd13a19e81ce82".
Definition MON_checksum : string := "0x0E09FaBB73Bd3Ade0a17ECC321fD13a19e81cE82".
Definition POOL : string := "0x0ed7e52944161450477ee417de9cd3a859b14fd0".
Definition WBNB : string := "0xbb4cdb9cbd36b01bd1cbaebf2de08d9173bc095c".

Definition pool_entry (pair : string) (pairAddress : option string) (agent : bool)
  : PoolConfig :=
  {| pc_address := POOL; pc_type := "V2"; pc_version := 2; pc_dex := "uniswap";
     pc_pair := pair; pc_pairAddress := pairAddress; pc_pairIsAgent := agent;
     pc_description := pair +:+ " V2"; pc_priority := 1%float; pc_fee := None;
     pc_userAddress := None |}.

Definition token_config (entry : PoolConfig) : TokenConfig :=
  {| tc_name := "Token 0x0e09"; tc_symbol := "MON"; tc_decimals := 18;
     tc_address := MON; tc_pools := [entry] |}.

(** A V2 pool with the monitored token as token0. *)
Definition v2_pool (reserve0 reserve1 : Z) (entry : PoolConfig) : Pool :=
  {| pool_address := POOL; pool_type := "V2";
     pool_token0 := MON; pool_token1 := WBNB;
     pool_decimals0 := 18; pool_decimals1 := 18;
     pool_reserve0 := reserve0; pool_reserve1 := reserve1;
     pool_sqrtPriceX96 := None; pool_hasLiquidity := true; pool_config := entry |}.

(** The first scenario of the specification after its swap: reserves
    [(990e18, 10.1e18)], BNB at $600, last published price $6.00. *)
Definition wbnb_entry : PoolConfig := pool_entry "WBNB" (Some WBNB) false.

Definition after_swap : State :=
  set_monitoredTokens
    {[ MON := {| td_config := token_config wbnb_entry;
                 td_pools := [v2_pool (990 * 10 ^ 18) (101 * 10 ^ 17) wbnb_entry];
                 lastPrice := Some {| priceUSD := 6%float; priceBNB := 0.01%float;
                                      details := None |};
                 lastUpdate := 0; lastUpdateCall := None; isDynamic := true |} ]}
    initial.

(** The swap listener's background refresh of the reserves of the token's
    pool ([pool.reserve0 = reserves[0]; pool.reserve1 = reserves[1]]). *)
Definition quoted (reserve0 reserve1 : Z) (st : State) : State :=
  set_monitoredTokens
    (alter (fun d => {| td_config := td_config d;
                        td_pools := [v2_pool reserve0 reserve1 wbnb_entry];
                        lastPrice := lastPrice d; lastUpdate := lastUpdate d;
                        lastUpdateCall := lastUpdateCall d; isDynamic := isDynamic d |})
           MON (monitoredTokens st))
    st.

(** The token was last published at $6.00.  A swap moves the pool to $6.005
    (0.083%, below the threshold): the update at time 1000 caches $6.005 and
    publishes nothing.  The next swap moves the pool to $6.0075. *)
Definition moved_up : State :=
  quoted (6000 * 10 ^ 18) (60075 * 10 ^ 15)
    (handlePriceUpdate Runtime64.runtime (silent_chain 1000) [] []
       (quoted (6000 * 10 ^ 18) (6005 * 10 ^ 16) after_swap) MON).

(** As before, with the unpublished move to $6.0059 (0.098%) and the next
    swap bringing the pool back to $5.9995. *)
Definition moved_back : State :=
  quoted (6000 * 10 ^ 18) (59995 * 10 ^ 15)
    (handlePriceUpdate Runtime64.runtime (silent_chain 1000) [] []
       (quoted (6000 * 10 ^ 18) (60059 * 10 ^ 15) after_swap) MON).

(** A node on which the pool at [POOL] loads with the given reserves. *)
Definition loading_chain (t reserve0 reserve1 : Z) : Chain :=
  {| rpc_getReserves := fun _ => Js.Throw "no answer";
     rpc_slot0 := fun _ => Js.Throw "no answer";
     rpc_token0 := fun _ => Js.Throw "no answer";
     rpc_token1 := fun _ => Js.Throw "no answer";
     rpc_loadPool := fun entry _ => Js.Normal (v2_pool reserve0 reserve1 entry);
     now := t |}.

(** The request that adds the token with a BUSD pool. *)
Definition busd_input : TokenInput :=
  {| ti_tokenAddress := MON; ti_poolAddress := POOL; ti_pair := "BUSD";
     ti_pairAddress := None; ti_dex := None; ti_version := 2; ti_fee := None;
     ti_priority := None; ti_name := None; ti_symbol := Some "MON";
     ti_decimals := None |}.

Definition busd_entry : PoolConfig :=
  {| pc_address := POOL; pc_type := "V2"; pc_version := 2; pc_dex := "uniswap";
     pc_pair := "BUSD";
     pc_pairAddress := Some "0xe9e7CEA3DedcA5984780Bafc599bD69ADd087D56";
     pc_pairIsAgent := false; pc_description := "BUSD V2"; pc_priority := 1%float;
     pc_fee := None; pc_userAddress := None |}.

(** The token as [addTokenWithConfig] leaves it after loading a WBNB pool
    with reserves [(1000e18, 10e18)]: monitored, cached at $6, one listener. *)
Definition added : State :=
  fst (addTokenWithConfig Runtime64.runtime (loading_chain 1000 (10 ^ 21) (10 ^ 19))
         [] [] initial MON (token_config wbnb_entry)).

(** The same token added with a pool paired with an agent token for which
    the (empty) registry has no price: monitored, with a zero price that is
    not cached. *)
Definition CAKE : string := "0x0E09FaBB73Bd3Ade0a17ECC321fD13a19e81cE82".
Definition TOKEN : string := "0x55d398326f99059ff775485246999027b3197955".

Definition agent_entry : PoolConfig := pool_entry "CAKE" (Some CAKE) true.

Definition unpriced_config : TokenConfig :=
  {| tc_name := "Token 0x55d3"; tc_symbol := "TKN"; tc_decimals := 18;
     tc_address := TOKEN; tc_pools := [agent_entry] |}.

Definition unpriced : State :=
  fst (addTokenWithConfig Runtime64.runtime (loading_chain 1000 (10 ^ 21) (10 ^ 19))
         [] [] initial TOKEN unpriced_config).

(** Two agent tokens priced through each other: A's only source is a pool
    against B, B's only source a pool against A. *)
Definition A : string := "0xaaaaaaaaaaaaaaaaaaaaaaaaaaaaaaaaaaaaaaaa".
Definition B : string := "0xbbbbbbbbbbbbbbbbbbbbbbbbbbbbbbbbbbbbbbbb".
Definition POOL_A : string := "0x1111111111111111111111111111111111111111".
Definition POOL_B : string := "0x2222222222222222222222222222222222222222".

Definition source (pool pair pairAddress : string) : Config.PriceSource :=
  {| Config.src_address := pool; Config.src_type := "V2"; Config.src_pair := pair;
     Config.src_pairAddress := Some pairAddress;
     Config.src_token0 := ""; Config.src_token1 := "";
     Config.src_decimals0 := 18; Config.src_decimals1 := 18 |}.

Definition config_A : Config.AgentConfig :=
  {| Config.agent_symbol := "A"; Config.priceSources := [source POOL_A "B" B] |}.
Definition config_B : Config.AgentConfig :=
  {| Config.agent_symbol := "B"; Config.priceSources := [source POOL_B "A" A] |}.

Definition cyclic_registry : Config.AgentTokens := [(A, config_A); (B, config_B)].

(** In the pool of A one A costs two B; in the pool of B one B costs three A. *)
Definition cyclic_chain : Chain :=
  {| rpc_getReserves := fun pool =>
       if String.eqb pool POOL_A then Js.Normal (10 ^ 18, 2 * 10 ^ 18)
       else if String.eqb pool POOL_B then Js.Normal (10 ^ 18, 3 * 10 ^ 18)
       else Js.Throw "no answer";
     rpc_slot0 := fun _ => Js.Throw "no answer";
     rpc_token0 := fun pool =>
       if String.eqb pool POOL_A then Js.Normal A
       else if String.eqb pool POOL_B then Js.Normal B
       else Js.Throw "no answer";
     rpc_token1 := fun pool =>
       if String.eqb pool POOL_A then Js.Normal B
       else if String.eqb pool POOL_B then Js.Normal A
       else Js.Throw "no answer";
     rpc_loadPool := fun _ _ => Js.Throw "no answer";
     now := 1000 |}.

(** A block header, as some providers deliver on the pending channel. *)
Definition block_header : MempoolMonitor.JsValue :=
  MempoolMonitor.JObject
    [("number", MempoolMonitor.JString "0x2a5f3c1");
     ("hash", MempoolMonitor.JString
        "0x7d5a4369273c723454ac137f48a4f142b097aa2779464e6505f1b1c5e37b5382")].

Definition watching : MempoolMonitor.State :=
  {| MempoolMonitor.pendingSwaps := ∅;
     MempoolMonitor.monitoredPools :=
       {[ POOL := {| MempoolMonitor.pw_tokenAddress := MON;
                     MempoolMonitor.pw_poolAddress := POOL;
                     MempoolMonitor.pw_protocol := "uniswapv2";
                     MempoolMonitor.pw_userAddress := None;
                     MempoolMonitor.pw_isToken0 := None;
                     MempoolMonitor.pw_addedAt := 0 |} ]};
     MempoolMonitor.metrics :=
       {| MempoolMonitor.pendingDetected := 0; MempoolMonitor.confirmed := 0;
          MempoolMonitor.failed := 0; MempoolMonitor.replaced := 0;
          MempoolMonitor.timedOut := 0 |};
     MempoolMonitor.isMonitoring := true;
     MempoolMonitor.emitted := [];
     MempoolMonitor.awaiting := [] |}.

End Scenario.

(** * Properties *)

(** ** Outlier rejection *)

Section OutlierRejection.

Import PriceMonitor.

Lemma removeOutliers_unfold (P : list Js.number) :
  removeOutliers P =
  if (List.length P <=? 2)%nat then P
  else if (List.length (List.filter (within_two_sigma P) P) =? 0)%nat then P
       else List.filter (within_two_sigma P) P.
Proof. reflexivity. Qed.

Lemma filter_sublist {A} (f : A -> bool) (l : list A) : sublist (List.filter f l) l.
Proof.
  induction l as [|a l IH]; simpl.
  - constructor.
  - destruct (f a); [apply sublist_skip | apply sublist_cons]; exact IH.
Qed.

(** C5. On a non-empty sequence [P], [removeOutliers] returns [P] itself when
    [P] has at most two samples; on a longer [P] it returns the samples within
    two standard deviations of the mean, in their order (a subsequence of
    [P], each retained sample [p] with [|p - mean P| <= 2 * stdDev P]), unless
    that filter retains nothing, in which case it returns [P]; the output is
    never empty. *)
Theorem removeOutliers_spec (P : list Js.number) (Hne : P <> []) :
  let out := removeOutliers P in
  let kept := List.filter (within_two_sigma P) P in
  ((List.length P <= 2)%nat -> out = P)
  /\ ((2 < List.length P)%nat -> kept <> [] ->
      out = kept /\ sublist out P
      /\ Forall (fun p => Js.le (PrimFloat.abs (p - mean_of P)%float)
                                (2 * stdDev_of P)%float = true) out)
  /\ ((2 < List.length P)%nat -> kept = [] -> out = P)
  /\ sublist out P
  /\ out <> [].
Proof.
  cbv zeta. rewrite removeOutliers_unfold.
  destruct (Nat.leb_spec (List.length P) 2) as [Hle | Hgt].
  - split; [reflexivity|]. split; [intros; lia|]. split; [intros; lia|].
    split; [reflexivity | exact Hne].
  - destruct (List.filter (within_two_sigma P) P) as [|k kept] eqn:Hkept; simpl.
    + split; [intros; lia|]. split; [congruence|]. split; [reflexivity|].
      split; [reflexivity | exact Hne].
    + assert (Hsub : sublist (k :: kept) P)
        by (rewrite <- Hkept; apply filter_sublist).
      split; [intros; lia|]. split; [|split; [congruence | split; [exact Hsub | discriminate]]].
      intros _ _. split; [reflexivity|]. split; [exact Hsub|].
      rewrite <- Hkept. apply List.Forall_forall. intros p Hp.
      apply List.filter_In in Hp. exact (proj2 Hp).
Qed.

(** The five samples of the specification's outlier scenario: all retained. *)
Definition scenario_prices : list Js.number := [100; 101; 99; 100; 5000]%float.

Lemma removeOutliers_spec_witness :
  scenario_prices <> []
  /\ removeOutliers scenario_prices = scenario_prices
  /\ removeOutliers scenario_prices <> [].
Proof.
  assert (Hne : scenario_prices <> []) by discriminate.
  pose proof (removeOutliers_spec scenario_prices Hne) as H. cbv zeta in H.
  destruct H as (_ & Hkept & _ & _ & Hout).
  split; [exact Hne|]. split; [|exact Hout].
  destruct Hkept as (-> & _); [vm_compute; lia | vm_compute; discriminate | vm_compute; reflexivity].
Defined.

(** An infinite sample makes the mean infinite and every comparison false:
    the filter retains nothing and the input comes back. *)
Example removeOutliers_fallback :
  List.filter (within_two_sigma [infinity; 1; 2]%float) [infinity; 1; 2]%float = []
  /\ removeOutliers [infinity; 1; 2]%float = [infinity; 1; 2]%float.
Proof. split; vm_compute; reflexivity. Qed.

End OutlierRejection.

(** ** Swap classification *)

Section SwapClassifier.

Import PriceMonitor.

Variable rt : Runtime.

(** C8. For a V3 swap log with signed amounts [amount0], [amount1] and either
    monitored side, [parseV3SwapInfo] reports a buy exactly when the
    monitored-side amount is strictly negative, and the token and pair amounts
    it reports are the formatted absolute values of the monitored-side and
    pair-side amounts. *)
Theorem parseV3SwapInfo_sign (amount0 amount1 : Z) (isToken0 : bool)
  (decimals0 decimals1 : Z) (poolConfig : PoolConfig) :
  let monitored := if isToken0 then amount0 else amount1 in
  let paired := if isToken0 then amount1 else amount0 in
  let info := parseV3SwapInfo rt amount0 amount1 isToken0 decimals0 decimals1 poolConfig in
  (isBuy info = true <-> monitored < 0)
  /\ tokenAmount info =
       formatAmount rt (Z.abs monitored) (if isToken0 then decimals0 else decimals1)
       +:+ " tokens"
  /\ pairAmount info =
       formatAmount rt (Z.abs paired) (if isToken0 then decimals1 else decimals0)
       +:+ " " +:+ pc_pair poolConfig.
Proof.
  assert (Habs : forall z, (if z <? 0 then - z else z) = Z.abs z).
  { intros z. destruct (Z.ltb_spec z 0); lia. }
  destruct isToken0; unfold parseV3SwapInfo; cbn -[Z.ltb formatAmount];
    rewrite !Habs; (split; [apply Z.ltb_lt | split; reflexivity]).
Qed.

(** The second scenario of the specification: the monitored token is token1,
    [amount0 = +1_000_000], [amount1 = -1e18]. *)
Example v3_token1_out_is_buy (poolConfig : PoolConfig) :
  isBuy (parseV3SwapInfo rt 1000000 (- 10 ^ 18) false 6 18 poolConfig) = true.
Proof. reflexivity. Qed.

End SwapClassifier.

(** ** Fan-out of a price *)

Section Broadcast.

Import PriceMonitor.

Variable rt : Runtime.

(** C10. Every call of [broadcastPrice] appends exactly two emissions carrying
    one and the same payload: ['price-update'] to the room of the token, and
    ['global-price-update'] to every connected socket, whatever its
    subscriptions. *)
Theorem broadcastPrice_emits_globally (st : State) (tokenAddress : string)
  (priceData : PriceData) :
  exists update,
    update = price_update rt priceData
    /\ pu_price update = priceData
    /\ io (broadcastPrice rt st tokenAddress priceData) =
         io st ++ [ {| em_target := ToRoom ("token:" +:+ Js.toLowerCase tokenAddress);
                       em_event := "price-update"; em_payload := update |};
                    {| em_target := ToAll;
                       em_event := "global-price-update"; em_payload := update |} ].
Proof. exists (price_update rt priceData). repeat split. Qed.

Lemma broadcastPrice_frame (st : State) (tokenAddress : string) (priceData : PriceData) :
  let st' := broadcastPrice rt st tokenAddress priceData in
  monitoredTokens st' = monitoredTokens st /\ priceCache st' = priceCache st.
Proof. split; reflexivity. Qed.

End Broadcast.

(** ** The pending-transaction handler *)

Section PendingChannel.

Import MempoolMonitor.

Variable Number_toString : Js.number -> string.
Variable getTransaction : string -> Js.completion (option Tx).
Variable swapClientConnected : bool.
Variable parseSwap : string -> Js.completion (option (Z * Z)).
Variable now : Z.

Lemma non_string_is_dropped (st : State) (v : JsValue) :
  typeof v <> "string" ->
  handlePendingTransaction getTransaction swapClientConnected parseSwap now st v
  = (st, Js.Normal tt).
Proof. destruct v; intros H; try reflexivity. now contradiction H. Qed.

(** C9. A value on the pending-transaction channel whose string form is not
    ['0x'] followed by 64 more characters -- a malformed string, a block
    header object, or any other non-string value -- leaves the tracker as it
    was: nothing is tracked, nothing is emitted, monitoring stays on, and the
    handler completes normally. *)
Theorem garbage_is_dropped (st : State) (v : JsValue) :
  is_tx_hash (string_form Number_toString v) = false ->
  handlePendingTransaction getTransaction swapClientConnected parseSwap now st v
  = (st, Js.Normal tt).
Proof.
  intros Hbad. destruct v as [h| | | | |]; try reflexivity.
  simpl in Hbad. unfold is_tx_hash in Hbad.
  unfold handlePendingTransaction, handlePendingTransaction_try.
  destruct (Js.startsWith h "0x"), (String.length h =? 66)%nat;
    simpl in *; try discriminate; reflexivity.
Qed.

(** X3. Whatever arrives, and whatever the node answers (a rejected
    [getTransaction] included), the handler completes normally. *)
Lemma handlePendingTransaction_never_throws (st : State) (v : JsValue) :
  snd (handlePendingTransaction getTransaction swapClientConnected parseSwap now st v)
  = Js.Normal tt.
Proof.
  unfold handlePendingTransaction.
  destruct (handlePendingTransaction_try _ _ _ _ st v) as [st' [[]|e]] eqn:Htry;
    try reflexivity.
Qed.

End PendingChannel.

(** ** Price refreshes leave the public state alone

    Refreshing the BNB reference or the agent prices, and computing a price,
    change only the reference price, the agent price cache and the console:
    never the token table, the price cache, the metrics or the sockets. *)

Section Quiet.

Import PriceMonitor.

Variable rt : Runtime.
Variable chain : Chain.
Variable agentTokens : Config.AgentTokens.
Variable tokens : list (string * TokenConfig).

Definition quiet (st st' : State) : Prop :=
  monitoredTokens st' = monitoredTokens st
  /\ priceCache st' = priceCache st
  /\ io st' = io st
  /\ metrics st' = metrics st.

Lemma quiet_refl st : quiet st st.
Proof. repeat split. Qed.

Lemma quiet_trans st1 st2 st3 : quiet st1 st2 -> quiet st2 st3 -> quiet st1 st3.
Proof. unfold quiet. intuition congruence. Qed.

Lemma quiet_warn line st : quiet st (warn line st).
Proof. repeat split. Qed.

Lemma quiet_cache_agent a p s st : quiet st (cache_agent chain a p s st).
Proof. repeat split. Qed.

Definition quiet_getter (get : Getter) : Prop :=
  forall st a stack st' p, get st a stack = Some (st', p) -> quiet st st'.

Lemma collect_prices_quiet (get : Getter) (Hget : quiet_getter get)
  agentAddress newCallStack sources :
  forall st prices st' prices',
    collect_prices rt chain get st agentAddress newCallStack sources prices
    = Some (st', prices') ->
    quiet st st'.
Proof.
  induction sources as [|source rest IH]; intros st prices st' prices' H; simpl in H.
  - injection H as <- _. apply quiet_refl.
  - destruct (if String.eqb (Config.src_type source) "V2"
              then getV2PoolPrice rt chain source agentAddress
              else getV3PoolPrice rt chain source agentAddress) as [price|e].
    2: { eapply IH; eassumption. }
    destruct (String.eqb (Config.src_pair source) "WBNB").
    { eapply IH; eassumption. }
    destruct (is_stable (Config.src_pair source)).
    { eapply IH; eassumption. }
    destruct (get st (Config.src_pairAddress source) newCallStack)
      as [[st1 nested]|] eqn:Hnested; [|discriminate].
    eapply quiet_trans; [eapply Hget; eassumption | eapply IH; eassumption].
Qed.

Lemma calculateAgentTokenPrice_with_quiet (get : Getter) (Hget : quiet_getter get)
  st agentAddress agentConfig callStack st' p :
  calculateAgentTokenPrice_with rt chain get st agentAddress agentConfig callStack
  = Some (st', p) ->
  quiet st st'.
Proof.
  unfold calculateAgentTokenPrice_with.
  destruct (Js.includes callStack agentAddress).
  { intros H. injection H as <- _. apply quiet_warn. }
  destruct (collect_prices _ _ _ _ _ _ _ _) as [[st1 prices]|] eqn:Hc; [|discriminate].
  apply collect_prices_quiet in Hc; [|exact Hget].
  destruct (List.length prices =? 0)%nat; intros H; injection H as <- _; exact Hc.
Qed.

Lemma getAgentTokenPrice_fuel_quiet fuel :
  quiet_getter (getAgentTokenPrice_fuel rt chain agentTokens fuel).
Proof.
  induction fuel as [|fuel IH]; intros st a stack st' p H; simpl in H; [discriminate|].
  destruct a as [a|]; [|injection H as <- _; apply quiet_refl].
  destruct a as [|c a]; [injection H as <- _; apply quiet_refl|].
  destruct (Js.includes stack (String c a)).
  { injection H as <- _. apply quiet_warn. }
  destruct (match agentTokenPrices st !! _ with Some _ => _ | None => _ end).
  { injection H as <- _. apply quiet_refl. }
  destruct (Config.agent_lookup agentTokens _) as [agentConfig|].
  2: { injection H as <- _. apply quiet_warn. }
  destruct (calculateAgentTokenPrice_with _ _ _ _ _ _ _) as [[st1 price]|] eqn:Hc;
    [|discriminate].
  apply calculateAgentTokenPrice_with_quiet in Hc; [|exact IH].
  injection H as <- _.
  destruct (Js.gt price 0%float); [|exact Hc].
  eapply quiet_trans; [exact Hc | apply quiet_cache_agent].
Qed.

Lemma getAgentTokenPrice_quiet st a stack :
  quiet st (fst (getAgentTokenPrice rt chain agentTokens st a stack)).
Proof.
  unfold getAgentTokenPrice.
  destruct (getAgentTokenPrice_fuel _ _ _ _ _ _ _) as [[st' p]|] eqn:H; simpl.
  - eapply getAgentTokenPrice_fuel_quiet; eassumption.
  - apply quiet_refl.
Qed.

Lemma calculateAgentTokenPrice_quiet st a c stack :
  quiet st (fst (calculateAgentTokenPrice rt chain agentTokens st a c stack)).
Proof.
  unfold calculateAgentTokenPrice, calculateAgentTokenPrice_fuel.
  destruct (calculateAgentTokenPrice_with _ _ _ _ _ _ _) as [[st' p]|] eqn:H; simpl.
  - eapply calculateAgentTokenPrice_with_quiet; [|eassumption].
    apply getAgentTokenPrice_fuel_quiet.
  - apply quiet_refl.
Qed.

Lemma fold_left_quiet {A} (f : State -> A -> State) (l : list A) :
  (forall st a, quiet st (f st a)) -> forall st, quiet st (fold_left f l st).
Proof.
  intros Hf. induction l as [|a l IH]; intros st; simpl.
  - apply quiet_refl.
  - eapply quiet_trans; [apply Hf | apply IH].
Qed.

Lemma updateAllAgentPrices_quiet st :
  quiet st (updateAllAgentPrices rt chain agentTokens st).
Proof.
  unfold updateAllAgentPrices. apply fold_left_quiet.
  intros s [a c].
  pose proof (calculateAgentTokenPrice_quiet s a c []) as Hq.
  destruct (calculateAgentTokenPrice _ _ _ s a c []) as [s' price]; simpl in Hq.
  destruct (Js.gt price 0%float); [|exact Hq].
  eapply quiet_trans; [exact Hq | apply quiet_cache_agent].
Qed.

Lemma updateBNBPrice_quiet st : quiet st (updateBNBPrice rt chain st).
Proof.
  unfold updateBNBPrice.
  destruct (0 <? List.length _)%nat; repeat split.
Qed.

Lemma convertToUSD_quiet st priceInPair pool isToken0 :
  quiet st (fst (convertToUSD rt chain agentTokens st priceInPair pool isToken0)).
Proof.
  unfold convertToUSD.
  destruct (String.eqb _ "WBNB"); [apply quiet_refl|].
  destruct (_ || _ || _); [apply quiet_refl|].
  destruct (pc_pairIsAgent _); [|apply quiet_warn].
  match goal with
  | |- context [getAgentTokenPrice _ _ _ st ?a ?s] =>
      pose proof (getAgentTokenPrice_quiet st a s) as Hq;
      destruct (getAgentTokenPrice rt chain agentTokens st a s) as [st' agentPriceUSD]
  end.
  simpl in Hq. destruct (Js.gt agentPriceUSD 0%float); simpl; [exact Hq|].
  eapply quiet_trans; [exact Hq | apply quiet_warn].
Qed.

Lemma sample_pool_quiet tokenAddress acc pool :
  quiet (fst acc) (fst (sample_pool rt chain agentTokens tokenAddress acc pool)).
Proof.
  destruct acc as [st prices]. unfold sample_pool.
  match goal with
  | |- context [if ?v2 then calculateV2Price _ _ _ else calculateV3Price _ _ _] =>
      destruct (if v2 then calculateV2Price rt tokenAddress pool
                else calculateV3Price rt tokenAddress pool) as [priceInPair isToken0]
  end.
  pose proof (convertToUSD_quiet st priceInPair pool isToken0) as Hq.
  destruct (convertToUSD _ _ _ st priceInPair pool isToken0) as [st' price].
  destruct (Js.gt (priceUSD price) 0%float); exact Hq.
Qed.

Lemma pool_samples_quiet tokenAddress pools :
  forall st, quiet st (fst (pool_samples rt chain agentTokens st tokenAddress pools)).
Proof.
  unfold pool_samples.
  assert (H : forall acc,
             quiet (fst acc)
                   (fst (fold_left (sample_pool rt chain agentTokens tokenAddress) pools acc))).
  { induction pools as [|pool pools IH]; intros acc; simpl.
    - apply quiet_refl.
    - eapply quiet_trans; [apply sample_pool_quiet | apply IH]. }
  intros st. apply (H (st, [])).
Qed.

Lemma calculatePrice_quiet st tokenAddress pools providedConfig :
  quiet st (fst (calculatePrice rt chain agentTokens tokens st tokenAddress pools
                                providedConfig)).
Proof.
  unfold calculatePrice.
  pose proof (pool_samples_quiet tokenAddress pools st) as Hq.
  destruct (pool_samples _ _ _ st tokenAddress pools) as [st' prices]; simpl in Hq.
  destruct (List.length prices =? 0)%nat; [exact Hq|].
  destruct (match providedConfig with Some _ => _ | None => _ end); exact Hq.
Qed.

(** With a configuration at hand [calculatePrice] returns a price. *)
Lemma calculatePrice_returns st tokenAddress pools tokenData :
  monitoredTokens st !! tokenAddress = Some tokenData ->
  exists newPrice,
    snd (calculatePrice rt chain agentTokens tokens st tokenAddress pools None)
    = Js.Normal newPrice.
Proof.
  intros Hmon. unfold calculatePrice. rewrite Hmon.
  destruct (pool_samples _ _ _ st tokenAddress pools) as [st' prices].
  destruct (List.length prices =? 0)%nat; simpl; eauto.
Qed.

End Quiet.

(** ** The broadcast threshold *)

Section Threshold.

Import PriceMonitor.

Variable rt : Runtime.
Variable chain : Chain.
Variable agentTokens : Config.AgentTokens.
Variable tokens : list (string * TokenConfig).

(** A float that is neither below nor above zero, and not NaN, is zero. *)
Lemma zero_of_le_not_lt (x : Js.number) :
  Js.le 0%float x = true -> Js.gt x 0%float = false -> Js.strict_eq x 0%float = true.
Proof.
  unfold Js.le, Js.gt, Js.strict_eq.
  rewrite FloatAxioms.leb_spec, FloatAxioms.ltb_spec, FloatAxioms.eqb_spec.
  replace (Prim2SF 0) with (S754_zero false) by reflexivity.
  destruct (Prim2SF x) as [s|s| |s m e]; simpl; try discriminate; try reflexivity.
  all: destruct s; simpl; intros; try discriminate; try reflexivity.
Qed.

Lemma default_threshold :
  Config.priceUpdateThreshold Config.settings = 0.001%float.
Proof. reflexivity. Qed.

(** The test the code performs agrees with the test of the claim on every
    prior price that is not negative. *)
Lemma significant_iff (old new : Js.number) :
  Js.le 0%float old = true ->
  significant old new
  = Js.strict_eq old 0%float
    || Js.ge (PrimFloat.abs ((new - old) / old)%float)
             (Config.priceUpdateThreshold Config.settings).
Proof.
  intros Hnonneg. unfold significant, priceChange_of.
  destruct (Js.gt old 0%float) eqn:Hpos.
  - apply orb_comm.
  - rewrite (zero_of_le_not_lt old Hnonneg Hpos). apply orb_true_r.
Qed.

Lemma refresh_entry (st : State) (tokenAddress : string) (tokenData : TokenData) :
  let st4 := refresh rt chain agentTokens st tokenAddress tokenData in
  monitoredTokens st4 !! tokenAddress = Some (set_lastUpdateCall (now chain) tokenData)
  /\ priceCache st4 = priceCache st
  /\ io st4 = io st.
Proof.
  cbv zeta. unfold refresh.
  set (st2 := set_metrics _ _).
  assert (Hq : quiet st2
                 (if existsb pc_pairIsAgent
                      (tc_pools (td_config (set_lastUpdateCall (now chain) tokenData)))
                  then updateAllAgentPrices rt chain agentTokens
                         (if bnb_price_stale chain st2 then updateBNBPrice rt chain st2 else st2)
                  else if bnb_price_stale chain st2 then updateBNBPrice rt chain st2 else st2)).
  { destruct (existsb _ _), (bnb_price_stale chain st2).
    - eapply quiet_trans; [apply updateBNBPrice_quiet | apply updateAllAgentPrices_quiet].
    - apply updateAllAgentPrices_quiet.
    - apply updateBNBPrice_quiet.
    - apply quiet_refl. }
  destruct Hq as (Hm & Hc & Hio & _). rewrite Hm, Hc, Hio.
  split; [|split; reflexivity]. subst st2.
  cbv [set_metrics set_monitoredTokens monitoredTokens]. apply lookup_insert_eq.
Qed.

(** The test the code performs, for every prior price: the relative change
    is looked at only when the prior price is positive. *)
Lemma significant_guarded (old new : Js.number) :
  significant old new
  = Js.strict_eq old 0%float
    || (Js.gt old 0%float
        && Js.ge (PrimFloat.abs ((new - old) / old)%float)
                 (Config.priceUpdateThreshold Config.settings)).
Proof.
  unfold significant, priceChange_of.
  destruct (Js.gt old 0%float); cbn [andb].
  - apply orb_comm.
  - replace (Js.ge (PrimFloat.abs 0) (Config.priceUpdateThreshold Config.settings))
      with false by (vm_compute; reflexivity).
    cbn [orb]. now rewrite orb_false_r.
Qed.

(** The rule as the claim words it, with [old] the price the cache held
    before the update. *)
Definition prior_cached_price (st : State) (tokenAddress : string) : Js.number :=
  match LastPriceCache.get (priceCache st) tokenAddress with
  | Some entry => priceUSD (ce_price entry)
  | None => 0%float
  end.

Definition threshold_rule_on_cache (st : State) (tokenAddress : string) : Prop :=
  let old := prior_cached_price st tokenAddress in
  let st' := handlePriceUpdate rt chain agentTokens tokens st tokenAddress in
  exists new : PriceData,
    LastPriceCache.get (priceCache st') tokenAddress
    = Some {| ce_price := new; cachedAt := now chain |}
    /\ if Js.strict_eq old 0%float
          || Js.ge (PrimFloat.abs ((priceUSD new - old) / old)%float)
                   (Config.priceUpdateThreshold Config.settings)
       then io st' = io st ++
                     [ {| em_target := ToRoom (room_of tokenAddress);
                          em_event := "price-update";
                          em_payload := price_update rt new |};
                       {| em_target := ToAll;
                          em_event := "global-price-update";
                          em_payload := price_update rt new |} ]
       else io st' = io st
            /\ option_map lastPrice (monitoredTokens st' !! tokenAddress)
               = option_map lastPrice (monitoredTokens st !! tokenAddress).

(** C6 (amended). For a monitored token and a price update outside the
    100 ms coalescing window, with [old] the USD value of the token's
    [lastPrice] -- the last published price, 0 when there is none -- and
    [new] the price [calculatePrice] returns: the price cache holds [new]
    afterwards in every case; if [old = 0], or [old > 0] and
    [|(new - old) / old| >= priceUpdateThreshold], the update is broadcast
    (one ['price-update'] and its global twin) and [lastPrice] becomes [new];
    otherwise nothing is emitted and [lastPrice] keeps its value. *)
Theorem handlePriceUpdate_threshold (st : State) (tokenAddress : string)
  (tokenData : TokenData) :
  monitoredTokens st !! tokenAddress = Some tokenData ->
  coalesced chain tokenData = false ->
  let old := oldPrice_of tokenData in
  let st' := handlePriceUpdate rt chain agentTokens tokens st tokenAddress in
  exists (new : PriceData) (tokenData' : TokenData),
    snd (calculatePrice rt chain agentTokens tokens
           (refresh rt chain agentTokens st tokenAddress tokenData)
           tokenAddress (td_pools tokenData) None) = Js.Normal new
    /\ LastPriceCache.get (priceCache st') tokenAddress
       = Some {| ce_price := new; cachedAt := now chain |}
    /\ monitoredTokens st' !! tokenAddress = Some tokenData'
    /\ if Js.strict_eq old 0%float
          || (Js.gt old 0%float
              && Js.ge (PrimFloat.abs ((priceUSD new - old) / old)%float)
                       (Config.priceUpdateThreshold Config.settings))
       then io st' = io st ++
                     [ {| em_target := ToRoom (room_of tokenAddress);
                          em_event := "price-update";
                          em_payload := price_update rt new |};
                       {| em_target := ToAll;
                          em_event := "global-price-update";
                          em_payload := price_update rt new |} ]
            /\ lastPrice tokenData' = Some new
       else io st' = io st /\ lastPrice tokenData' = lastPrice tokenData.
Proof.
  intros Hmon Hwin. cbv zeta.
  unfold handlePriceUpdate. rewrite Hmon, Hwin.
  destruct (refresh_entry st tokenAddress tokenData) as (Hentry & Hcache & Hio).
  destruct (calculatePrice_returns rt chain agentTokens tokens _ tokenAddress
              (td_pools tokenData) _ Hentry) as (new & Hnew).
  pose proof (calculatePrice_quiet rt chain agentTokens tokens
                (refresh rt chain agentTokens st tokenAddress tokenData)
                tokenAddress (td_pools tokenData) None) as Hq.
  change (td_pools (set_lastUpdateCall (now chain) tokenData)) with (td_pools tokenData).
  destruct (calculatePrice _ _ _ _ _ tokenAddress (td_pools tokenData) None)
    as [st5 outcome].
  simpl in Hnew, Hq. subst outcome. destruct Hq as (Hm5 & Hc5 & Hio5 & _).
  change (oldPrice_of (set_lastUpdateCall (now chain) tokenData))
    with (oldPrice_of tokenData).
  rewrite (significant_guarded _ (priceUSD new)).
  destruct (Js.strict_eq (oldPrice_of tokenData) 0%float
            || (Js.gt (oldPrice_of tokenData) 0%float
                && Js.ge (PrimFloat.abs ((priceUSD new - oldPrice_of tokenData)
                                         / oldPrice_of tokenData)%float)
                         (Config.priceUpdateThreshold Config.settings))) eqn:Hsig.
  - exists new, (set_lastPrice new (now chain) (set_lastUpdateCall (now chain) tokenData)).
    rewrite Hsig.
    split; [reflexivity|].
    split; [cbv [broadcastPrice set_io set_monitoredTokens set_priceCache priceCache
                 LastPriceCache.get LastPriceCache.set]; apply lookup_insert_eq|].
    split; [cbv [broadcastPrice set_io set_monitoredTokens set_priceCache monitoredTokens];
            apply lookup_insert_eq|].
    split; [|reflexivity].
    cbv [broadcastPrice set_io set_monitoredTokens set_priceCache io].
    fold (io st5). rewrite Hio5, Hio. reflexivity.
  - exists new, (set_lastUpdateCall (now chain) tokenData).
    rewrite Hsig.
    split; [reflexivity|].
    split; [cbv [set_priceCache priceCache LastPriceCache.get LastPriceCache.set];
            apply lookup_insert_eq|].
    split; [cbv [set_priceCache monitoredTokens]; fold (monitoredTokens st5);
            rewrite Hm5; exact Hentry|].
    split; [|reflexivity].
    cbv [set_priceCache io]. fold (io st5). rewrite Hio5, Hio. reflexivity.
Qed.

End Threshold.

(** The first scenario of the specification, run through the handler: the
    price moves from $6.00 to about $6.12 and is broadcast. *)
Lemma handlePriceUpdate_threshold_witness :
  let st' := PriceMonitor.handlePriceUpdate Runtime64.runtime (Scenario.silent_chain 1000)
               [] [] Scenario.after_swap Scenario.MON in
  exists new : PriceData,
    PriceMonitor.LastPriceCache.get (PriceMonitor.priceCache st') Scenario.MON
    = Some {| ce_price := new; cachedAt := 1000 |}
    /\ map em_event (PriceMonitor.io st') = ["price-update"; "global-price-update"].
Proof.
  cbv zeta.
  destruct (handlePriceUpdate_threshold Runtime64.runtime (Scenario.silent_chain 1000)
              [] [] Scenario.after_swap Scenario.MON
              {| td_config := Scenario.token_config Scenario.wbnb_entry;
                 td_pools := [Scenario.v2_pool (990 * 10 ^ 18) (101 * 10 ^ 17)
                                               Scenario.wbnb_entry];
                 lastPrice := Some {| priceUSD := 6%float; priceBNB := 0.01%float;
                                      details := None |};
                 lastUpdate := 0; lastUpdateCall := None; isDynamic := true |}
              ltac:(vm_compute; reflexivity) ltac:(reflexivity))
    as (new & tokenData' & _ & Hcache & _ & _).
  exists new. split; [exact Hcache | vm_compute; reflexivity].
Defined.

(** C6 (the claim as worded fails). The rule with [old] read from the price
    cache is not what the handler does.  With $6.00 published and $6.005
    cached, a move to $6.0075 is 0.04% against the cache, yet it is broadcast
    (0.125% against the published price).  With $6.00 published and $6.0059
    cached, a move to $5.9995 is 0.107% against the cache, yet nothing is
    emitted (0.008% against the published price). *)
Lemma handlePriceUpdate_cached_price_counterexample :
  ~ threshold_rule_on_cache Runtime64.runtime (Scenario.silent_chain 2000) [] []
      Scenario.moved_up Scenario.MON
  /\ ~ threshold_rule_on_cache Runtime64.runtime (Scenario.silent_chain 2000) [] []
        Scenario.moved_back Scenario.MON.
Proof.
  split; intros (new & Hget & Hrule).
  - vm_compute in Hget. injection Hget as Hnew. subst new.
    vm_compute in Hrule. destruct Hrule as [Hio _]. discriminate Hio.
  - vm_compute in Hget. injection Hget as Hnew. subst new.
    vm_compute in Hrule. discriminate Hrule.
Qed.

(** A block header on the pending channel is dropped. *)
Lemma garbage_is_dropped_witness :
  MempoolMonitor.is_tx_hash
    (MempoolMonitor.string_form (fun _ => "NaN") Scenario.block_header) = false
  /\ MempoolMonitor.handlePendingTransaction
       (fun _ => Js.Normal None) true (fun _ => Js.Throw "no data") 1000
       Scenario.watching Scenario.block_header
     = (Scenario.watching, Js.Normal tt).
Proof.
  split; [reflexivity|].
  apply (garbage_is_dropped (fun _ => "NaN")). reflexivity.
Defined.

(** ** Stable pairs in [convertToUSD] *)

Section StablePairs.

Import PriceMonitor.

Variable rt : Runtime.
Variable chain : Chain.
Variable agentTokens : Config.AgentTokens.

(** X4. For the three stables that [convertToUSD] lists, the pair-denominated
    price is the USD price, the BNB price is that divided by the BNB
    reference, and the state is left as it is. *)
Lemma convertToUSD_listed_stable (st : State) (priceInPair : Js.number) (pool : Pool)
  (isToken0 : bool) :
  Js.includes ["USDC"; "USDT"; "DAI"] (pc_pair (pool_config pool)) = true ->
  convertToUSD rt chain agentTokens st priceInPair pool isToken0
  = (st, {| priceUSD := priceInPair;
            priceBNB := (priceInPair / bnbPrice st)%float; details := None |}).
Proof.
  unfold Js.includes, convertToUSD. cbn [existsb]. intros H.
  destruct (String.eqb (pc_pair (pool_config pool)) "WBNB") eqn:Hw.
  { apply String.eqb_eq in Hw. rewrite Hw in H. discriminate. }
  revert H.
  destruct (String.eqb _ "USDC"), (String.eqb _ "USDT"), (String.eqb _ "DAI");
    try discriminate; reflexivity.
Qed.

(** A pool whose pair is BUSD and that [buildTokenConfig] therefore marks as
    not agent-priced falls through to the last branch: both prices are zero,
    whatever the pair-denominated price. *)
Lemma convertToUSD_BUSD (st : State) (priceInPair : Js.number) (pool : Pool)
  (isToken0 : bool) :
  pc_pair (pool_config pool) = "BUSD" ->
  pc_pairIsAgent (pool_config pool) = false ->
  convertToUSD rt chain agentTokens st priceInPair pool isToken0
  = (warn "Unknown pair type: BUSD" st,
     {| priceUSD := 0%float; priceBNB := 0%float; details := None |}).
Proof. unfold convertToUSD. intros -> ->. reflexivity. Qed.

End StablePairs.

(** C1 (the code departs from the claim). A token added with a BUSD pool:
    [buildTokenConfig] marks the pair as a stable ([pairIsAgent = false]),
    and [convertToUSD] then returns [priceUSD = 0] and [priceBNB = 0] for a
    pair-denominated price of 1.5, where the claim has [priceUSD = 1.5]. *)
Theorem busd_pool_price_is_zero :
  PriceMonitor.buildTokenConfig Scenario.busd_input Scenario.MON Scenario.POOL
  = Js.Normal (Scenario.token_config Scenario.busd_entry)
  /\ pc_pairIsAgent Scenario.busd_entry = false
  /\ snd (PriceMonitor.convertToUSD Runtime64.runtime (Scenario.silent_chain 1000) []
            PriceMonitor.initial 1.5%float
            (Scenario.v2_pool (10 ^ 21) (15 * 10 ^ 20) Scenario.busd_entry) true)
     = {| priceUSD := 0%float; priceBNB := 0%float; details := None |}.
Proof. repeat split; vm_compute; reflexivity. Qed.

(** ** Removing a token *)

Section Removal.

Import PriceMonitor.

Lemma LastPriceCache_has_no_delete : LastPriceCache.has_method "delete" = false.
Proof. reflexivity. Qed.

(** X2. [removeDynamicToken] has two outcomes only: [false] with the state
    untouched when the token is not monitored, and the [TypeError] of the
    missing [LastPriceCache.delete] when it is. *)
Lemma removeDynamicToken_outcome (st : State) (tokenAddress : string) :
  match monitoredTokens st !! Js.toLowerCase tokenAddress with
  | None => removeDynamicToken st tokenAddress = (st, Js.Normal false)
  | Some _ =>
      snd (removeDynamicToken st tokenAddress)
      = Js.Throw "TypeError: this.priceCache.delete is not a function"
      /\ priceCache (fst (removeDynamicToken st tokenAddress)) = priceCache st
  end.
Proof.
  unfold removeDynamicToken.
  destruct (monitoredTokens st !! Js.toLowerCase tokenAddress) as [tokenData|];
    [|reflexivity].
  rewrite LastPriceCache_has_no_delete. split; [reflexivity|].
  cbv [fst set_monitoredTokens priceCache].
  set (key := Js.toLowerCase tokenAddress).
  assert (Hpools : forall pools s,
             priceCache
               (fold_left
                  (fun st pool =>
                     if String.eqb (pool_address pool) "" then st
                     else set_poolContracts (delete (pool_address pool) (poolContracts st)) st)
                  pools s) = priceCache s).
  { induction pools as [|pool pools IH]; intros s; simpl; [reflexivity|].
    rewrite IH. destruct (String.eqb (pool_address pool) ""); reflexivity. }
  fold (priceCache
          (fold_left
             (fun st pool =>
                if String.eqb (pool_address pool) "" then st
                else set_poolContracts (delete (pool_address pool) (poolContracts st)) st)
             (td_pools tokenData)
             match mempoolMonitor (drop_listeners key st) with
             | Some mm =>
                 set_mempoolMonitor
                   (Some (fold_left
                            (fun mm pool =>
                               if String.eqb (pool_address pool) "" then mm
                               else MempoolMonitor.removeMonitoredPool mm (pool_address pool))
                            (td_pools tokenData) mm)) (drop_listeners key st)
             | None => drop_listeners key st
             end)).
  rewrite Hpools.
  assert (Hdrop : priceCache (drop_listeners key st) = priceCache st).
  { unfold drop_listeners. generalize (activeListeners st) at 1. intros l. revert st.
    induction l as [|[k d] l IH]; intros s; simpl; [reflexivity|].
    rewrite IH. destruct (Js.startsWith k (key +:+ ":")); [|reflexivity].
    destruct (le_listener d); reflexivity. }
  destruct (mempoolMonitor (drop_listeners key st)); exact Hdrop.
Qed.

End Removal.


(** C3 (the code departs from the claim). For the dynamically added token of
    the scenario, [removeDynamicToken] raises a [TypeError], the price cache
    keeps the token, and the following [getTokenPrice] answers the cached
    price rather than [null]. *)
Theorem removeDynamicToken_keeps_cache :
  let st' := fst (PriceMonitor.removeDynamicToken Scenario.added Scenario.MON) in
  snd (PriceMonitor.removeDynamicToken Scenario.added Scenario.MON)
  = Js.Throw "TypeError: this.priceCache.delete is not a function"
  /\ PriceMonitor.priceCache st' = PriceMonitor.priceCache Scenario.added
  /\ exists entry,
       PriceMonitor.LastPriceCache.get (PriceMonitor.priceCache st') Scenario.MON
       = Some entry
       /\ priceUSD (ce_price entry) = 6%float
       /\ snd (PriceMonitor.getTokenPrice st' Scenario.MON)
          = Js.Normal (PriceMonitor.FromCache entry).
Proof.
  cbv zeta. split; [vm_compute; reflexivity|]. split; [vm_compute; reflexivity|].
  eexists. split; [vm_compute; reflexivity|]. split; vm_compute; reflexivity.
Qed.

(** C4 (the code departs from the claim). The token of the scenario is stored
    in [monitoredTokens] under its lowercase address, with a zero price that
    was never cached.  [getTokenPrice], asked with that same lowercase
    address, misses the cache and looks the token up under the checksum form
    of the address, which differs from the stored key in case only: it
    answers [null] although the token and its [lastPrice] are there. *)
Theorem getTokenPrice_fallback_uses_checksum :
  PriceMonitor.monitoredTokens Scenario.unpriced !! Scenario.TOKEN
  = Some {| td_config := Scenario.unpriced_config;
            td_pools := [Scenario.v2_pool (10 ^ 21) (10 ^ 19) Scenario.agent_entry];
            lastPrice := Some {| priceUSD := 0%float; priceBNB := 0%float;
                                 details := None |};
            lastUpdate := 1000; lastUpdateCall := None; isDynamic := true |}
  /\ Js.toLowerCase Scenario.TOKEN = Scenario.TOKEN
  /\ Ethers.getAddress Scenario.TOKEN
     = Some "0x55d398326f99059fF775485246999027B3197955"
  /\ PriceMonitor.monitoredTokens Scenario.unpriced
     !! "0x55d398326f99059fF775485246999027B3197955" = None
  /\ snd (PriceMonitor.getTokenPrice Scenario.unpriced Scenario.TOKEN)
     = Js.Normal PriceMonitor.Null.
Proof. repeat split; vm_compute; reflexivity. Qed.

(** ** Agent prices: cycles and termination *)

Section AgentRecursion.

Import PriceMonitor.

Variable rt : Runtime.
Variable chain : Chain.
Variable agentTokens : Config.AgentTokens.

Lemma includes_elem_of (l : list string) (x : string) :
  Js.includes l x = true <-> x ∈ l.
Proof.
  unfold Js.includes. rewrite existsb_exists, list_elem_of_In. split.
  - intros (y & Hy & Heq). apply String.eqb_eq in Heq. now subst.
  - intros Hx. exists x. split; [exact Hx | apply String.eqb_refl].
Qed.

(** A re-entered address is answered with 0 at once, with one warning. *)
Lemma getAgentTokenPrice_reentry (fuel : nat) (st : State) (c : ascii) (a : string)
  (callStack : list string) :
  String c a ∈ callStack ->
  getAgentTokenPrice_fuel rt chain agentTokens (S fuel) st (Some (String c a)) callStack
  = Some (warn (cycle_warning_get callStack (String c a)) st, 0%float).
Proof.
  intros Hin. apply includes_elem_of in Hin.
  cbn [getAgentTokenPrice_fuel]. rewrite Hin. reflexivity.
Qed.

Lemma calculateAgentTokenPrice_reentry (get : Getter) (st : State) (a : string)
  (agentConfig : Config.AgentConfig) (callStack : list string) :
  a ∈ callStack ->
  calculateAgentTokenPrice_with rt chain get st a agentConfig callStack
  = Some (warn (cycle_warning callStack a) st, 0%float).
Proof.
  intros Hin. apply includes_elem_of in Hin.
  unfold calculateAgentTokenPrice_with. rewrite Hin. reflexivity.
Qed.

(** The addresses of the registry that are not on the call stack: the
    measure that every nested resolution decreases. *)
Definition unvisited (callStack : list string) : gset string :=
  list_to_set (pair_addresses agentTokens) ∖ list_to_set callStack.

Lemma unvisited_push (callStack : list string) (a : string) :
  (size (unvisited (callStack ++ [a])) <= size (unvisited callStack))%nat.
Proof.
  apply subseteq_size. unfold unvisited. rewrite list_to_set_app_L. set_solver.
Qed.

Lemma unvisited_push_fresh (callStack : list string) (a : string) :
  a ∈ pair_addresses agentTokens -> a ∉ callStack ->
  (size (unvisited (callStack ++ [a])) < size (unvisited callStack))%nat.
Proof.
  intros Hin Hfresh. apply subset_size. unfold unvisited.
  rewrite list_to_set_app_L. apply strict_spec_alt. split; [set_solver|].
  intros Heq.
  assert (Ha : a ∈ (list_to_set (pair_addresses agentTokens) ∖ list_to_set callStack
                    : gset string)) by set_solver.
  rewrite <- Heq in Ha. set_solver.
Qed.

Lemma size_list_to_set_le (l : list string) :
  (size (list_to_set l : gset string) <= List.length l)%nat.
Proof.
  induction l as [|a l IH].
  - rewrite list_to_set_nil, size_empty. simpl. lia.
  - rewrite list_to_set_cons, size_union_alt, size_singleton. cbn [List.length].
    pose proof (subseteq_size (list_to_set l ∖ {[a]}) (list_to_set l : gset string)
                  ltac:(set_solver)).
    lia.
Qed.

Lemma unvisited_bound (callStack : list string) :
  (size (unvisited callStack) <= List.length (pair_addresses agentTokens))%nat.
Proof.
  etransitivity; [|apply size_list_to_set_le].
  apply subseteq_size. unfold unvisited. set_solver.
Qed.

(** The pair addresses of a registered configuration belong to the registry. *)
Definition registered (agentConfig : Config.AgentConfig) : Prop :=
  forall source p,
    In source (Config.priceSources agentConfig) ->
    Config.src_pairAddress source = Some p ->
    p ∈ pair_addresses agentTokens.

Lemma agent_lookup_registered (key : string) (agentConfig : Config.AgentConfig) :
  Config.agent_lookup agentTokens key = Some agentConfig -> registered agentConfig.
Proof.
  unfold Config.agent_lookup. intros Hfind source p Hsource Hp.
  destruct (find _ agentTokens) as [[k c]|] eqn:Hf; [|discriminate].
  injection Hfind as ->. apply find_some in Hf as [Hin _].
  apply list_elem_of_In. unfold pair_addresses. apply in_flat_map.
  exists (k, agentConfig). split; [exact Hin|].
  apply list_elem_of_In. apply list_elem_of_omap. exists source.
  split; [apply list_elem_of_In; exact Hsource | exact Hp].
Qed.

(** The loop over the sources returns as soon as every nested resolution
    does. *)
Lemma collect_prices_returns (get : Getter) (agentAddress : string)
  (newCallStack : list string) (sources : list Config.PriceSource) :
  (forall source st, In source sources ->
     is_Some (get st (Config.src_pairAddress source) newCallStack)) ->
  forall st prices,
    is_Some (collect_prices rt chain get st agentAddress newCallStack sources prices).
Proof.
  induction sources as [|source rest IH]; intros Hget st prices; simpl.
  - eexists. reflexivity.
  - assert (Hrest : forall st prices,
               is_Some (collect_prices rt chain get st agentAddress newCallStack rest prices)).
    { apply IH. intros s st' Hs. apply Hget. now right. }
    destruct (if String.eqb (Config.src_type source) "V2"
              then getV2PoolPrice rt chain source agentAddress
              else getV3PoolPrice rt chain source agentAddress) as [price|e];
      [|apply Hrest].
    destruct (String.eqb (Config.src_pair source) "WBNB"); [apply Hrest|].
    destruct (is_stable (Config.src_pair source)); [apply Hrest|].
    destruct (Hget source st ltac:(now left)) as [[st' nested] ->]. apply Hrest.
Qed.

Lemma calculateAgentTokenPrice_with_returns (get : Getter) (st : State)
  (a : string) (agentConfig : Config.AgentConfig) (callStack : list string) :
  (forall source st, In source (Config.priceSources agentConfig) ->
     is_Some (get st (Config.src_pairAddress source) (callStack ++ [a]))) ->
  is_Some (calculateAgentTokenPrice_with rt chain get st a agentConfig callStack).
Proof.
  intros Hget. unfold calculateAgentTokenPrice_with.
  destruct (Js.includes callStack a); [eexists; reflexivity|].
  destruct (collect_prices_returns get a (callStack ++ [a]) _ Hget st [])
    as [[st' prices] ->].
  destruct (List.length prices =? 0)%nat; eexists; reflexivity.
Qed.

(** With more fuel than unvisited registry addresses, resolving an address of
    the registry (or no address) returns. *)
Lemma getAgentTokenPrice_fuel_returns (fuel : nat) :
  forall (callStack : list string) (address : option string) (st : State),
    (forall a, address = Some a -> a ∈ pair_addresses agentTokens) ->
    (size (unvisited callStack) < fuel)%nat ->
    is_Some (getAgentTokenPrice_fuel rt chain agentTokens fuel st address callStack).
Proof.
  induction fuel as [|fuel IH]; intros callStack address st Hreg Hfuel; [lia|].
  cbn [getAgentTokenPrice_fuel].
  destruct address as [[|c a]|]; try (eexists; reflexivity).
  destruct (Js.includes callStack (String c a)) eqn:Hon; [eexists; reflexivity|].
  destruct (match agentTokenPrices st !! _ with Some _ => _ | None => _ end);
    [eexists; reflexivity|].
  destruct (Config.agent_lookup agentTokens _) as [agentConfig|] eqn:Hcfg;
    [|eexists; reflexivity].
  assert (Hfresh : String c a ∉ callStack).
  { intros Hin. apply includes_elem_of in Hin. congruence. }
  pose proof (unvisited_push_fresh callStack (String c a) (Hreg _ eq_refl) Hfresh).
  destruct (calculateAgentTokenPrice_with_returns
              (getAgentTokenPrice_fuel rt chain agentTokens fuel) st (String c a)
              agentConfig callStack) as [[st' price] ->].
  - intros source st' Hsource. apply IH; [|lia].
    intros p Hp. eapply agent_lookup_registered; eassumption.
  - eexists. reflexivity.
Qed.

(** One more unit of fuel covers an address from outside the registry. *)
Lemma getAgentTokenPrice_fuel_returns_any (fuel : nat) (callStack : list string)
  (address : option string) (st : State) :
  (S (size (unvisited callStack)) < fuel)%nat ->
  is_Some (getAgentTokenPrice_fuel rt chain agentTokens fuel st address callStack).
Proof.
  destruct fuel as [|fuel]; [lia|]. intros Hfuel.
  cbn [getAgentTokenPrice_fuel].
  destruct address as [[|c a]|]; try (eexists; reflexivity).
  destruct (Js.includes callStack (String c a)); [eexists; reflexivity|].
  destruct (match agentTokenPrices st !! _ with Some _ => _ | None => _ end);
    [eexists; reflexivity|].
  destruct (Config.agent_lookup agentTokens _) as [agentConfig|] eqn:Hcfg;
    [|eexists; reflexivity].
  pose proof (unvisited_push callStack (String c a)).
  destruct (calculateAgentTokenPrice_with_returns
              (getAgentTokenPrice_fuel rt chain agentTokens fuel) st (String c a)
              agentConfig callStack) as [[st' price] ->].
  - intros source st' Hsource. apply getAgentTokenPrice_fuel_returns; [|lia].
    intros p Hp. eapply agent_lookup_registered; eassumption.
  - eexists. reflexivity.
Qed.

(** X1. The fuel that [getAgentTokenPrice] and [calculateAgentTokenPrice] run
    with is never exhausted: on every registry, cyclic or not, from every
    state and call stack, both return a price. *)
Theorem agent_price_fuel_suffices (st : State) (callStack : list string) :
  (forall address,
      is_Some (getAgentTokenPrice_fuel rt chain agentTokens (agent_fuel agentTokens)
                 st address callStack))
  /\ (forall a agentConfig,
         is_Some (calculateAgentTokenPrice_fuel rt chain agentTokens
                    (agent_fuel agentTokens) st a agentConfig callStack)).
Proof.
  unfold agent_fuel. split.
  - intros address. apply getAgentTokenPrice_fuel_returns_any.
    pose proof (unvisited_bound callStack). lia.
  - intros a agentConfig. apply calculateAgentTokenPrice_with_returns.
    intros source st' _. apply getAgentTokenPrice_fuel_returns_any.
    pose proof (unvisited_bound (callStack ++ [a])). lia.
Qed.

End AgentRecursion.

(** C7 (the code departs from the claim).  On the registry in which A is
    priced through B and B through A, the resolution of A terminates and the
    re-entrant call for A returns 0 with one cycle warning; but the source of
    B that depended on it is neither dropped nor zeroed: it enters B's
    average at its pair-denominated price 3, B is cached at 3 and A resolves
    to 2 * 3 = 6, where the claim has the cycled branch contribute
    nothing. *)
Theorem cyclic_agents_resolve_nonzero :
  let run := PriceMonitor.calculateAgentTokenPrice Runtime64.runtime Scenario.cyclic_chain
               Scenario.cyclic_registry PriceMonitor.initial Scenario.A
               Scenario.config_A [] in
  PriceMonitor.getAgentTokenPrice_fuel Runtime64.runtime Scenario.cyclic_chain
    Scenario.cyclic_registry 1 PriceMonitor.initial (Some Scenario.A)
    [Scenario.A; Scenario.B]
  = Some (PriceMonitor.warn
            (PriceMonitor.cycle_warning_get [Scenario.A; Scenario.B] Scenario.A)
            PriceMonitor.initial, 0%float)
  /\ snd run = 6%float
  /\ PriceMonitor.warnings (fst run)
     = [PriceMonitor.cycle_warning_get [Scenario.A; Scenario.B] Scenario.A]
  /\ option_map ap_price (PriceMonitor.agentTokenPrices (fst run) !! Scenario.B)
     = Some 3%float.
Proof. cbv zeta. repeat split; vm_compute; reflexivity. Qed.

(** * Further properties of the services *)

(** A USDT pool at a pair-denominated price of 2.5 with BNB at $600. *)
Lemma convertToUSD_listed_stable_witness :
  PriceMonitor.convertToUSD Runtime64.runtime (Scenario.silent_chain 0) []
    PriceMonitor.initial 2.5%float
    (Scenario.v2_pool 1 1 (Scenario.pool_entry "USDT" None false)) true
  = (PriceMonitor.initial,
     {| priceUSD := 2.5%float; priceBNB := (2.5 / 600)%float; details := None |}).
Proof.
  apply (convertToUSD_listed_stable Runtime64.runtime (Scenario.silent_chain 0) []
           PriceMonitor.initial 2.5%float
           (Scenario.v2_pool 1 1 (Scenario.pool_entry "USDT" None false)) true).
  reflexivity.
Defined.

Section Frames.

Import PriceMonitor.

Variable rt : Runtime.
Variable chain : Chain.
Variable agentTokens : Config.AgentTokens.
Variable tokens : list (string * TokenConfig).

(** X5. Computing a price and refreshing the reference prices are silent:
    [calculatePrice], [updateBNBPrice] and [updateAllAgentPrices] never emit
    on a socket and never change the token table, the price cache or the
    metrics. *)
Theorem price_computation_is_silent (st : State) (tokenAddress : string)
  (pools : list Pool) (providedConfig : option TokenConfig) :
  let unchanged (st' : State) :=
    monitoredTokens st' = monitoredTokens st /\ priceCache st' = priceCache st
    /\ io st' = io st /\ metrics st' = metrics st in
  unchanged (fst (calculatePrice rt chain agentTokens tokens st tokenAddress pools
                                 providedConfig))
  /\ unchanged (updateBNBPrice rt chain st)
  /\ unchanged (updateAllAgentPrices rt chain agentTokens st).
Proof.
  cbv zeta. split; [|split].
  - apply calculatePrice_quiet.
  - apply updateBNBPrice_quiet.
  - apply updateAllAgentPrices_quiet.
Qed.

(** X6. The V2 classifier: with the monitored token on side 0 a swap is a buy
    exactly when [amount0Out] is positive; a buy reports [amount0Out] against
    [amount1In], a sell [amount0In] against [amount1Out]; symmetrically for
    side 1.  The token amount is labelled ["tokens"] for a WBNB pair and with
    the pair symbol otherwise. *)
Theorem parseV2SwapInfo_direction (amount0In amount1In amount0Out amount1Out : Z)
  (isToken0 : bool) (decimals0 decimals1 : Z) (poolConfig : PoolConfig) :
  let out := if isToken0 then amount0Out else amount1Out in
  let info := parseV2SwapInfo rt amount0In amount1In amount0Out amount1Out
                              isToken0 decimals0 decimals1 poolConfig in
  let tokenRaw := if isBuy info then out
                  else if isToken0 then amount0In else amount1In in
  let pairRaw := if isBuy info
                 then (if isToken0 then amount1In else amount0In)
                 else (if isToken0 then amount1Out else amount0Out) in
  (isBuy info = true <-> 0 < out)
  /\ tokenAmount info
     = formatAmount rt tokenRaw (if isToken0 then decimals0 else decimals1)
       +:+ " " +:+ (if String.eqb (pc_pair poolConfig) "WBNB" then "tokens"
                    else pc_pair poolConfig)
  /\ pairAmount info
     = formatAmount rt pairRaw (if isToken0 then decimals1 else decimals0)
       +:+ " " +:+ pc_pair poolConfig
  /\ eventType info = "Swap (V2)".
Proof.
  cbv zeta. unfold parseV2SwapInfo.
  destruct isToken0.
  - destruct (Z.ltb_spec 0 amount0Out); cbn -[formatAmount];
      (split; [split; [intros; try discriminate; lia | intros; try reflexivity; lia]
              | repeat split]).
  - destruct (Z.ltb_spec 0 amount1Out); cbn -[formatAmount];
      (split; [split; [intros; try discriminate; lia | intros; try reflexivity; lia]
              | repeat split]).
Qed.

End Frames.

Section CacheAndMetrics.

Import PriceMonitor.

(** X7. The price cache is keyed by the lowercase address: after
    [set(a, price)] every spelling of [a] reads that price back with its
    time stamp, and addresses that differ from [a] by more than case read
    what they read before. *)
Theorem LastPriceCache_set_get (prices : gmap string CacheEntry)
  (a b : string) (priceData : PriceData) (now : Z) :
  LastPriceCache.get (LastPriceCache.set prices a priceData now) b
  = if String.eqb (Js.toLowerCase a) (Js.toLowerCase b)
    then Some {| ce_price := priceData; cachedAt := now |}
    else LastPriceCache.get prices b.
Proof.
  unfold LastPriceCache.get, LastPriceCache.set.
  destruct (String.eqb_spec (Js.toLowerCase a) (Js.toLowerCase b)) as [->|Hne].
  - apply lookup_insert_eq.
  - apply lookup_insert_ne. exact Hne.
Qed.

(** X8. [addError] appends the message to the error ring and, when the
    ring already held 100 entries, drops the oldest one: the ring never grows
    beyond 100 entries, the newest error is its last entry, and none of the
    counters is touched. *)
Theorem addError_bounded (message : string) (m : Metrics) :
  (List.length (m_errors m) <= 100)%nat ->
  m_errors (addError message m)
  = (if (List.length (m_errors m) =? 100)%nat then tl (m_errors m) else m_errors m)
    ++ [message]
  /\ (List.length (m_errors (addError message m)) <= 100)%nat
  /\ List.last (m_errors (addError message m)) "" = message
  /\ m_priceUpdates (addError message m) = m_priceUpdates m
  /\ m_cacheHits (addError message m) = m_cacheHits m
  /\ m_cacheMisses (addError message m) = m_cacheMisses m
  /\ m_eventsReceived (addError message m) = m_eventsReceived m.
Proof.
  intros Hlen.
  assert (Hring : m_errors (addError message m)
                  = (if (List.length (m_errors m) =? 100)%nat
                     then tl (m_errors m) else m_errors m) ++ [message]).
  { unfold addError. cbn [m_errors]. rewrite length_app. cbn [List.length].
    destruct (Nat.eqb_spec (List.length (m_errors m)) 100) as [Hfull|Hroom].
    - destruct (Nat.ltb_spec 100 (List.length (m_errors m) + 1)) as [_|Hno]; [|lia].
      destruct (m_errors m) as [|e es]; [discriminate Hfull | reflexivity].
    - destruct (Nat.ltb_spec 100 (List.length (m_errors m) + 1)) as [Hover|_];
        [lia | reflexivity]. }
  split; [exact Hring|]. rewrite Hring.
  split; [|split; [apply last_last | repeat split]].
  rewrite length_app. cbn [List.length].
  destruct (Nat.eqb_spec (List.length (m_errors m)) 100) as [Hfull|Hroom]; [|lia].
  destruct (m_errors m) as [|e es]; cbn [tl List.length] in *; lia.
Qed.

(** A ring that holds 100 errors, the oldest one first. *)
Definition full_ring : Metrics :=
  {| m_priceUpdates := 7; m_cacheHits := 3; m_cacheMisses := 2; m_eventsReceived := 9;
     m_errors := "oldest" :: List.repeat "old" 99 |}.

(** On the full ring the oldest error makes room for the new one. *)
Lemma addError_bounded_witness :
  List.length (m_errors full_ring) = 100%nat
  /\ m_errors (addError "boom" full_ring) = List.repeat "old" 99 ++ ["boom"]
  /\ (List.length (m_errors (addError "boom" full_ring)) <= 100)%nat
  /\ m_eventsReceived (addError "boom" full_ring) = 9.
Proof.
  destruct (addError_bounded "boom" full_ring) as (Hring & Hlen & _ & _ & _ & _ & Hev).
  - vm_compute. lia.
  - split; [reflexivity|]. split; [exact Hring|]. split; [exact Hlen | exact Hev].
Defined.

End CacheAndMetrics.

(** ** The mempool tracker: matching and decoding *)

Section PendingMatching.

Import MempoolMonitor.

Variable getTransaction : string -> Js.completion (option Tx).
Variable swapClientConnected : bool.
Variable parseSwap : string -> Js.completion (option (Z * Z)).
Variable now : Z.



(** X10. [decodeSwapTransaction] ignores a transaction exactly when its
    calldata is shorter than a selector or its selector is not in
    [SWAP_SIGNATURES]; for every known selector it yields the swap of the
    pool's token sent by the transaction's sender, with the operation left
    [unknown] for all selectors but the V2 pool's own [swap]. *)
Theorem decodeSwapTransaction_selector (tx : Tx) (pool : PoolWatch) :
  let data := tx_data tx in
  let selector := Js.toLowerCase (Js.slice0 10 data) in
  match decodeSwapTransaction parseSwap tx pool with
  | None => (String.length data < 10)%nat
            \/ Js.includes (map snd SWAP_SIGNATURES) selector = false
  | Some swap =>
      (10 <= String.length data)%nat
      /\ Js.includes (map snd SWAP_SIGNATURES) selector = true
      /\ s_methodId swap = selector
      /\ s_tokenAddress swap = pw_tokenAddress pool
      /\ s_poolAddress swap = pw_poolAddress pool
      /\ s_userAddress swap = tx_from tx
      /\ (selector <> "0x022c0d9f" -> s_operation swap = Unknown)
  end.
Proof.
  cbv zeta. unfold decodeSwapTransaction.
  destruct (Nat.ltb_spec (String.length (tx_data tx)) 10) as [Hshort|Hlong];
    [left; exact Hshort|].
  set (selector := Js.toLowerCase (Js.slice0 10 (tx_data tx))).
  destruct (String.eqb_spec selector "0x022c0d9f") as [Heq|Hne].
  { rewrite Heq. repeat split; try assumption. intros Habs. now contradiction Habs. }
  destruct (String.eqb_spec selector "0x128acb08") as [Heq3|Hne3].
  { rewrite Heq3. repeat split; assumption. }
  destruct (Js.includes (map snd SWAP_SIGNATURES) selector) eqn:Hin.
  - repeat split; assumption.
  - right. reflexivity.
Qed.

(** X11. [removeMonitoredPool] forgets the pool under every spelling of its
    address, keeps every other pool, keeps the pending swaps, and switches
    monitoring off exactly when no pool is left. *)
Theorem removeMonitoredPool_effect (st : State) (poolAddress other : string) :
  let st' := removeMonitoredPool st poolAddress in
  monitoredPools st' !! Js.toLowerCase poolAddress = None
  /\ (other <> Js.toLowerCase poolAddress ->
      monitoredPools st' !! other = monitoredPools st !! other)
  /\ pendingSwaps st' = pendingSwaps st
  /\ isMonitoring st'
     = (isMonitoring st
        && negb (bool_decide (monitoredPools st' = ∅))).
Proof.
  cbv zeta. unfold removeMonitoredPool. cbn [monitoredPools pendingSwaps isMonitoring].
  split; [apply lookup_delete_eq|].
  split; [intros Hne; apply lookup_delete_ne; congruence|].
  split; [reflexivity|].
  destruct (Nat.eqb_spec (size (delete (Js.toLowerCase poolAddress) (monitoredPools st))) 0)
    as [Hz|Hnz].
  - apply map_size_empty_iff in Hz. rewrite Hz.
    rewrite bool_decide_true by reflexivity. now rewrite andb_false_r.
  - rewrite bool_decide_false; [now rewrite andb_true_r|].
    intros Hempty. apply Hnz. rewrite Hempty. apply map_size_empty.
Qed.

End PendingMatching.

(** ** The mempool tracker: pools and terminal states

    The rest of [MempoolMonitor.js] that works on the tracker state:
    [addMonitoredPool], the three terminal handlers and the stale sweep. *)

Module MempoolLifecycle.

Import MempoolMonitor.

(** [this.TIMEOUT_MS] *)
Definition TIMEOUT_MS : Z := 300000.

(** The ['swap:failed'] envelope. *)
Record FailedNotice := {
  fn_txHash : string;
  fn_blockNumber : option Z;
  fn_reason : string;
  fn_timestamp : Z
}.

Definition with_pending (pending : gmap string PendingSwap) (c : Counters)
  (st : State) : State :=
  {| pendingSwaps := pending; monitoredPools := monitoredPools st; metrics := c;
     isMonitoring := isMonitoring st; emitted := emitted st; awaiting := awaiting st |}.

(** [addMonitoredPool]: the pool is stored under its lowercase address with
    the time of the call; monitoring is started if it was off, and stays off
    only if the node refuses the subscription ([subscribes = false]). *)
Definition addMonitoredPool (subscribes : bool) (now : Z) (st : State)
  (poolAddress : string) (config : PoolWatch) : State :=
  let stamped :=
    {| pw_tokenAddress := pw_tokenAddress config; pw_poolAddress := pw_poolAddress config;
       pw_protocol := pw_protocol config; pw_userAddress := pw_userAddress config;
       pw_isToken0 := pw_isToken0 config; pw_addedAt := now |} in
  {| pendingSwaps := pendingSwaps st;
     monitoredPools := <[Js.toLowerCase poolAddress := stamped]> (monitoredPools st);
     metrics := metrics st;
     isMonitoring := if isMonitoring st then true else subscribes;
     emitted := emitted st; awaiting := awaiting st |}.

Definition handleConfirmedSwap (st : State) (txHash : string) : State :=
  match pendingSwaps st !! txHash with
  | None => st
  | Some _ =>
      let c := metrics st in
      with_pending (delete txHash (pendingSwaps st))
        {| pendingDetected := pendingDetected c; confirmed := confirmed c + 1;
           failed := failed c; replaced := replaced c; timedOut := timedOut c |} st
  end.

(** [handleFailedSwap]: the new state and the envelope sent, if any. *)
Definition handleFailedSwap (swapClientConnected : bool) (now : Z) (st : State)
  (txHash : string) (blockNumber : option Z) (reason : string)
  : State * list FailedNotice :=
  match pendingSwaps st !! txHash with
  | None => (st, [])
  | Some _ =>
      let c := metrics st in
      (with_pending (delete txHash (pendingSwaps st))
         {| pendingDetected := pendingDetected c; confirmed := confirmed c;
            failed := failed c + 1; replaced := replaced c; timedOut := timedOut c |} st,
       if swapClientConnected
       then [{| fn_txHash := txHash; fn_blockNumber := blockNumber;
                fn_reason := reason; fn_timestamp := now |}]
       else [])
  end.

Definition handleTimeout (st : State) (txHash : string) : State :=
  match pendingSwaps st !! txHash with
  | None => st
  | Some _ =>
      let c := metrics st in
      with_pending (delete txHash (pendingSwaps st))
        {| pendingDetected := pendingDetected c; confirmed := confirmed c;
           failed := failed c; replaced := replaced c; timedOut := timedOut c + 1 |} st
  end.

(** [now - swap.detectedAt > this.TIMEOUT_MS] *)
Definition stale (now : Z) (swap : PendingSwap) : bool :=
  TIMEOUT_MS <? now - s_detectedAt swap.

(** [cleanupStaleTransactions]: the stale hashes are collected first, then
    timed out one by one.  (A [Map] lists them in insertion order; the result
    does not depend on the order.) *)
Definition cleanupStaleTransactions (now : Z) (st : State) : State :=
  let stale_hashes :=
    map fst (List.filter (fun e => stale now (snd e)) (map_to_list (pendingSwaps st))) in
  fold_left handleTimeout stale_hashes st.

End MempoolLifecycle.

Section Lifecycle.

Import MempoolMonitor MempoolLifecycle.

(** X12. Each terminal handler acts on a tracked hash only: for an untracked
    hash the tracker is unchanged and nothing is sent; for a tracked one the
    entry is removed, exactly the handler's own counter grows by one, every
    other entry stays, and [handleFailedSwap] sends its envelope exactly when
    the swap client is connected. *)
Theorem terminal_handlers (connected : bool) (now : Z) (st : State)
  (txHash : string) (blockNumber : option Z) (reason : string) :
  let c := metrics st in
  let removed := delete txHash (pendingSwaps st) in
  match pendingSwaps st !! txHash with
  | None =>
      handleConfirmedSwap st txHash = st
      /\ handleTimeout st txHash = st
      /\ handleFailedSwap connected now st txHash blockNumber reason = (st, [])
  | Some _ =>
      let confirmed' := handleConfirmedSwap st txHash in
      let timedOut' := handleTimeout st txHash in
      let '(failed', notices) := handleFailedSwap connected now st txHash blockNumber reason in
      pendingSwaps confirmed' = removed
      /\ pendingSwaps timedOut' = removed
      /\ pendingSwaps failed' = removed
      /\ metrics confirmed'
         = {| pendingDetected := pendingDetected c; confirmed := confirmed c + 1;
              failed := failed c; replaced := replaced c; timedOut := timedOut c |}
      /\ metrics timedOut'
         = {| pendingDetected := pendingDetected c; confirmed := confirmed c;
              failed := failed c; replaced := replaced c; timedOut := timedOut c + 1 |}
      /\ metrics failed'
         = {| pendingDetected := pendingDetected c; confirmed := confirmed c;
              failed := failed c + 1; replaced := replaced c; timedOut := timedOut c |}
      /\ List.length notices = (if connected then 1 else 0)%nat
      /\ Forall (fun n => fn_txHash n = txHash /\ fn_reason n = reason) notices
  end.
Proof.
  cbv zeta. unfold handleConfirmedSwap, handleTimeout, handleFailedSwap.
  destruct (pendingSwaps st !! txHash) as [swap|]; [|repeat split].
  destruct connected; repeat split; repeat constructor.
Qed.

Lemma handleTimeout_lookup (st : State) (h k : string) :
  pendingSwaps (handleTimeout st h) !! k
  = if String.eqb h k then None else pendingSwaps st !! k.
Proof.
  unfold handleTimeout.
  destruct (String.eqb_spec h k) as [->|Hne].
  - destruct (pendingSwaps st !! k) eqn:Hk; [apply lookup_delete_eq | exact Hk].
  - destruct (pendingSwaps st !! h); [apply lookup_delete_ne; exact Hne | reflexivity].
Qed.

Lemma fold_handleTimeout_lookup (hashes : list string) :
  forall (st : State) (k : string),
    pendingSwaps (fold_left handleTimeout hashes st) !! k
    = if bool_decide (k ∈ hashes) then None else pendingSwaps st !! k.
Proof.
  induction hashes as [|h hashes IH]; intros st k; cbn [fold_left].
  - case_bool_decide as Hin; [now apply elem_of_nil in Hin | reflexivity].
  - rewrite IH, handleTimeout_lookup.
    destruct (String.eqb_spec h k) as [->|Hne].
    + rewrite (bool_decide_true (k ∈ k :: hashes)) by apply list_elem_of_here.
      now destruct (bool_decide (k ∈ hashes)).
    + destruct (bool_decide (k ∈ hashes)) eqn:Hin.
      * apply bool_decide_eq_true in Hin.
        rewrite bool_decide_true; [reflexivity | now apply list_elem_of_further].
      * apply bool_decide_eq_false in Hin.
        rewrite bool_decide_false; [reflexivity|].
        intros Hk. apply elem_of_cons in Hk as [->|Hk]; [now apply Hne | now apply Hin].
Qed.

(** X13. The stale sweep removes exactly the entries detected more than
    [TIMEOUT_MS] (five minutes) before [now]: afterwards every such hash is
    gone, every other entry is as it was, and the monitored pools are
    untouched. *)
Theorem cleanupStaleTransactions_lookup (now : Z) (st : State) (k : string) :
  pendingSwaps (cleanupStaleTransactions now st) !! k
  = match pendingSwaps st !! k with
    | Some swap => if TIMEOUT_MS <? now - s_detectedAt swap then None else Some swap
    | None => None
    end.
Proof.
  unfold cleanupStaleTransactions. rewrite fold_handleTimeout_lookup.
  destruct (pendingSwaps st !! k) as [swap|] eqn:Hk.
  - destruct (TIMEOUT_MS <? now - s_detectedAt swap) eqn:Hstale.
    + rewrite bool_decide_true; [reflexivity|].
      apply list_elem_of_In, in_map_iff. exists (k, swap). split; [reflexivity|].
      apply List.filter_In. split; [|exact Hstale].
      apply list_elem_of_In, elem_of_map_to_list. exact Hk.
    + rewrite bool_decide_false; [reflexivity|].
      intros Hin. apply list_elem_of_In, in_map_iff in Hin as ([k' swap'] & Heq & Hf).
      simpl in Heq. subst k'. apply List.filter_In in Hf as [Hmem Hst].
      apply list_elem_of_In, elem_of_map_to_list in Hmem.
      rewrite Hk in Hmem. injection Hmem as <-.
      unfold stale in Hst. simpl in Hst. congruence.
  - now destruct (bool_decide _).
Qed.

End Lifecycle.

Section Accounting.

Import MempoolMonitor MempoolLifecycle.

Variable getTransaction : string -> Js.completion (option Tx).
Variable swapClientConnected : bool.
Variable parseSwap : string -> Js.completion (option (Z * Z)).
Variable now : Z.






End Accounting.






Section PoolRoundTrip.

Import MempoolMonitor MempoolLifecycle.

(** X15. A pool added with [addMonitoredPool] is found for every transaction
    sent to it, however the two addresses are capitalised, with the
    configuration it was added with and the time of the call; after
    [removeMonitoredPool] no transaction to it matches any more.  Adding a
    pool never stops monitoring that is already on. *)
Theorem addMonitoredPool_round_trip (subscribes : bool) (now : Z) (st : State)
  (poolAddress : string) (config : PoolWatch) (tx : Tx) (to : string) :
  tx_to tx = Some to ->
  Js.toLowerCase to = Js.toLowerCase poolAddress ->
  let st' := addMonitoredPool subscribes now st poolAddress config in
  getPoolConfigForTx st' tx
  = Some {| pw_tokenAddress := pw_tokenAddress config;
            pw_poolAddress := pw_poolAddress config;
            pw_protocol := pw_protocol config;
            pw_userAddress := pw_userAddress config;
            pw_isToken0 := pw_isToken0 config; pw_addedAt := now |}
  /\ getPoolConfigForTx (removeMonitoredPool st' poolAddress) tx = None
  /\ (isMonitoring st = true -> isMonitoring st' = true)
  /\ pendingSwaps st' = pendingSwaps st.
Proof.
  intros Hto Hsame. cbv zeta.
  unfold getPoolConfigForTx, addMonitoredPool, removeMonitoredPool. rewrite Hto.
  cbn [monitoredPools isMonitoring pendingSwaps]. rewrite Hsame.
  split; [apply lookup_insert_eq|]. split; [apply lookup_delete_eq|].
  split; [intros ->; reflexivity | reflexivity].
Qed.

End PoolRoundTrip.

Lemma addMonitoredPool_round_trip_witness :
  MempoolMonitor.getPoolConfigForTx
    (MempoolMonitor.removeMonitoredPool
       (MempoolLifecycle.addMonitoredPool true 5 Scenario.watching
          "0x0ED7E52944161450477EE417DE9CD3A859B14FD0"
          {| MempoolMonitor.pw_tokenAddress := Scenario.MON;
             MempoolMonitor.pw_poolAddress := Scenario.POOL;
             MempoolMonitor.pw_protocol := "uniswapv2";
             MempoolMonitor.pw_userAddress := None;
             MempoolMonitor.pw_isToken0 := None;
             MempoolMonitor.pw_addedAt := 0 |})
       "0x0ED7E52944161450477EE417DE9CD3A859B14FD0")
    {| MempoolMonitor.tx_to := Some Scenario.POOL; MempoolMonitor.tx_from := "";
       MempoolMonitor.tx_data := "" |}
  = None.
Proof.
  refine (proj1 (proj2 (addMonitoredPool_round_trip true 5 Scenario.watching
                          "0x0ED7E52944161450477EE417DE9CD3A859B14FD0" _ _
                          Scenario.POOL _ _))); reflexivity.
Defined.

(** ** Price updates: what a run changes *)

Section UpdateRun.

Import PriceMonitor.

Variable rt : Runtime.
Variable chain : Chain.
Variable agentTokens : Config.AgentTokens.
Variable tokens : list (string * TokenConfig).

Lemma refresh_tokens (st : State) (tokenAddress : string) (tokenData : TokenData) :
  let st4 := refresh rt chain agentTokens st tokenAddress tokenData in
  monitoredTokens st4
  = <[tokenAddress := set_lastUpdateCall (now chain) tokenData]> (monitoredTokens st)
  /\ priceCache st4 = priceCache st
  /\ io st4 = io st.
Proof.
  cbv zeta. unfold refresh.
  set (st2 := set_metrics _ _).
  assert (Hq : quiet st2
                 (if existsb pc_pairIsAgent
                      (tc_pools (td_config (set_lastUpdateCall (now chain) tokenData)))
                  then updateAllAgentPrices rt chain agentTokens
                         (if bnb_price_stale chain st2 then updateBNBPrice rt chain st2 else st2)
                  else if bnb_price_stale chain st2 then updateBNBPrice rt chain st2 else st2)).
  { destruct (existsb _ _), (bnb_price_stale chain st2).
    - eapply quiet_trans; [apply updateBNBPrice_quiet | apply updateAllAgentPrices_quiet].
    - apply updateAllAgentPrices_quiet.
    - apply updateBNBPrice_quiet.
    - apply quiet_refl. }
  destruct Hq as (Hm & Hc & Hio & _). rewrite Hm, Hc, Hio. repeat split.
Qed.

(** The shape of a run of [handlePriceUpdate] outside the coalescing window. *)
Lemma handlePriceUpdate_run (st : State) (tokenAddress : string) (tokenData : TokenData) :
  monitoredTokens st !! tokenAddress = Some tokenData ->
  coalesced chain tokenData = false ->
  exists (new : PriceData) (st5 : State),
    let stamped := set_lastUpdateCall (now chain) tokenData in
    let cached :=
      set_priceCache
        (LastPriceCache.set (priceCache st5) tokenAddress new (now chain)) st5 in
    monitoredTokens st5 = <[tokenAddress := stamped]> (monitoredTokens st)
    /\ priceCache st5 = priceCache st
    /\ io st5 = io st
    /\ handlePriceUpdate rt chain agentTokens tokens st tokenAddress
       = if significant (oldPrice_of tokenData) (priceUSD new)
         then broadcastPrice rt
                (set_monitoredTokens
                   (<[tokenAddress := set_lastPrice new (now chain) stamped]>
                      (monitoredTokens cached)) cached)
                tokenAddress new
         else cached.
Proof.
  intros Hmon Hwin. unfold handlePriceUpdate. rewrite Hmon, Hwin.
  destruct (refresh_tokens st tokenAddress tokenData) as (Htok & Hcache & Hio).
  assert (Hentry : monitoredTokens (refresh rt chain agentTokens st tokenAddress tokenData)
                   !! tokenAddress = Some (set_lastUpdateCall (now chain) tokenData)).
  { rewrite Htok. apply lookup_insert_eq. }
  destruct (calculatePrice_returns rt chain agentTokens tokens _ tokenAddress
              (td_pools tokenData) _ Hentry) as (new & Hnew).
  pose proof (calculatePrice_quiet rt chain agentTokens tokens
                (refresh rt chain agentTokens st tokenAddress tokenData)
                tokenAddress (td_pools tokenData) None) as Hq.
  change (td_pools (set_lastUpdateCall (now chain) tokenData)) with (td_pools tokenData).
  destruct (calculatePrice _ _ _ _ _ tokenAddress (td_pools tokenData) None)
    as [st5 outcome].
  simpl in Hnew, Hq. subst outcome. destruct Hq as (Hm5 & Hc5 & Hio5 & _).
  exists new, st5. cbv zeta.
  split; [congruence|]. split; [congruence|]. split; [congruence|]. reflexivity.
Qed.

(** X16. An update outside the coalescing window always makes the fresh price
    the answer of [getTokenPrice], for every capitalisation of the token
    address and whether or not the update was broadcast; the answer comes
    from the cache and counts as a cache hit. *)
Theorem price_update_then_query (st : State) (tokenAddress query : string)
  (tokenData : TokenData) :
  monitoredTokens st !! tokenAddress = Some tokenData ->
  coalesced chain tokenData = false ->
  Js.toLowerCase query = Js.toLowerCase tokenAddress ->
  let st' := handlePriceUpdate rt chain agentTokens tokens st tokenAddress in
  exists new : PriceData,
    snd (calculatePrice rt chain agentTokens tokens
           (refresh rt chain agentTokens st tokenAddress tokenData)
           tokenAddress (td_pools tokenData) None) = Js.Normal new
    /\ snd (getTokenPrice st' query)
       = Js.Normal (FromCache {| ce_price := new; cachedAt := now chain |})
    /\ m_cacheHits (metrics (fst (getTokenPrice st' query)))
       = m_cacheHits (metrics st') + 1.
Proof.
  intros Hmon Hwin Hquery. cbv zeta.
  assert (Hget : exists new,
             snd (calculatePrice rt chain agentTokens tokens
                    (refresh rt chain agentTokens st tokenAddress tokenData)
                    tokenAddress (td_pools tokenData) None) = Js.Normal new
             /\ LastPriceCache.get
                  (priceCache (handlePriceUpdate rt chain agentTokens tokens st tokenAddress))
                  query
                = Some {| ce_price := new; cachedAt := now chain |}).
  { unfold handlePriceUpdate. rewrite Hmon, Hwin.
    destruct (refresh_tokens st tokenAddress tokenData) as (Htok & _ & _).
    assert (Hentry : monitoredTokens (refresh rt chain agentTokens st tokenAddress tokenData)
                     !! tokenAddress = Some (set_lastUpdateCall (now chain) tokenData)).
    { rewrite Htok. apply lookup_insert_eq. }
    destruct (calculatePrice_returns rt chain agentTokens tokens _ tokenAddress
                (td_pools tokenData) _ Hentry) as (new & Hnew).
    change (td_pools (set_lastUpdateCall (now chain) tokenData)) with (td_pools tokenData).
    destruct (calculatePrice _ _ _ _ _ tokenAddress (td_pools tokenData) None)
      as [st5 outcome].
    simpl in Hnew. subst outcome. exists new. split; [reflexivity|].
    unfold LastPriceCache.get. rewrite Hquery.
    destruct (significant _ _);
      cbv [broadcastPrice set_io set_monitoredTokens set_priceCache priceCache
           LastPriceCache.set]; apply lookup_insert_eq. }
  destruct Hget as (new & Hnew & Hcached). exists new. split; [exact Hnew|].
  unfold getTokenPrice. rewrite Hcached. split; reflexivity.
Qed.

(** X17. Coalescing: after an update at time [t], a second trigger for the
    same token less than 100 ms later changes nothing at all -- no metric,
    no cache write, no broadcast. *)
Theorem second_update_is_coalesced (later : Chain) (st : State)
  (tokenAddress : string) (tokenData : TokenData) :
  monitoredTokens st !! tokenAddress = Some tokenData ->
  coalesced chain tokenData = false ->
  now chain <> 0 ->
  now later - now chain < 100 ->
  let st' := handlePriceUpdate rt chain agentTokens tokens st tokenAddress in
  handlePriceUpdate rt later agentTokens tokens st' tokenAddress = st'.
Proof.
  intros Hmon Hwin Hnz Hsoon. cbv zeta.
  destruct (handlePriceUpdate_run st tokenAddress tokenData Hmon Hwin)
    as (new & st5 & Htok & _ & _ & Hrun). cbv zeta in Hrun.
  assert (Hstamp : exists d,
             monitoredTokens (handlePriceUpdate rt chain agentTokens tokens st tokenAddress)
             !! tokenAddress = Some d
             /\ lastUpdateCall d = Some (now chain)).
  { rewrite Hrun. destruct (significant _ _).
    - exists (set_lastPrice new (now chain) (set_lastUpdateCall (now chain) tokenData)).
      split; [|reflexivity].
      cbv [broadcastPrice set_io set_monitoredTokens set_priceCache monitoredTokens].
      apply lookup_insert_eq.
    - exists (set_lastUpdateCall (now chain) tokenData). split; [|reflexivity].
      cbv [set_priceCache monitoredTokens]. fold (monitoredTokens st5).
      rewrite Htok. apply lookup_insert_eq. }
  destruct Hstamp as (d & Hd & Hcall).
  unfold handlePriceUpdate at 1. rewrite Hd.
  unfold coalesced. rewrite Hcall.
  destruct (Z.eqb_spec (now chain) 0) as [|_]; [contradiction|].
  destruct (Z.ltb_spec (now later - now chain) 100); [reflexivity | lia].
Qed.

(** X18. An update of one token leaves every other token alone: the binding
    of another address in [monitoredTokens] and the cached price of an
    address that differs by more than case are what they were, and the set
    of monitored addresses neither grows nor shrinks. *)
Theorem handlePriceUpdate_frame (st : State) (tokenAddress other : string) :
  let st' := handlePriceUpdate rt chain agentTokens tokens st tokenAddress in
  (other <> tokenAddress -> monitoredTokens st' !! other = monitoredTokens st !! other)
  /\ (Js.toLowerCase other <> Js.toLowerCase tokenAddress ->
      LastPriceCache.get (priceCache st') other = LastPriceCache.get (priceCache st) other)
  /\ dom (monitoredTokens st') = dom (monitoredTokens st).
Proof.
  cbv zeta.
  destruct (monitoredTokens st !! tokenAddress) as [tokenData|] eqn:Hmon.
  2: { unfold handlePriceUpdate. rewrite Hmon. repeat split. }
  destruct (coalesced chain tokenData) eqn:Hwin.
  { unfold handlePriceUpdate. rewrite Hmon, Hwin. repeat split. }
  destruct (handlePriceUpdate_run st tokenAddress tokenData Hmon Hwin)
    as (new & st5 & Htok & Hcache & _ & Hrun). cbv zeta in Hrun. rewrite Hrun.
  assert (Hdom : forall d : TokenData,
             dom (<[tokenAddress := d]> (monitoredTokens st)) = dom (monitoredTokens st)).
  { intros d. rewrite dom_insert_L.
    assert (tokenAddress ∈ dom (monitoredTokens st)) by (apply elem_of_dom; eauto).
    set_solver. }
  destruct (significant _ _).
  - cbv [broadcastPrice set_io set_monitoredTokens set_priceCache monitoredTokens
         priceCache LastPriceCache.get LastPriceCache.set].
    fold (monitoredTokens st5). fold (priceCache st5). rewrite Htok, Hcache.
    split; [intros Hne; rewrite !lookup_insert_ne by congruence; reflexivity|].
    split; [intros Hne; rewrite lookup_insert_ne by congruence; reflexivity|].
    rewrite insert_insert_eq. apply Hdom.
  - cbv [set_priceCache monitoredTokens priceCache LastPriceCache.get LastPriceCache.set].
    fold (monitoredTokens st5). fold (priceCache st5). rewrite Htok, Hcache.
    split; [intros Hne; rewrite lookup_insert_ne by congruence; reflexivity|].
    split; [intros Hne; rewrite lookup_insert_ne by congruence; reflexivity|].
    apply Hdom.
Qed.

End UpdateRun.

(** The binding of the monitored token in [Scenario.after_swap]. *)
Definition after_swap_binding : TokenData :=
  {| td_config := Scenario.token_config Scenario.wbnb_entry;
     td_pools := [Scenario.v2_pool (990 * 10 ^ 18) (101 * 10 ^ 17) Scenario.wbnb_entry];
     lastPrice := Some {| priceUSD := 6%float; priceBNB := 0.01%float; details := None |};
     lastUpdate := 0; lastUpdateCall := None; isDynamic := true |}.

(** After the swap of the first scenario, a query with the checksum spelling
    of the token is answered from the cache. *)
Lemma price_update_then_query_witness :
  exists new : PriceData,
    snd (PriceMonitor.getTokenPrice
           (PriceMonitor.handlePriceUpdate Runtime64.runtime (Scenario.silent_chain 1000)
              [] [] Scenario.after_swap Scenario.MON)
           Scenario.MON_checksum)
    = Js.Normal (PriceMonitor.FromCache {| ce_price := new; cachedAt := 1000 |}).
Proof.
  destruct (price_update_then_query Runtime64.runtime (Scenario.silent_chain 1000) [] []
              Scenario.after_swap Scenario.MON Scenario.MON_checksum after_swap_binding
              ltac:(vm_compute; reflexivity) ltac:(reflexivity)
              ltac:(vm_compute; reflexivity))
    as (new & _ & Hanswer & _).
  exists new. exact Hanswer.
Defined.

(** A second trigger 50 ms after the first. *)
Lemma second_update_is_coalesced_witness :
  let st' := PriceMonitor.handlePriceUpdate Runtime64.runtime (Scenario.silent_chain 1000)
               [] [] Scenario.after_swap Scenario.MON in
  PriceMonitor.handlePriceUpdate Runtime64.runtime (Scenario.silent_chain 1050) [] []
    st' Scenario.MON = st'.
Proof.
  apply (second_update_is_coalesced Runtime64.runtime (Scenario.silent_chain 1000) [] []
           (Scenario.silent_chain 1050) Scenario.after_swap Scenario.MON after_swap_binding).
  - vm_compute; reflexivity.
  - reflexivity.
  - discriminate.
  - reflexivity.
Defined.

(** ** The aggregate price and the registration of a token *)

Lemma lower_ascii_idempotent (c : ascii) : Js.lower_ascii (Js.lower_ascii c) = Js.lower_ascii c.
Proof. destruct c as [[] [] [] [] [] [] [] []]; vm_compute; reflexivity. Qed.

Lemma toLowerCase_idempotent (s : string) :
  Js.toLowerCase (Js.toLowerCase s) = Js.toLowerCase s.
Proof.
  induction s as [|c s IH]; [reflexivity|].
  cbn [Js.toLowerCase]. now rewrite lower_ascii_idempotent, IH.
Qed.

Section Aggregate.

Import PriceMonitor.

Variable rt : Runtime.
Variable chain : Chain.
Variable agentTokens : Config.AgentTokens.
Variable tokens : list (string * TokenConfig).

(** A sample of one of the given pools with a positive USD price. *)
Definition sample_of (pools : list Pool) (s : PriceSample) : Prop :=
  Js.gt (ps_priceUSD s) 0%float = true
  /\ exists pool, In pool pools
                  /\ ps_pool s = pool_address pool
                  /\ ps_pair s = pc_pair (pool_config pool)
                  /\ ps_description s = pc_description (pool_config pool).

Lemma sample_pool_samples (tokenAddress : string) (pools : list Pool)
  (acc : State * list PriceSample) (pool : Pool) :
  In pool pools ->
  Forall (sample_of pools) (snd acc) ->
  Forall (sample_of pools) (snd (sample_pool rt chain agentTokens tokenAddress acc pool))
  /\ (List.length (snd (sample_pool rt chain agentTokens tokenAddress acc pool))
      <= S (List.length (snd acc)))%nat.
Proof.
  intros Hin Hacc. destruct acc as [st prices]. unfold sample_pool.
  match goal with
  | |- context [if ?v2 then calculateV2Price _ _ _ else calculateV3Price _ _ _] =>
      destruct (if v2 then calculateV2Price rt tokenAddress pool
                else calculateV3Price rt tokenAddress pool) as [priceInPair isToken0]
  end.
  destruct (convertToUSD _ _ _ st priceInPair pool isToken0) as [st' price].
  destruct (Js.gt (priceUSD price) 0%float) eqn:Hpos; cbn [snd] in *.
  - split; [|rewrite length_app; simpl; lia].
    apply Forall_app. split; [exact Hacc|]. constructor; [|constructor].
    split; [exact Hpos|]. exists pool. repeat split. exact Hin.
  - split; [exact Hacc | lia].
Qed.

Lemma pool_samples_samples (st : State) (tokenAddress : string) (pools : list Pool) :
  Forall (sample_of pools) (snd (pool_samples rt chain agentTokens st tokenAddress pools))
  /\ (List.length (snd (pool_samples rt chain agentTokens st tokenAddress pools))
      <= List.length pools)%nat.
Proof.
  unfold pool_samples.
  assert (H : forall rest acc,
             (forall p, In p rest -> In p pools) ->
             Forall (sample_of pools) (snd acc) ->
             Forall (sample_of pools)
                    (snd (fold_left (sample_pool rt chain agentTokens tokenAddress) rest acc))
             /\ (List.length
                   (snd (fold_left (sample_pool rt chain agentTokens tokenAddress) rest acc))
                 <= List.length (snd acc) + List.length rest)%nat).
  { induction rest as [|pool rest IH]; intros acc Hsub Hacc; cbn [fold_left].
    - split; [exact Hacc | simpl; lia].
    - destruct (sample_pool_samples tokenAddress pools acc pool
                  (Hsub pool (or_introl eq_refl)) Hacc) as [Hall Hlen].
      destruct (IH (sample_pool rt chain agentTokens tokenAddress acc pool)
                  (fun p Hp => Hsub p (or_intror Hp)) Hall) as [Hall' Hlen'].
      split; [exact Hall' | simpl; lia]. }
  destruct (H pools (st, []) (fun p Hp => Hp) (List.Forall_nil _)) as [Hall Hlen].
  split; [exact Hall | simpl in Hlen; lia].
Qed.

(** X19. What [calculatePrice] returns for a token with a configuration:
    never an error; either the bare zero price, or an aggregate whose
    [poolCount] is the number of samples it lists, with at least one and at
    most as many samples as pools, every sample being one of the given pools
    with a strictly positive USD price, and tagged with the address, symbol
    and name of the configuration. *)
Theorem calculatePrice_shape (st : State) (tokenAddress : string) (pools : list Pool)
  (tokenConfig : TokenConfig) :
  exists price : PriceData,
    snd (calculatePrice rt chain agentTokens tokens st tokenAddress pools
                        (Some tokenConfig)) = Js.Normal price
    /\ match details price with
       | None => priceUSD price = 0%float /\ priceBNB price = 0%float
       | Some d =>
           pd_poolCount d = List.length (pd_pools d)
           /\ (1 <= List.length (pd_pools d) <= List.length pools)%nat
           /\ Forall (sample_of pools) (pd_pools d)
           /\ pd_tokenAddress d = tc_address tokenConfig
           /\ pd_symbol d = tc_symbol tokenConfig
           /\ pd_name d = tc_name tokenConfig
       end.
Proof.
  unfold calculatePrice.
  destruct (pool_samples_samples st tokenAddress pools) as [Hall Hlen].
  destruct (pool_samples _ _ _ st tokenAddress pools) as [st' prices]. cbn [snd] in *.
  destruct (Nat.eqb_spec (List.length prices) 0) as [Hzero|Hsome].
  { eexists. split; [reflexivity|]. split; reflexivity. }
  eexists. split; [reflexivity|]. cbn [details calculateWeightedAverage].
  set (clean := List.filter _ prices).
  assert (Hclean : Forall (sample_of pools) clean /\ (List.length clean <= List.length prices)%nat).
  { split.
    - apply List.Forall_forall. intros s Hs. apply List.filter_In in Hs as [Hs _].
      rewrite List.Forall_forall in Hall. now apply Hall.
    - apply List.filter_length_le. }
  destruct Hclean as [Hcall Hclen].
  destruct (Nat.eqb_spec (List.length clean) 0) as [Hcz|Hcs]; cbn;
    repeat split; try assumption; lia.
Qed.

Lemma loadPools_spec (tokenAddress : string) (tokenConfig : TokenConfig) (st : State) :
  quiet st (fst (loadPools rt chain agentTokens st tokenAddress tokenConfig))
  /\ Forall (fun pool => pool_hasLiquidity pool = true
                         /\ In (pool_config pool) (tc_pools tokenConfig))
            (snd (loadPools rt chain agentTokens st tokenAddress tokenConfig)).
Proof.
  unfold loadPools.
  match goal with |- context [fold_left ?f _ _] => set (step := f) end.
  set (good := fun pool : Pool => pool_hasLiquidity pool = true
                                  /\ In (pool_config pool) (tc_pools tokenConfig)).
  assert (H : forall entries (acc : State * list Pool),
             (forall c, In c entries -> In c (tc_pools tokenConfig)) ->
             Forall good (snd acc) ->
             quiet (fst acc) (fst (fold_left step entries acc))
             /\ Forall good (snd (fold_left step entries acc))).
  { induction entries as [|entry entries IH]; intros [s active] Hsub Hacc; cbn [fold_left].
    - split; [apply quiet_refl | exact Hacc].
    - assert (Hrest : forall c, In c entries -> In c (tc_pools tokenConfig))
        by (intros c Hc; apply Hsub; now right).
      unfold step at 2 4.
      destruct (rpc_loadPool chain entry tokenAddress) as [poolInfo|e];
        [|apply (IH (s, active) Hrest Hacc)].
      destruct (pool_hasLiquidity poolInfo) eqn:Hliq; [|apply (IH (s, active) Hrest Hacc)].
      match goal with
      | |- context [fold_left step entries (?s', ?l')] =>
          destruct (IH (s', l') Hrest) as [Hq Hall]
      end.
      { cbn [snd]. apply Forall_app. split; [exact Hacc|].
        constructor; [|constructor]. split; [exact Hliq|].
        cbn. apply Hsub. now left. }
      split; [|exact Hall].
      eapply quiet_trans; [|exact Hq]. cbn [fst].
      destruct (pc_pairIsAgent entry); [apply getAgentTokenPrice_quiet | apply quiet_refl]. }
  apply (H (tc_pools tokenConfig) (st, []) (fun c Hc => Hc) (List.Forall_nil _)).
Qed.

(** Setting up a listener touches the registries only. *)
Lemma setupPoolListener_registry_only (st : State) (pool : Pool) (tokenAddress : string) :
  let st' := setupPoolListener st pool tokenAddress in
  monitoredTokens st' = monitoredTokens st /\ priceCache st' = priceCache st
  /\ io st' = io st /\ metrics st' = metrics st.
Proof.
  cbv zeta. unfold setupPoolListener.
  assert (Hsweep : forall key np s,
             quiet s (sweep_stale key np s)).
  { intros key np s. unfold sweep_stale. cbv zeta.
    assert (Q1 : forall (l : list (string * ListenerEntry)) s0,
               quiet s0 (fold_left (fun st e => detach (le_contract (snd e)) st) l s0))
      by (intros; apply fold_left_quiet; intros; repeat split).
    assert (Q2 : forall (l : list (string * ListenerEntry)) s0,
               quiet s0 (fold_left
                           (fun st e => set_activeListeners
                                          (registry_delete (fst e) (activeListeners st)) st)
                           l s0))
      by (intros; apply fold_left_quiet; intros; repeat split).
    assert (Q3 : forall (l : list (string * Contract)) s0,
               quiet s0 (fold_left
                           (fun st e => set_poolContracts (delete (fst e) (poolContracts st))
                                          (detach (snd e) st))
                           l s0))
      by (intros; apply fold_left_quiet; intros; repeat split).
    eapply quiet_trans; [eapply quiet_trans; [apply Q1 | apply Q2] | apply Q3]. }
  pose proof (Hsweep (listenerKey (pool_address pool) tokenAddress)
                     (Js.toLowerCase (pool_address pool)) st) as (Hm & Hc & Hio & Hme).
  destruct (String.eqb (pool_type pool) "AERODROME_V2");
    [|destruct (String.eqb (pool_type pool) "AERODROME_V3");
      [|destruct (String.eqb (pool_type pool) "V2")]];
    (split; [exact Hm|]; split; [exact Hc|]; split; [exact Hio | exact Hme]).
Qed.

(** X20. [addTokenWithConfig] either fails without a trace or registers the
    token completely.  When it returns [null] -- no configured pool loaded
    with liquidity -- the token table, the price cache and the sockets are
    as before.  When it returns a price, the token is stored under its
    lowercase address as a dynamic token with the loaded pools, each of them
    liquid and one of the configured entries, and with that price as
    [lastPrice]; the price is cached and broadcast exactly when its USD value
    is positive. *)
Theorem addTokenWithConfig_outcome (st : State) (tokenAddress : string)
  (tokenConfig : TokenConfig) :
  let key := Js.toLowerCase tokenAddress in
  let '(st', result) :=
    addTokenWithConfig rt chain agentTokens tokens st tokenAddress tokenConfig in
  match result with
  | None =>
      monitoredTokens st' = monitoredTokens st /\ priceCache st' = priceCache st
      /\ io st' = io st
  | Some price =>
      exists pools : list Pool,
        pools <> []
        /\ Forall (fun pool => pool_hasLiquidity pool = true
                               /\ In (pool_config pool) (tc_pools tokenConfig)) pools
        /\ monitoredTokens st'
           = <[key := {| td_config := tokenConfig; td_pools := pools;
                         lastPrice := Some price; lastUpdate := now chain;
                         lastUpdateCall := None; isDynamic := true |}]>
               (monitoredTokens st)
        /\ if Js.gt (priceUSD price) 0%float
           then priceCache st'
                = <[key := {| ce_price := price; cachedAt := now chain |}]> (priceCache st)
                /\ io st'
                   = io st ++ [ {| em_target := ToRoom ("token:" +:+ key);
                                   em_event := "price-update";
                                   em_payload := price_update rt price |};
                                {| em_target := ToAll;
                                   em_event := "global-price-update";
                                   em_payload := price_update rt price |} ]
           else priceCache st' = priceCache st /\ io st' = io st
  end.
Proof.
  cbv zeta. unfold addTokenWithConfig.
  set (key := Js.toLowerCase tokenAddress).
  set (st1 := if existsb pc_pairIsAgent (tc_pools tokenConfig)
              then updateAllAgentPrices rt chain agentTokens st else st).
  assert (Hq1 : quiet st st1).
  { subst st1. destruct (existsb _ _); [apply updateAllAgentPrices_quiet | apply quiet_refl]. }
  set (st2 := if bnb_price_stale chain st1 then updateBNBPrice rt chain st1 else st1).
  assert (Hq2 : quiet st st2).
  { eapply quiet_trans; [exact Hq1|]. subst st2.
    destruct (bnb_price_stale _ _); [apply updateBNBPrice_quiet | apply quiet_refl]. }
  destruct (loadPools_spec key tokenConfig st2) as [Hq3 Hpools].
  destruct (loadPools rt chain agentTokens st2 key tokenConfig) as [st3 activePools].
  cbn [fst snd] in Hq3, Hpools.
  assert (Hq : quiet st st3) by (eapply quiet_trans; eassumption).
  destruct (Nat.eqb_spec (List.length activePools) 0) as [Hnone|Hsome].
  { destruct Hq as (Hm & Hc & Hio & _). now repeat split. }
  pose proof (calculatePrice_quiet rt chain agentTokens tokens st3 key activePools
                (Some tokenConfig)) as Hq4.
  destruct (calculatePrice rt chain agentTokens tokens st3 key activePools
              (Some tokenConfig)) as [st4 [initialPrice|e]] eqn:Hcalc; cbn [fst] in Hq4.
  2: { destruct (quiet_trans _ _ _ Hq Hq4) as (Hm & Hc & Hio & _). now repeat split. }
  destruct (quiet_trans _ _ _ Hq Hq4) as (Hm & Hc & Hio & _).
  set (tokenData := {| td_config := tokenConfig; td_pools := activePools;
                       lastPrice := Some initialPrice; lastUpdate := now chain;
                       lastUpdateCall := None; isDynamic := true |}).
  set (st5 := set_monitoredTokens (<[key := tokenData]> (monitoredTokens st4)) st4).
  assert (Hloop : forall pools s,
             let s' := fold_left (fun st pool => setupPoolListener st pool key) pools s in
             monitoredTokens s' = monitoredTokens s /\ priceCache s' = priceCache s
             /\ io s' = io s).
  { induction pools as [|pool pools IH]; intros s; cbn [fold_left]; [now repeat split|].
    destruct (IH (setupPoolListener s pool key)) as (H1 & H2 & H3).
    destruct (setupPoolListener_registry_only s pool key) as (G1 & G2 & G3 & _).
    cbv zeta. repeat split; congruence. }
  destruct (Hloop activePools st5) as (L1 & L2 & L3).
  set (st6 := fold_left (fun st pool => setupPoolListener st pool key) activePools st5) in *.
  exists activePools. split; [now destruct activePools|]. split; [exact Hpools|].
  assert (M5 : monitoredTokens st5 = <[key := tokenData]> (monitoredTokens st)).
  { subst st5. destruct st4. cbn in *. now rewrite Hm. }
  assert (C5 : priceCache st5 = priceCache st) by (subst st5; destruct st4; exact Hc).
  assert (I5 : io st5 = io st) by (subst st5; destruct st4; exact Hio).
  destruct (Js.gt (priceUSD initialPrice) 0%float).
  - split; [|split].
    + destruct (broadcastPrice_frame rt
                  (set_priceCache (LastPriceCache.set (priceCache st6) key initialPrice
                                     (now chain)) st6) key initialPrice) as [B1 _].
      cbv zeta in B1. rewrite B1.
      change (monitoredTokens st6 = <[key := tokenData]> (monitoredTokens st)).
      now rewrite L1.
    + destruct (broadcastPrice_frame rt
                  (set_priceCache (LastPriceCache.set (priceCache st6) key initialPrice
                                     (now chain)) st6) key initialPrice) as [_ B2].
      cbv zeta in B2. rewrite B2.
      change (LastPriceCache.set (priceCache st6) key initialPrice (now chain)
              = <[key := {| ce_price := initialPrice; cachedAt := now chain |}]>
                  (priceCache st)).
      unfold LastPriceCache.set. rewrite L2, C5.
      replace (Js.toLowerCase key) with key; [reflexivity|].
      subst key. symmetry. apply toLowerCase_idempotent.
    + unfold broadcastPrice, room_of.
      match goal with
      | |- io (set_io ?l _) = _ => change (io (set_io l _)) with l
      end.
      change (io (set_priceCache ?c st6)) with (io st6).
      rewrite L3, I5.
      replace (Js.toLowerCase key) with key; [reflexivity|].
      subst key. symmetry. apply toLowerCase_idempotent.
  - split; [now rewrite L1|]. split; [now rewrite L2 | now rewrite L3].
Qed.

End Aggregate.

(** ** The listener registry *)

Section Listeners.

Import PriceMonitor.

Lemma toLowerCase_app (s t : string) :
  Js.toLowerCase (s +:+ t) = Js.toLowerCase s +:+ Js.toLowerCase t.
Proof.
  induction s as [|c s IH]; [reflexivity|].
  change (String (Js.lower_ascii c) (Js.toLowerCase (s +:+ t))
          = String (Js.lower_ascii c) (Js.toLowerCase s +:+ Js.toLowerCase t)).
  now rewrite IH.
Qed.

Lemma listenerKey_lowercase (poolAddress tokenAddress : string) :
  Js.toLowerCase (listenerKey poolAddress tokenAddress) = listenerKey poolAddress tokenAddress.
Proof.
  unfold listenerKey. now rewrite !toLowerCase_app, !toLowerCase_idempotent.
Qed.

Lemma filter_twice {A} (f g : A -> bool) (l : list A) :
  List.filter f (List.filter g l) = List.filter (fun x => g x && f x) l.
Proof.
  induction l as [|x l IH]; [reflexivity|]. cbn [List.filter].
  destruct (g x); cbn [List.filter andb]; [destruct (f x)|]; now rewrite IH.
Qed.

Lemma existsb_eqb_In (k : string) (ks : list string) :
  existsb (String.eqb k) ks = true <-> In k ks.
Proof.
  rewrite existsb_exists. split.
  - intros (x & Hx & He). apply String.eqb_eq in He. now subst.
  - intros H. exists k. split; [exact H | apply String.eqb_refl].
Qed.

(** Detaching a list of contracts. *)
Lemma detach_fold {A} (f : A -> Contract) (l : list A) :
  forall s,
    let s' := fold_left (fun st e => detach (f e) st) l s in
    activeListeners s' = activeListeners s /\ poolContracts s' = poolContracts s
    /\ nextContract s' = nextContract s
    /\ forall d, In d (subscriptions s') <-> In d (subscriptions s) /\ ~ In d (List.map f l).
Proof.
  induction l as [|x l IH]; intros s; cbn [fold_left List.map].
  - cbv zeta. repeat split; tauto.
  - destruct (IH (detach (f x) s)) as (H1 & H2 & H3 & H4). cbv zeta.
    split; [exact H1|]. split; [exact H2|]. split; [exact H3|].
    intros d. rewrite H4.
    change (subscriptions (detach (f x) s))
      with (List.filter (fun d => negb (Nat.eqb d (f x))) (subscriptions s)).
    rewrite List.filter_In, Bool.negb_true_iff, Nat.eqb_neq. cbn [In]. intuition congruence.
Qed.

(** Deleting a list of keys from the registry. *)
Lemma registry_delete_fold (l : list (string * ListenerEntry)) :
  forall s,
    let s' := fold_left (fun st e => set_activeListeners
                                       (registry_delete (fst e) (activeListeners st)) st)
                        l s in
    activeListeners s'
    = List.filter (fun e => negb (existsb (String.eqb (fst e)) (List.map fst l)))
                  (activeListeners s)
    /\ poolContracts s' = poolContracts s /\ nextContract s' = nextContract s
    /\ subscriptions s' = subscriptions s.
Proof.
  induction l as [|x l IH]; intros s; cbn [fold_left List.map existsb].
  - cbv zeta. repeat split.
    induction (activeListeners s) as [|e r IHr]; [reflexivity|].
    simpl. now f_equal.
  - destruct (IH (set_activeListeners (registry_delete (fst x) (activeListeners s)) s))
      as (H1 & H2 & H3 & H4). cbv zeta.
    split; [|split; [exact H2 | split; [exact H3 | exact H4]]].
    rewrite H1.
    change (activeListeners (set_activeListeners ?l s)) with l.
    unfold registry_delete. rewrite filter_twice.
    apply List.filter_ext. intros e. now rewrite Bool.negb_orb.
Qed.

(** Dropping a list of pool contracts. *)
Lemma poolContracts_delete_fold (l : list (string * Contract)) :
  forall s,
    let s' := fold_left (fun st e => set_poolContracts (delete (fst e) (poolContracts st))
                                       (detach (snd e) st))
                        l s in
    activeListeners s' = activeListeners s /\ nextContract s' = nextContract s
    /\ (forall k, poolContracts s' !! k
                  = if existsb (String.eqb k) (List.map fst l) then None
                    else poolContracts s !! k)
    /\ forall d, In d (subscriptions s')
                 <-> In d (subscriptions s) /\ ~ In d (List.map snd l).
Proof.
  induction l as [|x l IH]; intros s; cbn [fold_left List.map existsb].
  - cbv zeta. repeat split; tauto.
  - destruct (IH (set_poolContracts (delete (fst x) (poolContracts s)) (detach (snd x) s)))
      as (H1 & H2 & H3 & H4). cbv zeta.
    split; [exact H1|]. split; [exact H2|]. split.
    + intros k. rewrite H3.
      change (poolContracts (set_poolContracts ?m _)) with m.
      destruct (String.eqb_spec k (fst x)) as [->|Hne]; cbn [orb].
      * rewrite lookup_delete_eq. now destruct (existsb _ _).
      * rewrite lookup_delete_ne by congruence. reflexivity.
    + intros d. rewrite H4.
      change (subscriptions (set_poolContracts ?m (detach (snd x) s)))
        with (List.filter (fun d => negb (Nat.eqb d (snd x))) (subscriptions s)).
      rewrite List.filter_In, Bool.negb_true_iff, Nat.eqb_neq. cbn [In]. intuition congruence.
Qed.

Lemma registry_set_fresh (key : string) (v : ListenerEntry)
  (l : list (string * ListenerEntry)) :
  (forall e, In e l -> fst e <> key) -> registry_set key v l = l ++ [(key, v)].
Proof.
  induction l as [|[k w] l IH]; intros Hfresh; [reflexivity|]. cbn [registry_set].
  destruct (String.eqb_spec k key) as [Heq|Hne].
  - exfalso. apply (Hfresh (k, w)); [now left | exact Heq].
  - cbn [app]. rewrite IH; [reflexivity|]. intros e He. apply Hfresh. now right.
Qed.

(** The four listener set-ups differ in the recorded pool type only; any
    type other than the first three is treated as V3. *)
Definition listener_type (pool : Pool) : string :=
  if String.eqb (pool_type pool) "AERODROME_V2" then "AERODROME_V2"
  else if String.eqb (pool_type pool) "AERODROME_V3" then "AERODROME_V3"
  else if String.eqb (pool_type pool) "V2" then "V2"
  else "V3".

(** X21. [setupPoolListener] leaves exactly one handle for the pool and
    token, whatever spellings the registry held before: the handle is
    stored under the lowercase key with a fresh contract, the lowercase
    token address and the pool type (V3 for every type that is not
    AERODROME_V2, AERODROME_V3 or V2); handles of other pool-token pairs are
    kept in order; the pool-contract table holds the fresh contract under the
    lowercase pool address and no other spelling of it; and the provider's
    subscriptions are the fresh contract plus the old ones that belonged
    neither to a replaced handle nor to a replaced pool contract. *)
Theorem setupPoolListener_single_handle (st : State) (pool : Pool) (tokenAddress : string) :
  let key := listenerKey (pool_address pool) tokenAddress in
  let np := Js.toLowerCase (pool_address pool) in
  let c := nextContract st in
  let same (e : string * ListenerEntry) := String.eqb (Js.toLowerCase (fst e)) key in
  let entry := {| le_contract := c; le_tokenAddress := Js.toLowerCase tokenAddress;
                  le_poolType := listener_type pool; le_listener := None |} in
  let st' := setupPoolListener st pool tokenAddress in
  List.filter same (activeListeners st') = [(key, entry)]
  /\ List.filter (fun e => negb (same e)) (activeListeners st')
     = List.filter (fun e => negb (same e)) (activeListeners st)
  /\ (forall k, poolContracts st' !! k
                = if String.eqb k np then Some c
                  else if String.eqb (Js.toLowerCase k) np then None
                  else poolContracts st !! k)
  /\ (forall d, In d (subscriptions st')
                <-> d = c
                    \/ (In d (subscriptions st)
                        /\ (forall e, In e (activeListeners st) -> same e = true ->
                                      le_contract (snd e) <> d)
                        /\ (forall k, Js.toLowerCase k = np ->
                                      poolContracts st !! k <> Some d)))
  /\ nextContract st' = S c.
Proof.
  cbv zeta.
  set (key := listenerKey (pool_address pool) tokenAddress).
  set (np := Js.toLowerCase (pool_address pool)).
  set (same := fun e : string * ListenerEntry => String.eqb (Js.toLowerCase (fst e)) key).
  assert (Hsetup : setupPoolListener st pool tokenAddress
                   = attach (listener_type pool) pool tokenAddress (sweep_stale key np st)).
  { unfold setupPoolListener, listener_type. fold key np.
    destruct (String.eqb (pool_type pool) "AERODROME_V2"); [reflexivity|].
    destruct (String.eqb (pool_type pool) "AERODROME_V3"); [reflexivity|].
    destruct (String.eqb (pool_type pool) "V2"); reflexivity. }
  rewrite Hsetup. clear Hsetup.
  (* the sweep *)
  unfold sweep_stale. cbv zeta. fold same.
  set (stale := List.filter same (activeListeners st)).
  destruct (detach_fold (fun e : string * ListenerEntry => le_contract (snd e)) stale st)
    as (A1 & P1 & N1 & S1).
  set (st1 := fold_left (fun st e => detach (le_contract (snd e)) st) stale st) in *.
  destruct (registry_delete_fold stale st1) as (A2 & P2 & N2 & S2).
  set (st2 := fold_left _ stale st1) in *.
  set (stale_contracts :=
         List.filter (fun e : string * Contract => String.eqb (Js.toLowerCase (fst e)) np)
                     (map_to_list (poolContracts st2))).
  destruct (poolContracts_delete_fold stale_contracts st2) as (A3 & N3 & P3 & S3).
  set (st3 := fold_left _ stale_contracts st2) in *.
  (* the registry after the sweep *)
  assert (Hreg : activeListeners st3 = List.filter (fun e => negb (same e)) (activeListeners st)).
  { rewrite A3, A2, A1. apply List.filter_ext_in. intros e He. f_equal.
    destruct (same e) eqn:Hsame.
    - apply existsb_eqb_In. apply List.in_map. apply List.filter_In. now split.
    - apply Bool.not_true_is_false. intros Hin. apply existsb_eqb_In in Hin.
      apply List.in_map_iff in Hin as (e' & Hfst & He').
      apply List.filter_In in He' as [_ Hs']. unfold same in Hsame, Hs'.
      rewrite Hfst in Hs'. congruence. }
  assert (Hfresh : forall e, In e (activeListeners st3) -> fst e <> key).
  { intros e He Hk. rewrite Hreg in He. apply List.filter_In in He as [_ Hn].
    unfold same in Hn. rewrite Hk in Hn. subst key.
    rewrite listenerKey_lowercase, String.eqb_refl in Hn. discriminate. }
  assert (Hkey : same (key, {| le_contract := nextContract st;
                               le_tokenAddress := Js.toLowerCase tokenAddress;
                               le_poolType := listener_type pool;
                               le_listener := None |}) = true).
  { unfold same. cbn [fst]. subst key. rewrite listenerKey_lowercase. apply String.eqb_refl. }
  assert (Hnext : nextContract st3 = nextContract st) by congruence.
  unfold attach. cbv zeta. fold key np.
  change (activeListeners (set_subscriptions ?s (set_poolContracts ?p
            (set_activeListeners ?l ?x)))) with l.
  change (poolContracts (set_subscriptions ?s (set_poolContracts ?p ?x))) with p.
  change (nextContract (set_subscriptions ?s (set_poolContracts ?p
            (set_activeListeners ?l (set_nextContract ?n ?x))))) with n.
  change (subscriptions (set_subscriptions ?s ?x)) with s.
  change (activeListeners (set_nextContract ?n st3)) with (activeListeners st3).
  change (poolContracts (set_activeListeners ?l (set_nextContract ?n st3)))
    with (poolContracts st3).
  change (subscriptions (set_poolContracts ?p (set_activeListeners ?l
            (set_nextContract ?n st3)))) with (subscriptions st3).
  rewrite Hnext, registry_set_fresh by exact Hfresh.
  rewrite !List.filter_app. cbn [List.filter]. rewrite Hkey. cbn [negb].
  rewrite Hreg, !filter_twice.
  split; [|split; [|split; [|split]]].
  - rewrite (List.filter_ext _ (fun _ => false)) by (intros e; now destruct (same e)).
    assert (Hnil : forall l : list (string * ListenerEntry),
               List.filter (fun _ => false) l = [])
      by (induction l as [|x l IHl]; [reflexivity | exact IHl]).
    now rewrite Hnil.
  - rewrite app_nil_r. apply List.filter_ext. intros e. now destruct (same e).
  - intros k. destruct (String.eqb_spec k np) as [->|Hne].
    + apply lookup_insert_eq.
    + rewrite lookup_insert_ne by congruence. rewrite P3.
      destruct (String.eqb_spec (Js.toLowerCase k) np) as [Hlow|Hlow].
      * destruct (existsb (String.eqb k) (List.map fst stale_contracts)) eqn:Hex;
          [reflexivity|].
        destruct (poolContracts st2 !! k) as [d|] eqn:Hk; [|reflexivity].
        exfalso. apply Bool.not_true_iff_false in Hex. apply Hex.
        apply existsb_eqb_In. apply List.in_map_iff. exists (k, d). split; [reflexivity|].
        apply List.filter_In. split.
        -- apply list_elem_of_In. now apply elem_of_map_to_list.
        -- cbn [fst]. rewrite Hlow. apply String.eqb_refl.
      * destruct (existsb (String.eqb k) (List.map fst stale_contracts)) eqn:Hex;
          [|now rewrite P2, P1].
        exfalso. apply existsb_eqb_In in Hex.
        apply List.in_map_iff in Hex as ([k' d] & Hfst & Hin).
        apply List.filter_In in Hin as [_ Hs]. cbn [fst] in *. subst k'.
        apply String.eqb_eq in Hs. contradiction.
  - intros d. rewrite List.in_app_iff, S3, S2, S1. cbn [In].
    assert (Hhandles : ~ In d (List.map (fun e : string * ListenerEntry =>
                                           le_contract (snd e)) stale)
                       <-> forall e, In e (activeListeners st) -> same e = true ->
                                     le_contract (snd e) <> d).
    { split.
      - intros Hno e He Hs Hd. apply Hno. apply List.in_map_iff. exists e.
        split; [exact Hd|]. apply List.filter_In. now split.
      - intros Hall Hin. apply List.in_map_iff in Hin as (e & Hd & He).
        apply List.filter_In in He as [He Hs]. exact (Hall e He Hs Hd). }
    assert (Hpools : ~ In d (List.map snd stale_contracts)
                     <-> forall k, Js.toLowerCase k = np -> poolContracts st !! k <> Some d).
    { split.
      - intros Hno k Hk Hd. apply Hno. apply List.in_map_iff. exists (k, d).
        split; [reflexivity|]. apply List.filter_In. split.
        + apply list_elem_of_In. apply elem_of_map_to_list. now rewrite P2, P1.
        + cbn [fst]. rewrite Hk. apply String.eqb_refl.
      - intros Hall Hin. apply List.in_map_iff in Hin as ([k d'] & Hd & He).
        cbn [snd] in Hd. subst d'.
        apply List.filter_In in He as [He Hs]. cbn [fst] in Hs.
        apply String.eqb_eq in Hs. apply list_elem_of_In in He.
        apply elem_of_map_to_list in He. rewrite P2, P1 in He. exact (Hall k Hs He). }
    rewrite Hhandles, Hpools. intuition congruence.
  - reflexivity.
Qed.

End Listeners.

(** ** Removal and the listener registry *)

Section RemovalRegistry.

Import PriceMonitor.

(** Whether the character occurs in the string. *)
Fixpoint has_char (c : ascii) (s : string) : bool :=
  match s with
  | EmptyString => false
  | String x r => Ascii.eqb x c || has_char c r
  end.

Lemma lower_ascii_colon (x : ascii) :
  Ascii.eqb (Js.lower_ascii x) ":" = Ascii.eqb x ":".
Proof. destruct x as [[] [] [] [] [] [] [] []]; vm_compute; reflexivity. Qed.

Lemma lower_ascii_dash (x : ascii) :
  Ascii.eqb (Js.lower_ascii x) "-" = Ascii.eqb x "-".
Proof. destruct x as [[] [] [] [] [] [] [] []]; vm_compute; reflexivity. Qed.

Lemma has_colon_toLowerCase (s : string) :
  has_char ":" (Js.toLowerCase s) = has_char ":" s.
Proof.
  induction s as [|x s IH]; [reflexivity|].
  cbn [Js.toLowerCase has_char]. now rewrite lower_ascii_colon, IH.
Qed.

Lemma has_dash_toLowerCase (s : string) :
  has_char "-" (Js.toLowerCase s) = has_char "-" s.
Proof.
  induction s as [|x s IH]; [reflexivity|].
  cbn [Js.toLowerCase has_char]. now rewrite lower_ascii_dash, IH.
Qed.

(** No [pool-token] key starts with [token:]. *)
Lemma prefix_colon_dash (x z : string) :
  has_char ":" x = false ->
  forall y, has_char "-" y = false ->
            String.prefix (y +:+ ":") (x +:+ "-" +:+ z) = false.
Proof.
  intros Hx. induction x as [|a x IH]; intros y Hy.
  - destruct y as [|b y]; [reflexivity|].
    cbn [has_char] in Hy. apply Bool.orb_false_iff in Hy as [Hb _].
    change (String.prefix (String b (y +:+ ":")) (String "-" z) = false).
    cbn [String.prefix]. destruct (ascii_dec b "-") as [->|]; [discriminate|reflexivity].
  - cbn [has_char] in Hx. apply Bool.orb_false_iff in Hx as [Ha Hx].
    destruct y as [|b y].
    + change (String.prefix (String ":" "") (String a (x +:+ "-" +:+ z)) = false).
      cbn [String.prefix]. destruct (ascii_dec ":" a) as [<-|]; [discriminate|reflexivity].
    + cbn [has_char] in Hy. apply Bool.orb_false_iff in Hy as [_ Hy].
      change (String.prefix (String b (y +:+ ":")) (String a (x +:+ "-" +:+ z)) = false).
      cbn [String.prefix]. destruct (ascii_dec b a); [|reflexivity].
      now apply IH.
Qed.

Lemma listenerKey_not_prefixed (poolAddress token tokenAddress : string) :
  has_char ":" poolAddress = false ->
  has_char "-" tokenAddress = false ->
  Js.startsWith (listenerKey poolAddress token) (Js.toLowerCase tokenAddress +:+ ":") = false.
Proof.
  intros Hp Ht. unfold Js.startsWith, listenerKey. apply prefix_colon_dash.
  - now rewrite has_colon_toLowerCase.
  - now rewrite has_dash_toLowerCase.
Qed.

Lemma drop_listeners_none (key : string) (st : State) :
  (forall e, In e (activeListeners st) -> Js.startsWith (fst e) (key +:+ ":") = false) ->
  drop_listeners key st = st.
Proof.
  unfold drop_listeners. generalize (activeListeners st) at 1 2. intros l. revert st.
  induction l as [|[k d] l IH]; intros s Hl; cbn [fold_left]; [reflexivity|].
  pose proof (Hl (k, d) (or_introl eq_refl)) as Hk. cbn [fst] in Hk. rewrite Hk.
  apply IH. intros e He. apply Hl. now right.
Qed.

(** X22. [removeDynamicToken] looks for handles under [token:...], while the
    listener set-up stores them under [pool-token].  So when every handle of
    the registry is under such a key, for pools whose addresses hold no
    colon, removing a token whose address holds no dash takes no handle
    out of the registry, stops no subscription and removes no listener:
    the token's listeners outlive the call. *)
Theorem removeDynamicToken_leaves_listeners (st : State) (tokenAddress : string) :
  has_char "-" tokenAddress = false ->
  (forall e, In e (activeListeners st) ->
             exists poolAddress token,
               fst e = listenerKey poolAddress token /\ has_char ":" poolAddress = false) ->
  let st' := fst (removeDynamicToken st tokenAddress) in
  activeListeners st' = activeListeners st
  /\ subscriptions st' = subscriptions st
  /\ teardowns st' = teardowns st.
Proof.
  intros Hdash Hkeys. cbv zeta. unfold removeDynamicToken.
  destruct (monitoredTokens st !! Js.toLowerCase tokenAddress) as [tokenData|];
    [|now repeat split].
  rewrite drop_listeners_none.
  2: { intros e He. destruct (Hkeys e He) as (p & t & -> & Hp).
       now apply listenerKey_not_prefixed. }
  set (st2 := match mempoolMonitor st with Some mm => _ | None => st end).
  assert (H2 : activeListeners st2 = activeListeners st
               /\ subscriptions st2 = subscriptions st /\ teardowns st2 = teardowns st)
    by (subst st2; destruct (mempoolMonitor st); now repeat split).
  assert (Hpools : forall pools s,
             let s' := fold_left
                         (fun st pool =>
                            if String.eqb (pool_address pool) "" then st
                            else set_poolContracts
                                   (delete (pool_address pool) (poolContracts st)) st)
                         pools s in
             activeListeners s' = activeListeners s
             /\ subscriptions s' = subscriptions s /\ teardowns s' = teardowns s).
  { induction pools as [|pool pools IH]; intros s; cbn [fold_left]; [now repeat split|].
    cbv zeta. destruct (String.eqb (pool_address pool) ""); [apply IH|].
    destruct (IH (set_poolContracts (delete (pool_address pool) (poolContracts s)) s))
      as (I1 & I2 & I3).
    now repeat split. }
  destruct (Hpools (td_pools tokenData) st2) as (P1 & P2 & P3).
  destruct H2 as (Q1 & Q2 & Q3).
  destruct (LastPriceCache.has_method "delete"); cbn [fst];
    (split; [|split]); etransitivity; try eassumption; eassumption.
Qed.

End RemovalRegistry.

Lemma removeDynamicToken_leaves_listeners_witness :
  let st' := fst (PriceMonitor.removeDynamicToken Scenario.added Scenario.MON) in
  is_Some (PriceMonitor.monitoredTokens Scenario.added !! Js.toLowerCase Scenario.MON)
  /\ PriceMonitor.activeListeners st' = PriceMonitor.activeListeners Scenario.added
  /\ PriceMonitor.subscriptions st' = PriceMonitor.subscriptions Scenario.added
  /\ PriceMonitor.teardowns st' = PriceMonitor.teardowns Scenario.added.
Proof.
  split; [vm_compute; eexists; reflexivity|].
  apply (removeDynamicToken_leaves_listeners Scenario.added Scenario.MON).
  - vm_compute; reflexivity.
  - intros e He. vm_compute in He. destruct He as [<-|[]].
    exists Scenario.POOL, Scenario.MON. split; vm_compute; reflexivity.
Defined.
